(** * ERCOT BESS COP automation: generator and validator

    A shallow embedding of
    [ercot_code/market_rules/business_practice_manuals/ERCOT_BESS_COP_Automation.py]
    (classes [BESSParameters], [COPGenerator], [COPValidator],
    [COPSubmitter], [COPAutomationSystem]) and the properties of the
    operating-plan engine stated over it.

    The numbers of the source are binary64 floats.  The embedding has them
    twice.
    - The exact model, in which a float is the rational it denotes ([Q]), a
      decimal literal of the source ([0.8], [0.01], [1.05]) is the decimal
      fraction, and [+!], [-!], [*!] return their result in lowest terms, so
      that equal numbers are equal terms.  It covers the whole module, and
      carries the properties on which rounding has no bearing: which
      columns, rows, statuses and findings a function produces, and the
      evaluation of inputs whose arithmetic is exact in binary64.
    - The binary64 model (module [Binary64]), in which a float is a
      primitive IEEE 754 binary64 number.  It covers the feasibility repair
      and the validator, and carries the properties that depend on the
      outcome of a comparison between computed numbers.

    Other conventions of the embedding.
    - A pandas frame is the list of its rows, in frame order.  The row type
      fixes the columns a frame has at that stage of [generate_cop]; the
      index label of a row is its [hour_ending] (the frame is built with
      [cop['hour_ending'] = cop.index]).
    - A timestamp is a count of microseconds ([Z]), the resolution of
      [datetime]; [pd.date_range(freq='H')] steps by one hour.
    - An exception is the [Raise] branch of [result].
    - [self.validation_errors] and [self.validation_warnings] are fields of
      the validator state, threaded through every check.
    - Log output, the formatted ['message'] and ['summary'] texts and the
      copy of the plan kept in [self.cop_data] are left out. *)

From Stdlib Require Import QArith Qminmax Qabs Lqa Lia List ZArith String Bool.
From Stdlib Require PrimFloat.
Import ListNotations.
Open Scope Q_scope.

Set Warnings "-inexact-float".

(** ** Numbers *)

Definition fadd (a b : Q) : Q := Qred (a + b).
Definition fsub (a b : Q) : Q := Qred (a - b).
Definition fmul (a b : Q) : Q := Qred (a * b).

Infix "+!" := fadd (at level 50, left associativity) : Q_scope.
Infix "-!" := fsub (at level 50, left associativity) : Q_scope.
Infix "*!" := fmul (at level 40, left associativity) : Q_scope.

Definition Qltb (a b : Q) : bool :=
  match a ?= b with Lt => true | _ => false end.
Definition Qgtb (a b : Q) : bool := Qltb b a.

Infix "<?" := Qltb (at level 70, no associativity) : Q_scope.
Infix ">?" := Qgtb (at level 70, no associativity) : Q_scope.

(** Python's [min(a, b)] keeps [a] unless [b < a], [max(a, b)] keeps [a]
    unless [b > a]: these are [Qmin] and [Qmax]. *)
Definition py_min (a b : Q) : Q := Qmin a b.
Definition py_max (a b : Q) : Q := Qmax a b.

(** [Series.clip(lower, upper)] with two scalars: pandas orders the two
    thresholds first, then bounds each cell.  A cell inside the bounds is
    returned as it is. *)
Definition clip (lower upper x : Q) : Q :=
  let lo := py_min lower upper in
  let hi := py_max lower upper in
  if x <? lo then lo else if x >? hi then hi else x.

(** ** Exceptions *)

Inductive exn : Type :=
| ValueError.   (* truth value of a Series is ambiguous *)

Inductive result (A : Type) : Type :=
| Ok (a : A)
| Raise (e : exn).
Arguments Ok {A} a.
Arguments Raise {A} e.

Definition bind {A B : Type} (m : result A) (k : A -> result B) : result B :=
  match m with
  | Ok a => k a
  | Raise e => Raise e
  end.

Notation "x <- m ;; k" := (bind m (fun x => k))
  (at level 61, m at next level, right associativity).

(** ** Data model *)

Inductive ResourceStatus : Type :=
| ON | OFF | ONTEST | ONREG | ONRR | ONECRS
| OFFNS | OFFQS | OUT | STARTUP | SHUTDOWN | ONEMR.

Definition ResourceStatus_eqb (a b : ResourceStatus) : bool :=
  match a, b with
  | ON, ON | OFF, OFF | ONTEST, ONTEST | ONREG, ONREG | ONRR, ONRR
  | ONECRS, ONECRS | OFFNS, OFFNS | OFFQS, OFFQS | OUT, OUT
  | STARTUP, STARTUP | SHUTDOWN, SHUTDOWN | ONEMR, ONEMR => true
  | _, _ => false
  end.

Inductive Mode : Type := charge | discharge | hold.

Record BESSParameters : Type := {
  resource_name : string;
  capacity_mw : Q;
  capacity_mwh : Q;
  efficiency : Q;
  ramp_rate_up : Q;
  ramp_rate_down : Q;
  min_soc : Q;
  max_soc : Q;
  aux_load : Q
}.

Definition hsl (self : BESSParameters) : Q := capacity_mw self.
Definition lsl (self : BESSParameters) : Q := - capacity_mw self.

Definition Timestamp : Type := Z.

(** One hour, in microseconds. *)
Definition hour_us : Z := 3600000000.

(** [Timestamp.hour]. *)
Definition hour_of_day (t : Timestamp) : Z := ((t / hour_us) mod 24)%Z.

(** A row of the frame the generator works on, before [_add_cop_fields].
    [price] is the cell of the merged [price] column: [None] when the frame
    has no such column or the cell is [NaN]. *)
Record Row : Type := {
  hour_ending : Timestamp;
  row_resource_name : string;
  status : ResourceStatus;
  row_hsl : Q;
  row_lsl : Q;
  soc_begin : Q;
  price : option Q;
  mode : Mode;
  target_mw : Q;
  soc_min : Q;
  soc_max : Q
}.

Definition set_soc_begin (v : Q) (r : Row) : Row :=
  {| hour_ending := hour_ending r; row_resource_name := row_resource_name r;
     status := status r; row_hsl := row_hsl r; row_lsl := row_lsl r;
     soc_begin := v; price := price r; mode := mode r;
     target_mw := target_mw r; soc_min := soc_min r; soc_max := soc_max r |}.

Definition set_target_mw (v : Q) (r : Row) : Row :=
  {| hour_ending := hour_ending r; row_resource_name := row_resource_name r;
     status := status r; row_hsl := row_hsl r; row_lsl := row_lsl r;
     soc_begin := soc_begin r; price := price r; mode := mode r;
     target_mw := v; soc_min := soc_min r; soc_max := soc_max r |}.

Definition set_status (v : ResourceStatus) (r : Row) : Row :=
  {| hour_ending := hour_ending r; row_resource_name := row_resource_name r;
     status := v; row_hsl := row_hsl r; row_lsl := row_lsl r;
     soc_begin := soc_begin r; price := price r; mode := mode r;
     target_mw := target_mw r; soc_min := soc_min r; soc_max := soc_max r |}.

Definition set_soc_min (v : Q) (r : Row) : Row :=
  {| hour_ending := hour_ending r; row_resource_name := row_resource_name r;
     status := status r; row_hsl := row_hsl r; row_lsl := row_lsl r;
     soc_begin := soc_begin r; price := price r; mode := mode r;
     target_mw := target_mw r; soc_min := v; soc_max := soc_max r |}.

Definition set_soc_max (v : Q) (r : Row) : Row :=
  {| hour_ending := hour_ending r; row_resource_name := row_resource_name r;
     status := status r; row_hsl := row_hsl r; row_lsl := row_lsl r;
     soc_begin := soc_begin r; price := price r; mode := mode r;
     target_mw := target_mw r; soc_min := soc_min r; soc_max := v |}.

(** A row of the finished COP: the columns of [Row] and those that
    [_add_cop_fields] appends. *)
Record CopRow : Type := {
  base : Row;
  normal_ramp_up : Q;
  normal_ramp_down : Q;
  emergency_ramp_up : Q;
  emergency_ramp_down : Q;
  hel : Q;
  lel : Q;
  row_aux_load : Q;
  resource_type : string;
  fuel_type : string
}.

(** The optional [price_forecast] frame: whether it has a [price] column,
    and its rows (index label, [price] cell). *)
Record PriceFrame : Type := {
  has_price : bool;
  price_rows : list (Timestamp * option Q)
}.

(** The optional [as_commitments] frame: which of the three columns it has,
    and its rows (index label, cells).  The cell of an absent column is not
    read. *)
Record ASRow : Type := {
  regulation : Q;
  rrs : Q;
  ecrs : Q
}.

Record ASFrame : Type := {
  has_regulation : bool;
  has_rrs : bool;
  has_ecrs : bool;
  as_rows : list (Timestamp * ASRow)
}.

(** ** COPGenerator *)

Section Generator.

Variable bess : BESSParameters.

(** [pd.date_range(start, periods, freq='H')]. *)
Fixpoint date_range (start : Timestamp) (periods : nat) : list Timestamp :=
  match periods with
  | O => []
  | S n => start :: date_range (start + hour_us)%Z n
  end.

(** The loop of [_calculate_soc_trajectory] from [i = 1] on: [prev] is row
    [i-1] as the loop left it. *)
Fixpoint soc_trajectory_loop (prev : Row) (rest : list Row) : list Row :=
  match rest with
  | [] => []
  | r :: rest' =>
      let prev_target := target_mw prev in
      let soc_change :=
        if prev_target >? 0 then - prev_target
        else if prev_target <? 0 then - prev_target *! efficiency bess
        else 0 in
      let r' := set_soc_begin (soc_begin prev +! soc_change) r in
      r' :: soc_trajectory_loop r' rest'
  end.

Definition set_soc_bounds (r : Row) : Row :=
  let x := soc_begin r in
  set_soc_max (py_min (max_soc bess) (x +! Qabs (lsl bess) *! efficiency bess))
    (set_soc_min (py_max (min_soc bess) (x -! hsl bess)) r).

Definition _calculate_soc_trajectory (cop : list Row) (initial_soc : option Q)
  : list Row :=
  let initial_soc :=
    match initial_soc with
    | None => max_soc bess *! 0.5
    | Some s => s
    end in
  let cop := map (set_soc_begin initial_soc) cop in
  let cop :=
    match cop with
    | [] => []
    | r0 :: rest => r0 :: soc_trajectory_loop r0 rest
    end in
  map set_soc_bounds cop.

(** The row [_generate_default_plan] leaves for index label [hour] before
    the trajectory is computed.  [soc_min] and [soc_max] do not exist yet:
    [_calculate_soc_trajectory] assigns both on every row. *)
Definition default_row (hour : Timestamp) : Row :=
  let hour_of_day := hour_of_day hour in
  let '(m, t) :=
    if ((0 <=? hour_of_day) && (hour_of_day <? 6))%Z then (charge, lsl bess *! 0.8)
    else if ((6 <=? hour_of_day) && (hour_of_day <? 10))%Z then (hold, 0)
    else if ((14 <=? hour_of_day) && (hour_of_day <? 20))%Z then (discharge, hsl bess *! 0.9)
    else (hold, 0) in
  {| hour_ending := hour; row_resource_name := resource_name bess;
     status := ON; row_hsl := hsl bess; row_lsl := lsl bess;
     soc_begin := max_soc bess *! 0.5; price := None;
     mode := m; target_mw := t; soc_min := 0; soc_max := 0 |}.

Definition _generate_default_plan (hours : list Timestamp) : list Row :=
  _calculate_soc_trajectory (map default_row hours) None.

(** [cop.merge(price_forecast, left_index=True, right_index=True,
    how='left')]: every row of the left frame once per matching row of the
    forecast, or once with a [NaN] price when nothing matches. *)
Definition merge_hour (pf : PriceFrame) (h : Timestamp)
  : list (Timestamp * option Q) :=
  match filter (fun kp => (fst kp =? h)%Z) (price_rows pf) with
  | [] => [(h, None)]
  | ms => map (fun kp => (h, if has_price pf then snd kp else None)) ms
  end.

Definition merge_left (hours : list Timestamp) (pf : PriceFrame)
  : list (Timestamp * option Q) :=
  flat_map (merge_hour pf) hours.

Definition count_label {A : Type} (h : Timestamp) (l : list (Timestamp * A)) : nat :=
  List.length (filter (fun kp => (fst kp =? h)%Z) l).

(** The row [_optimize_for_prices] leaves for a merged row.  A [NaN] price
    fails every comparison and falls to the last branch.  [soc_begin],
    [soc_min] and [soc_max] do not exist yet: [_calculate_soc_trajectory]
    assigns them on every row. *)
Definition priced_row (has : bool) (hp : Timestamp * option Q) : Row :=
  let '(hour, cell) := hp in
  let '(m, t) :=
    match (if has then cell else Some 50) with
    | Some price =>
        if price >? 80 then (discharge, hsl bess)
        else if price <? 25 then (charge, lsl bess)
        else if price >? 50 then (discharge, hsl bess *! 0.5)
        else (hold, 0)
    | None => (hold, 0)
    end in
  {| hour_ending := hour; row_resource_name := resource_name bess;
     status := ON; row_hsl := hsl bess; row_lsl := lsl bess;
     soc_begin := 0; price := cell;
     mode := m; target_mw := t; soc_min := 0; soc_max := 0 |}.

(** [cop.loc[hour, 'price']] is a Series when the label [hour] is repeated
    in the merged frame, and comparing it in an [if] raises. *)
Definition _optimize_for_prices (hours : list Timestamp) (pf : PriceFrame)
  : result (list Row) :=
  let merged := merge_left hours pf in
  if has_price pf &&
     existsb (fun hp => (1 <? count_label (fst hp) merged)%nat) merged
  then Raise ValueError
  else Ok (_calculate_soc_trajectory (map (priced_row (has_price pf)) merged) None).

(** Maximum possible change in one hour, as [_ensure_soc_feasibility]
    computes it from the profile. *)
Definition max_discharge (current_soc : Q) : Q :=
  py_min (hsl bess) (current_soc -! min_soc bess).
Definition max_charge (current_soc : Q) : Q :=
  py_min (Qabs (lsl bess) *! efficiency bess) (max_soc bess -! current_soc).

(** The loop of [_ensure_soc_feasibility]: [cur] is row [i] as the previous
    iteration left it, the head of [rest] is row [i+1]. *)
Fixpoint feasibility_loop (cur : Row) (rest : list Row) : list Row :=
  match rest with
  | [] => [cur]
  | nxt :: rest' =>
      let current_soc := soc_begin cur in
      let next_soc := soc_begin nxt in
      let soc_change := next_soc -! current_soc in
      if soc_change >? max_charge current_soc then
        set_target_mw (lsl bess) cur
          :: feasibility_loop (set_soc_begin (current_soc +! max_charge current_soc) nxt) rest'
      else if soc_change <? - max_discharge current_soc then
        set_target_mw (hsl bess) cur
          :: feasibility_loop (set_soc_begin (current_soc -! max_discharge current_soc) nxt) rest'
      else cur :: feasibility_loop nxt rest'
  end.

Definition clip_soc (r : Row) : Row :=
  set_soc_begin (clip (min_soc bess) (max_soc bess) (soc_begin r)) r.

Definition _ensure_soc_feasibility (cop : list Row) : list Row :=
  let cop :=
    match cop with
    | [] => []
    | r0 :: rest => feasibility_loop r0 rest
    end in
  map clip_soc cop.

(** [label in frame.index]. *)
Definition in_index (hour : Timestamp) (cop : list Row) : bool :=
  existsb (fun r => (hour_ending r =? hour)%Z) cop.

(** [as_commitments.loc[hour, col] if col in as_commitments.columns else 0],
    as the scalar the comparison [... > 0] needs: when the label is
    repeated the lookup is a Series and the comparison raises. *)
Definition as_cell (asf : ASFrame) (has : bool) (col : ASRow -> Q)
  (hour : Timestamp) : result Q :=
  if has then
    match filter (fun kp => (fst kp =? hour)%Z) (as_rows asf) with
    | [kp] => Ok (col (snd kp))
    | _ => Raise ValueError
    end
  else Ok 0.

(** [cop.loc[hour, 'soc_min']] as an argument of [max]: a Series when the
    label is repeated in [cop], and [max] raises on it. *)
Definition cop_soc_min (cop : list Row) (hour : Timestamp) : result Q :=
  match filter (fun r => (hour_ending r =? hour)%Z) cop with
  | [r] => Ok (soc_min r)
  | _ => Raise ValueError
  end.

(** [cop.loc[hour, col] = v]: every row with that label. *)
Definition update_label (hour : Timestamp) (f : Row -> Row) (cop : list Row)
  : list Row :=
  map (fun r => if (hour_ending r =? hour)%Z then f r else r) cop.

(** The body of the loop of [_apply_as_commitments] for one label of
    [as_commitments.index]. *)
Definition apply_as_hour (asf : ASFrame) (cop : list Row) (hour : Timestamp)
  : result (list Row) :=
  if in_index hour cop then
    reg_mw <- as_cell asf (has_regulation asf) regulation hour ;;
    if reg_mw >? 0 then
      Ok (update_label hour (set_target_mw 0)
            (update_label hour (set_status ONREG) cop))
    else
      rrs_mw <- as_cell asf (has_rrs asf) rrs hour ;;
      if rrs_mw >? 0 then
        let cop := update_label hour (set_status ONRR) cop in
        m <- cop_soc_min cop hour ;;
        Ok (update_label hour (set_soc_min (py_max m rrs_mw)) cop)
      else
        ecrs_mw <- as_cell asf (has_ecrs asf) ecrs hour ;;
        if ecrs_mw >? 0 then
          let cop := update_label hour (set_status ONECRS) cop in
          m <- cop_soc_min cop hour ;;
          Ok (update_label hour (set_soc_min (py_max m (ecrs_mw *! 2))) cop)
        else Ok cop
  else Ok cop.

Fixpoint apply_as_loop (asf : ASFrame) (hours : list Timestamp) (cop : list Row)
  : result (list Row) :=
  match hours with
  | [] => Ok cop
  | hour :: hours' =>
      cop <- apply_as_hour asf cop hour ;;
      apply_as_loop asf hours' cop
  end.

Definition _apply_as_commitments (cop : list Row) (as_commitments : ASFrame)
  : result (list Row) :=
  apply_as_loop as_commitments (map fst (as_rows as_commitments)) cop.

Definition add_cop_fields_row (r : Row) : CopRow :=
  {| base := r;
     normal_ramp_up := ramp_rate_up bess;
     normal_ramp_down := ramp_rate_down bess;
     emergency_ramp_up := ramp_rate_up bess *! 1.5;
     emergency_ramp_down := ramp_rate_down bess *! 1.5;
     hel := row_hsl r;
     lel := row_lsl r;
     row_aux_load := aux_load bess;
     resource_type := "ESR";
     fuel_type := "BATTERY" |}.

Definition _add_cop_fields (cop : list Row) : list CopRow :=
  map add_cop_fields_row cop.

(** [generate_cop(start_date, days, price_forecast, as_commitments)].
    [days] is a count; [None] is the default of the two optional frames. *)
Definition generate_cop (start_date : Timestamp) (days : nat)
  (price_forecast : option PriceFrame) (as_commitments : option ASFrame)
  : result (list CopRow) :=
  let hours := date_range start_date (days * 24) in
  cop <- match price_forecast with
         | Some pf => _optimize_for_prices hours pf
         | None => Ok (_generate_default_plan hours)
         end ;;
  cop <- match as_commitments with
         | Some asf => _apply_as_commitments cop asf
         | None => Ok cop
         end ;;
  let cop := _ensure_soc_feasibility cop in
  let cop := _add_cop_fields cop in
  Ok cop.

End Generator.

(** ** COPValidator *)

Inductive Severity : Type := ERROR | WARNING.

Inductive FindingType : Type :=
| SOC_INFEASIBLE_CHARGE | SOC_INFEASIBLE_DISCHARGE
| SOC_BELOW_MIN | SOC_ABOVE_MAX
| SOC_MIN_INCONSISTENT | SOC_MAX_INCONSISTENT
| RAMP_RATE_EXCEEDED
| INSUFFICIENT_SOC_FOR_RRS | INSUFFICIENT_SOC_FOR_ECRS
| MISSING_FIELDS | NULL_VALUES
| INSUFFICIENT_HORIZON.

(** The ['hour'] entry of a finding: a position of [range(len(cop) - 1)],
    or the index label that [cop.iterrows()] yields. *)
Inductive HourRef : Type :=
| Position (i : nat)
| Label (t : Timestamp).

(** A finding, without its formatted ['message']. *)
Record Finding : Type := {
  f_hour : option HourRef;
  f_type : FindingType;
  f_severity : Severity
}.

Record COPValidator : Type := {
  v_bess : BESSParameters;
  validation_errors : list Finding;
  validation_warnings : list Finding
}.

(** [COPValidator(bess_params)]. *)
Definition COPValidator_init (bess_params : BESSParameters) : COPValidator :=
  {| v_bess := bess_params; validation_errors := []; validation_warnings := [] |}.

Definition append_errors (fs : list Finding) (self : COPValidator) : COPValidator :=
  {| v_bess := v_bess self;
     validation_errors := validation_errors self ++ fs;
     validation_warnings := validation_warnings self |}.

Definition append_warnings (fs : list Finding) (self : COPValidator) : COPValidator :=
  {| v_bess := v_bess self;
     validation_errors := validation_errors self;
     validation_warnings := validation_warnings self ++ fs |}.

(** The bounds [_validate_soc_feasibility] computes, from the columns of
    the current row. *)
Definition row_max_discharge (current : CopRow) : Q :=
  py_min (row_hsl (base current))
         (soc_begin (base current) -! soc_min (base current)).
Definition row_max_charge (eff : Q) (current : CopRow) : Q :=
  py_min (Qabs (row_lsl (base current)) *! eff)
         (soc_max (base current) -! soc_begin (base current)).

(** The findings of one iteration of [_validate_soc_feasibility]. *)
Definition soc_feasibility_pair (eff : Q) (i : nat) (current next_hour : CopRow)
  : list Finding :=
  let max_discharge := row_max_discharge current in
  let max_charge := row_max_charge eff current in
  let soc_change := soc_begin (base next_hour) -! soc_begin (base current) in
  if soc_change >? max_charge +! 0.01 then
    [{| f_hour := Some (Position i); f_type := SOC_INFEASIBLE_CHARGE;
        f_severity := ERROR |}]
  else if soc_change <? - (max_discharge +! 0.01) then
    [{| f_hour := Some (Position i); f_type := SOC_INFEASIBLE_DISCHARGE;
        f_severity := ERROR |}]
  else [].

(** The loop over [range(len(cop) - 1)], from position [i] on. *)
Fixpoint soc_feasibility_loop (eff : Q) (i : nat) (cop : list CopRow)
  : list Finding :=
  match cop with
  | current :: ((next_hour :: _) as rest) =>
      soc_feasibility_pair eff i current next_hour
        ++ soc_feasibility_loop eff (S i) rest
  | _ => []
  end.

Definition _validate_soc_feasibility (self : COPValidator) (cop : list CopRow)
  : COPValidator :=
  append_errors (soc_feasibility_loop (efficiency (v_bess self)) 0 cop) self.

Definition soc_bounds_errors (bess : BESSParameters) (row : CopRow) : list Finding :=
  let i := hour_ending (base row) in
  if soc_begin (base row) <? min_soc bess then
    [{| f_hour := Some (Label i); f_type := SOC_BELOW_MIN; f_severity := ERROR |}]
  else if soc_begin (base row) >? max_soc bess then
    [{| f_hour := Some (Label i); f_type := SOC_ABOVE_MAX; f_severity := ERROR |}]
  else [].

Definition soc_bounds_warnings (row : CopRow) : list Finding :=
  let i := hour_ending (base row) in
  (if soc_min (base row) >? soc_begin (base row) then
     [{| f_hour := Some (Label i); f_type := SOC_MIN_INCONSISTENT;
         f_severity := WARNING |}]
   else []) ++
  (if soc_max (base row) <? soc_begin (base row) then
     [{| f_hour := Some (Label i); f_type := SOC_MAX_INCONSISTENT;
         f_severity := WARNING |}]
   else []).

Definition _validate_soc_bounds (self : COPValidator) (cop : list CopRow)
  : COPValidator :=
  append_warnings (flat_map soc_bounds_warnings cop)
    (append_errors (flat_map (soc_bounds_errors (v_bess self)) cop) self).

(** One iteration of [_validate_ramp_rates]; the frame has a [target_mw]
    column. *)
Definition ramp_rate_pair (i : nat) (current next_hour : CopRow) : list Finding :=
  if negb (ResourceStatus_eqb (status (base current)) (status (base next_hour)))
  then []
  else
    let mw_change := Qabs (target_mw (base next_hour) -! target_mw (base current)) in
    let max_ramp := py_max (normal_ramp_up current) (normal_ramp_down current) *! 60 in
    if mw_change >? max_ramp *! 1.05 then
      [{| f_hour := Some (Position i); f_type := RAMP_RATE_EXCEEDED;
          f_severity := WARNING |}]
    else [].

Fixpoint ramp_rate_loop (i : nat) (cop : list CopRow) : list Finding :=
  match cop with
  | current :: ((next_hour :: _) as rest) =>
      ramp_rate_pair i current next_hour ++ ramp_rate_loop (S i) rest
  | _ => []
  end.

Definition _validate_ramp_rates (self : COPValidator) (cop : list CopRow)
  : COPValidator :=
  append_warnings (ramp_rate_loop 0 cop) self.

Definition as_requirements_row (row : CopRow) : list Finding :=
  let i := hour_ending (base row) in
  if ResourceStatus_eqb (status (base row)) ONRR then
    let required_soc := row_hsl (base row) *! 1.0 in
    if soc_begin (base row) <? required_soc then
      [{| f_hour := Some (Label i); f_type := INSUFFICIENT_SOC_FOR_RRS;
          f_severity := WARNING |}]
    else []
  else if ResourceStatus_eqb (status (base row)) ONECRS then
    let required_soc := row_hsl (base row) *! 2.0 in
    if soc_begin (base row) <? required_soc then
      [{| f_hour := Some (Label i); f_type := INSUFFICIENT_SOC_FOR_ECRS;
          f_severity := WARNING |}]
    else []
  else [].

Definition _validate_as_requirements (self : COPValidator) (cop : list CopRow)
  : COPValidator :=
  append_warnings (flat_map as_requirements_row cop) self.

Definition required_fields : list string :=
  ["hour_ending"; "resource_name"; "status";
   "hsl"; "lsl"; "soc_begin"; "soc_min"; "soc_max";
   "normal_ramp_up"; "normal_ramp_down"]%string.

(** [cop.columns] of a frame of [CopRow]s. *)
Definition cop_columns : list string :=
  ["hour_ending"; "resource_name"; "status"; "hsl"; "lsl"; "soc_begin";
   "price"; "mode"; "target_mw"; "soc_min"; "soc_max";
   "normal_ramp_up"; "normal_ramp_down"; "emergency_ramp_up";
   "emergency_ramp_down"; "hel"; "lel"; "aux_load"; "resource_type";
   "fuel_type"]%string.

Definition in_columns (f : string) : bool :=
  existsb (String.eqb f) cop_columns.

(** [cop[field].isnull().any()]: of the cells of a [CopRow] only [price]
    can be null. *)
Definition isnull_any (cop : list CopRow) (field : string) : bool :=
  if String.eqb field "price" then
    existsb (fun row => match price (base row) with None => true | Some _ => false end) cop
  else false.

Definition _validate_data_completeness (self : COPValidator) (cop : list CopRow)
  : COPValidator :=
  let missing_fields := filter (fun f => negb (in_columns f)) required_fields in
  let self :=
    match missing_fields with
    | [] => self
    | _ => append_errors [{| f_hour := None; f_type := MISSING_FIELDS;
                             f_severity := ERROR |}] self
    end in
  fold_left (fun self field =>
               if in_columns field && isnull_any cop field then
                 append_errors [{| f_hour := None; f_type := NULL_VALUES;
                                   f_severity := ERROR |}] self
               else self)
            required_fields self.

Definition _validate_timeline_requirements (self : COPValidator) (cop : list CopRow)
  : COPValidator :=
  if (List.length cop <? 168)%nat then
    append_warnings [{| f_hour := None; f_type := INSUFFICIENT_HORIZON;
                        f_severity := WARNING |}] self
  else self.

(** The dictionary [validate] returns, without its formatted ['summary']. *)
Record Report : Type := {
  valid : bool;
  errors : list Finding;
  warnings : list Finding;
  error_count : nat;
  warning_count : nat
}.

(** [validate(cop)]: the report, and the validator as the call leaves it. *)
Definition validate (self : COPValidator) (cop : list CopRow)
  : Report * COPValidator :=
  let self := {| v_bess := v_bess self;
                 validation_errors := []; validation_warnings := [] |} in
  let self := _validate_soc_feasibility self cop in
  let self := _validate_soc_bounds self cop in
  let self := _validate_ramp_rates self cop in
  let self := _validate_as_requirements self cop in
  let self := _validate_data_completeness self cop in
  let self := _validate_timeline_requirements self cop in
  ({| valid := (List.length (validation_errors self) =? 0)%nat;
      errors := validation_errors self;
      warnings := validation_warnings self;
      error_count := List.length (validation_errors self);
      warning_count := List.length (validation_warnings self) |},
   self).

(** ** The demonstration resource of the module's [__main__] block *)

Definition bess_west : BESSParameters :=
  {| resource_name := "BESS_WEST_100MW";
     capacity_mw := 100; capacity_mwh := 200; efficiency := 0.86;
     ramp_rate_up := 50; ramp_rate_down := 50;
     min_soc := 0; max_soc := 200; aux_load := 2 |}.


(** ** COPValidator: the summary line *)

Definition FindingType_eq_dec (a b : FindingType) : {a = b} + {a <> b}.
Proof. decide equality. Defined.

(** The text [_generate_validation_summary] returns: the PASSED line, or
    the FAILED line with the number of errors and the error types, each
    once.  The text lists the types in the order of a Python set, which the
    source does not fix; here it is the order of first occurrence. *)
Inductive ValidationSummary : Type :=
| SummaryPassed
| SummaryFailed (count : nat) (error_types : list FindingType).

Definition _generate_validation_summary (self : COPValidator) : ValidationSummary :=
  if (List.length (validation_errors self) =? 0)%nat then SummaryPassed
  else SummaryFailed (List.length (validation_errors self))
                     (nodup FindingType_eq_dec (map f_type (validation_errors self))).

(** ** COPSubmitter *)

(** The credentials dictionary: the keys the code reads, each present or
    not. *)
Record Credentials : Type := {
  qse_name : option string;
  api_key : option string;
  endpoint : option string
}.

(** One entry of ['cop_data'] in the payload; [hour_ending] is kept as the
    timestamp that [isoformat()] prints. *)
Record CopEntry : Type := {
  e_hour_ending : Timestamp;
  e_resource_name : string;
  e_resource_status : ResourceStatus;
  e_hsl : Q;
  e_lsl : Q;
  e_hel : Q;
  e_lel : Q;
  e_normal_ramp_rate_up : Q;
  e_normal_ramp_rate_down : Q;
  e_emergency_ramp_rate_up : Q;
  e_emergency_ramp_rate_down : Q;
  e_minimum_soc : Q;
  e_maximum_soc : Q;
  e_hour_beginning_planned_soc : Q
}.

(** The payload, without its ['submission_time']. *)
Record Payload : Type := {
  p_qse_name : string;
  p_cop_data : list CopEntry
}.

(** The entry of one row; the frame has the columns the [row.get] calls
    ask for, so no default is used. *)
Definition format_entry (row : CopRow) : CopEntry :=
  {| e_hour_ending := hour_ending (base row);
     e_resource_name := row_resource_name (base row);
     e_resource_status := status (base row);
     e_hsl := row_hsl (base row);
     e_lsl := row_lsl (base row);
     e_hel := hel row;
     e_lel := lel row;
     e_normal_ramp_rate_up := normal_ramp_up row;
     e_normal_ramp_rate_down := normal_ramp_down row;
     e_emergency_ramp_rate_up := emergency_ramp_up row;
     e_emergency_ramp_rate_down := emergency_ramp_down row;
     e_minimum_soc := soc_min (base row);
     e_maximum_soc := soc_max (base row);
     e_hour_beginning_planned_soc := soc_begin (base row) |}.

Definition _format_for_ercot (credentials : Credentials) (cop : list CopRow)
  : Payload :=
  {| p_qse_name := match qse_name credentials with
                   | Some q => q
                   | None => "TEST_QSE"
                   end;
     p_cop_data := map format_entry cop |}.

(** The ['status'] of a submission result, and its ['message'] without the
    status code or exception text that the failure message ends with. *)
Inductive SubmissionStatus : Type :=
| TEST_SUCCESS | SUCCESS | SUBMISSION_ERROR | NOT_SUBMITTED.

Inductive SubmissionMessage : Type :=
| ReadyTestMode          (* 'COP validated and ready for submission (test mode)' *)
| SubmittedSuccessfully  (* 'COP submitted successfully' *)
| SubmissionFailed       (* 'Submission failed: ...' *)
| AutoSubmitDisabled     (* 'Auto-submit disabled' *)
| ValidationFailed.      (* 'Validation failed' *)

(** A submission result, without its timestamp, ['cop_id'], payload size and
    the echoed response. *)
Record SubmissionResult : Type := {
  sub_status : SubmissionStatus;
  sub_message : SubmissionMessage
}.

(** What [requests.post] does with a request: it raises, or it returns a
    response with a status code whose body is, or is not, a JSON object. *)
Inductive HttpOutcome : Type :=
| RequestFailed
| Response (status_code : Z) (json_object : bool).

(** A request handed to [requests.post]. *)
Record Request : Type := {
  req_endpoint : string;
  req_api_key : string;
  req_payload : Payload
}.

(** [_send_to_ercot(payload)]: [posted] is the list of the requests handed
    to [requests.post] so far, [outcome] what the call does with this one.
    A missing credential raises [KeyError] inside the [try], before the
    request is made. *)
Definition _send_to_ercot (credentials : Credentials) (outcome : HttpOutcome)
  (posted : list Request) (payload : Payload)
  : SubmissionResult * list Request :=
  let failed := {| sub_status := SUBMISSION_ERROR; sub_message := SubmissionFailed |} in
  match api_key credentials with
  | None => (failed, posted)
  | Some key =>
      match endpoint credentials with
      | None => (failed, posted)
      | Some url =>
          let posted :=
            posted ++ [{| req_endpoint := url; req_api_key := key;
                          req_payload := payload |}] in
          match outcome with
          | RequestFailed => (failed, posted)
          | Response status_code json_object =>
              if (status_code =? 200)%Z then
                if json_object then
                  ({| sub_status := SUCCESS;
                      sub_message := SubmittedSuccessfully |}, posted)
                else (failed, posted)
              else (failed, posted)
          end
      end
  end.

(** An entry of [submission_history], without its timestamp. *)
Record HistoryEntry : Type := {
  h_result : SubmissionResult;
  h_hours : nat;
  h_start : Timestamp;
  h_end : Timestamp
}.

Record COPSubmitter : Type := {
  credentials : Credentials;
  submission_history : list HistoryEntry
}.

(** [COPSubmitter(credentials)]. *)
Definition COPSubmitter_init (creds : Credentials) : COPSubmitter :=
  {| credentials := creds; submission_history := [] |}.

(** The exceptions of the submitter and of the daily run: one that
    [generate_cop] raised, or the [IndexError] of [cop.iloc[0]] on a frame
    without rows. *)
Inductive run_exn : Type :=
| GeneratorError (e : exn)
| IndexError.

Inductive run_result (A : Type) : Type :=
| Returns (a : A)
| Raises (e : run_exn).
Arguments Returns {A} a.
Arguments Raises {A} e.

(** [cop.iloc[0]['hour_ending']] and [cop.iloc[-1]['hour_ending']]. *)
Definition first_last_hour (cop : list CopRow) : option (Timestamp * Timestamp) :=
  match cop with
  | [] => None
  | row :: rest => Some (hour_ending (base row), hour_ending (base (last rest row)))
  end.

(** [submit_cop(cop, test_mode)]: the result and the submitter as the call
    leaves it, or the exception; and the requests posted, which a raise
    does not undo. *)
Definition submit_cop (self : COPSubmitter) (outcome : HttpOutcome)
  (posted : list Request) (cop : list CopRow) (test_mode : bool)
  : run_result (SubmissionResult * COPSubmitter) * list Request :=
  let cop_payload := _format_for_ercot (credentials self) cop in
  let '(result, posted) :=
    if test_mode then
      ({| sub_status := TEST_SUCCESS; sub_message := ReadyTestMode |}, posted)
    else _send_to_ercot (credentials self) outcome posted cop_payload in
  match first_last_hour cop with
  | None => (Raises IndexError, posted)
  | Some (start, finish) =>
      (Returns (result,
                {| credentials := credentials self;
                   submission_history :=
                     submission_history self ++
                     [{| h_result := result; h_hours := List.length cop;
                         h_start := start; h_end := finish |}] |}),
       posted)
  end.

(** [check_submission_status(cop_id)] returns the same mock status for every
    identifier and is not modelled. *)

(** ** COPAutomationSystem *)

Record COPAutomationSystem : Type := {
  sys_bess : BESSParameters;
  sys_validator : COPValidator;
  sys_submitter : COPSubmitter
}.

(** [COPAutomationSystem(bess_params, credentials)]. *)
Definition COPAutomationSystem_init (bess_params : BESSParameters)
  (creds : Credentials) : COPAutomationSystem :=
  {| sys_bess := bess_params;
     sys_validator := COPValidator_init bess_params;
     sys_submitter := COPSubmitter_init creds |}.

(** One day, in microseconds. *)
Definition day_us : Z := (24 * hour_us)%Z.

(** [datetime.now().replace(hour=0, minute=0, second=0, microsecond=0)
    + timedelta(days=1)]. *)
Definition next_midnight (now : Timestamp) : Timestamp :=
  (now / day_us * day_us + day_us)%Z.

(** The dictionary [run_daily_cop] returns, without its
    ['generation_time']. *)
Record DailyResults : Type := {
  summary_hours : nat;
  summary_start_date : Timestamp;
  summary_end_date : Timestamp;
  validation : Report;
  submission : SubmissionResult;
  cop_data : option (list CopRow)
}.

(** [run_daily_cop(price_forecast, as_commitments, auto_submit)] at the
    instant [now]: the results and the system as the call leaves it, or the
    exception; and the requests posted. *)
Definition run_daily_cop (self : COPAutomationSystem) (now : Timestamp)
  (outcome : HttpOutcome) (posted : list Request)
  (price_forecast : option PriceFrame) (as_commitments : option ASFrame)
  (auto_submit : bool)
  : run_result (DailyResults * COPAutomationSystem) * list Request :=
  let start_date := next_midnight now in
  match generate_cop (sys_bess self) start_date 7 price_forecast as_commitments with
  | Raise e => (Raises (GeneratorError e), posted)
  | Ok cop =>
      let '(validation_results, validator) := validate (sys_validator self) cop in
      let '(submitted, posted) :=
        if valid validation_results then
          if auto_submit then
            submit_cop (sys_submitter self) outcome posted cop false
          else
            (Returns ({| sub_status := NOT_SUBMITTED;
                         sub_message := AutoSubmitDisabled |},
                      sys_submitter self), posted)
        else
          (Returns ({| sub_status := NOT_SUBMITTED;
                       sub_message := ValidationFailed |},
                    sys_submitter self), posted) in
      match submitted with
      | Raises e => (Raises e, posted)
      | Returns (submission_result, submitter) =>
          match first_last_hour cop with
          | None => (Raises IndexError, posted)
          | Some (start, finish) =>
              (Returns ({| summary_hours := List.length cop;
                           summary_start_date := start;
                           summary_end_date := finish;
                           validation := validation_results;
                           submission := submission_result;
                           cop_data := if valid validation_results
                                       then Some cop else None |},
                        {| sys_bess := sys_bess self;
                           sys_validator := validator;
                           sys_submitter := submitter |}),
               posted)
          end
      end
  end.

(** * The binary64 model

    The feasibility repair and the validator once more, in the arithmetic
    the source runs in.  The numeric cells of a frame are [float64], the
    fields of [BESSParameters] are Python floats: both are IEEE 754 binary64
    numbers, here the primitive [float], with round-to-nearest-even on
    every operation.  A decimal literal of the source is the binary64 number
    nearest to it, in Python and here alike.  A comparison with [NaN] is
    false; [NaN] is also the missing value that [isnull] looks for.

    The other columns, the findings, the report and the threading of the
    validator state are those of the exact model above. *)

Module Binary64.

Import PrimFloat.
Local Open Scope float_scope.

(** ** Numbers *)

(** [a < b], [a > b], [a <= b], [a >= b] on floats. *)
Definition float_lt (a b : float) : bool := a <? b.
Definition float_gt (a b : float) : bool := b <? a.
Definition float_le (a b : float) : bool := a <=? b.
Definition float_ge (a b : float) : bool := b <=? a.

(** [pd.isna(x)] of a float. *)
Definition isna (x : float) : bool := is_nan x.

(** Python's [min(a, b)] keeps [a] unless [b < a], [max(a, b)] keeps [a]
    unless [b > a]. *)
Definition py_min (a b : float) : float := if float_lt b a then b else a.
Definition py_max (a b : float) : float := if float_gt b a then b else a.

(** [Series.clip(lower, upper)] with two scalars, on one cell.  A [NaN]
    threshold is no threshold; two thresholds are put in order with [min]
    and [max]; a [NaN] cell is kept; any other cell is replaced by the lower
    threshold unless [cell >= lower], and by the upper one unless
    [cell <= upper]. *)
Definition clip (lower upper x : float) : float :=
  let lower := if isna lower then None else Some lower in
  let upper := if isna upper then None else Some upper in
  let '(lower, upper) :=
    match lower, upper with
    | Some l, Some u => (Some (py_min l u), Some (py_max l u))
    | _, _ => (lower, upper)
    end in
  if isna x then x
  else
    let result :=
      match lower with
      | Some lo => if float_ge x lo then x else lo
      | None => x
      end in
    match upper with
    | Some hi => if float_le x hi then result else hi
    | None => result
    end.

(** ** Data model *)

Record BESSParameters : Type := {
  resource_name : string;
  capacity_mw : float;
  capacity_mwh : float;
  efficiency : float;
  ramp_rate_up : float;
  ramp_rate_down : float;
  min_soc : float;
  max_soc : float;
  aux_load : float
}.

Definition hsl (self : BESSParameters) : float := capacity_mw self.
Definition lsl (self : BESSParameters) : float := - capacity_mw self.

(** A row of the frame the generator works on; [price] is [None] when the
    frame has no such column. *)
Record Row : Type := {
  hour_ending : Timestamp;
  row_resource_name : string;
  status : ResourceStatus;
  row_hsl : float;
  row_lsl : float;
  soc_begin : float;
  price : option float;
  mode : Mode;
  target_mw : float;
  soc_min : float;
  soc_max : float
}.

Definition set_soc_begin (v : float) (r : Row) : Row :=
  {| hour_ending := hour_ending r; row_resource_name := row_resource_name r;
     status := status r; row_hsl := row_hsl r; row_lsl := row_lsl r;
     soc_begin := v; price := price r; mode := mode r;
     target_mw := target_mw r; soc_min := soc_min r; soc_max := soc_max r |}.

Definition set_target_mw (v : float) (r : Row) : Row :=
  {| hour_ending := hour_ending r; row_resource_name := row_resource_name r;
     status := status r; row_hsl := row_hsl r; row_lsl := row_lsl r;
     soc_begin := soc_begin r; price := price r; mode := mode r;
     target_mw := v; soc_min := soc_min r; soc_max := soc_max r |}.

(** A row of the finished COP. *)
Record CopRow : Type := {
  base : Row;
  normal_ramp_up : float;
  normal_ramp_down : float;
  emergency_ramp_up : float;
  emergency_ramp_down : float;
  hel : float;
  lel : float;
  row_aux_load : float;
  resource_type : string;
  fuel_type : string
}.

(** ** COPGenerator._ensure_soc_feasibility *)

Section Generator.

Variable bess : BESSParameters.

Definition max_discharge (current_soc : float) : float :=
  py_min (hsl bess) (current_soc - min_soc bess).
Definition max_charge (current_soc : float) : float :=
  py_min (abs (lsl bess) * efficiency bess) (max_soc bess - current_soc).

(** The loop of [_ensure_soc_feasibility]: [cur] is row [i] as the previous
    iteration left it, the head of [rest] is row [i+1]. *)
Fixpoint feasibility_loop (cur : Row) (rest : list Row) : list Row :=
  match rest with
  | [] => [cur]
  | nxt :: rest' =>
      let current_soc := soc_begin cur in
      let next_soc := soc_begin nxt in
      let soc_change := next_soc - current_soc in
      if float_gt soc_change (max_charge current_soc) then
        set_target_mw (lsl bess) cur
          :: feasibility_loop (set_soc_begin (current_soc + max_charge current_soc) nxt) rest'
      else if float_lt soc_change (- max_discharge current_soc) then
        set_target_mw (hsl bess) cur
          :: feasibility_loop (set_soc_begin (current_soc - max_discharge current_soc) nxt) rest'
      else cur :: feasibility_loop nxt rest'
  end.

Definition clip_soc (r : Row) : Row :=
  set_soc_begin (clip (min_soc bess) (max_soc bess) (soc_begin r)) r.

Definition _ensure_soc_feasibility (cop : list Row) : list Row :=
  let cop :=
    match cop with
    | [] => []
    | r0 :: rest => feasibility_loop r0 rest
    end in
  map clip_soc cop.

End Generator.

(** ** COPValidator *)

Record COPValidator : Type := {
  v_bess : BESSParameters;
  validation_errors : list Finding;
  validation_warnings : list Finding
}.

(** [COPValidator(bess_params)]. *)
Definition COPValidator_init (bess_params : BESSParameters) : COPValidator :=
  {| v_bess := bess_params; validation_errors := []; validation_warnings := [] |}.

Definition append_errors (fs : list Finding) (self : COPValidator) : COPValidator :=
  {| v_bess := v_bess self;
     validation_errors := validation_errors self ++ fs;
     validation_warnings := validation_warnings self |}.

Definition append_warnings (fs : list Finding) (self : COPValidator) : COPValidator :=
  {| v_bess := v_bess self;
     validation_errors := validation_errors self;
     validation_warnings := validation_warnings self ++ fs |}.

(** The bounds [_validate_soc_feasibility] computes, from the columns of
    the current row. *)
Definition row_max_discharge (current : CopRow) : float :=
  py_min (row_hsl (base current))
         (soc_begin (base current) - soc_min (base current)).
Definition row_max_charge (eff : float) (current : CopRow) : float :=
  py_min (abs (row_lsl (base current)) * eff)
         (soc_max (base current) - soc_begin (base current)).

(** The findings of one iteration of [_validate_soc_feasibility]. *)
Definition soc_feasibility_pair (eff : float) (i : nat) (current next_hour : CopRow)
  : list Finding :=
  let max_discharge := row_max_discharge current in
  let max_charge := row_max_charge eff current in
  let soc_change := soc_begin (base next_hour) - soc_begin (base current) in
  if float_gt soc_change (max_charge + 0.01) then
    [{| f_hour := Some (Position i); f_type := SOC_INFEASIBLE_CHARGE;
        f_severity := ERROR |}]
  else if float_lt soc_change (- (max_discharge + 0.01)) then
    [{| f_hour := Some (Position i); f_type := SOC_INFEASIBLE_DISCHARGE;
        f_severity := ERROR |}]
  else [].

(** The loop over [range(len(cop) - 1)], from position [i] on. *)
Fixpoint soc_feasibility_loop (eff : float) (i : nat) (cop : list CopRow)
  : list Finding :=
  match cop with
  | current :: ((next_hour :: _) as rest) =>
      soc_feasibility_pair eff i current next_hour
        ++ soc_feasibility_loop eff (S i) rest
  | _ => []
  end.

Definition _validate_soc_feasibility (self : COPValidator) (cop : list CopRow)
  : COPValidator :=
  append_errors (soc_feasibility_loop (efficiency (v_bess self)) 0 cop) self.

Definition soc_bounds_errors (bess : BESSParameters) (row : CopRow) : list Finding :=
  let i := hour_ending (base row) in
  if float_lt (soc_begin (base row)) (min_soc bess) then
    [{| f_hour := Some (Label i); f_type := SOC_BELOW_MIN; f_severity := ERROR |}]
  else if float_gt (soc_begin (base row)) (max_soc bess) then
    [{| f_hour := Some (Label i); f_type := SOC_ABOVE_MAX; f_severity := ERROR |}]
  else [].

Definition soc_bounds_warnings (row : CopRow) : list Finding :=
  let i := hour_ending (base row) in
  (if float_gt (soc_min (base row)) (soc_begin (base row)) then
     [{| f_hour := Some (Label i); f_type := SOC_MIN_INCONSISTENT;
         f_severity := WARNING |}]
   else []) ++
  (if float_lt (soc_max (base row)) (soc_begin (base row)) then
     [{| f_hour := Some (Label i); f_type := SOC_MAX_INCONSISTENT;
         f_severity := WARNING |}]
   else []).

(** [iterrows] visits the rows in order; each appends its errors, then its
    warnings, to the two lists. *)
Definition _validate_soc_bounds (self : COPValidator) (cop : list CopRow)
  : COPValidator :=
  append_warnings (flat_map soc_bounds_warnings cop)
    (append_errors (flat_map (soc_bounds_errors (v_bess self)) cop) self).

(** One iteration of [_validate_ramp_rates]; the frame has a [target_mw]
    column. *)
Definition ramp_rate_pair (i : nat) (current next_hour : CopRow) : list Finding :=
  if negb (ResourceStatus_eqb (status (base current)) (status (base next_hour)))
  then []
  else
    let mw_change := abs (target_mw (base next_hour) - target_mw (base current)) in
    let max_ramp := py_max (normal_ramp_up current) (normal_ramp_down current) * 60 in
    if float_gt mw_change (max_ramp * 1.05) then
      [{| f_hour := Some (Position i); f_type := RAMP_RATE_EXCEEDED;
          f_severity := WARNING |}]
    else [].

Fixpoint ramp_rate_loop (i : nat) (cop : list CopRow) : list Finding :=
  match cop with
  | current :: ((next_hour :: _) as rest) =>
      ramp_rate_pair i current next_hour ++ ramp_rate_loop (S i) rest
  | _ => []
  end.

Definition _validate_ramp_rates (self : COPValidator) (cop : list CopRow)
  : COPValidator :=
  append_warnings (ramp_rate_loop 0 cop) self.

Definition as_requirements_row (row : CopRow) : list Finding :=
  let i := hour_ending (base row) in
  if ResourceStatus_eqb (status (base row)) ONRR then
    let required_soc := row_hsl (base row) * 1.0 in
    if float_lt (soc_begin (base row)) required_soc then
      [{| f_hour := Some (Label i); f_type := INSUFFICIENT_SOC_FOR_RRS;
          f_severity := WARNING |}]
    else []
  else if ResourceStatus_eqb (status (base row)) ONECRS then
    let required_soc := row_hsl (base row) * 2.0 in
    if float_lt (soc_begin (base row)) required_soc then
      [{| f_hour := Some (Label i); f_type := INSUFFICIENT_SOC_FOR_ECRS;
          f_severity := WARNING |}]
    else []
  else [].

Definition _validate_as_requirements (self : COPValidator) (cop : list CopRow)
  : COPValidator :=
  append_warnings (flat_map as_requirements_row cop) self.

(** [cop[field].isnull().any()]: a frame of [CopRow]s has every required
    column; the label, the name and the status of a row are never null, a
    numeric cell is null when it is [NaN]. *)
Definition isnull_any (cop : list CopRow) (field : string) : bool :=
  let any (col : CopRow -> float) := existsb (fun row => isna (col row)) cop in
  if String.eqb field "hsl" then any (fun row => row_hsl (base row))
  else if String.eqb field "lsl" then any (fun row => row_lsl (base row))
  else if String.eqb field "soc_begin" then any (fun row => soc_begin (base row))
  else if String.eqb field "soc_min" then any (fun row => soc_min (base row))
  else if String.eqb field "soc_max" then any (fun row => soc_max (base row))
  else if String.eqb field "normal_ramp_up" then any normal_ramp_up
  else if String.eqb field "normal_ramp_down" then any normal_ramp_down
  else false.

Definition _validate_data_completeness (self : COPValidator) (cop : list CopRow)
  : COPValidator :=
  let missing_fields := filter (fun f => negb (in_columns f)) required_fields in
  let self :=
    match missing_fields with
    | [] => self
    | _ => append_errors [{| f_hour := None; f_type := MISSING_FIELDS;
                             f_severity := ERROR |}] self
    end in
  fold_left (fun self field =>
               if in_columns field && isnull_any cop field then
                 append_errors [{| f_hour := None; f_type := NULL_VALUES;
                                   f_severity := ERROR |}] self
               else self)
            required_fields self.

Definition _validate_timeline_requirements (self : COPValidator) (cop : list CopRow)
  : COPValidator :=
  if (List.length cop <? 168)%nat then
    append_warnings [{| f_hour := None; f_type := INSUFFICIENT_HORIZON;
                        f_severity := WARNING |}] self
  else self.

(** [validate(cop)]: the report, and the validator as the call leaves it. *)
Definition validate (self : COPValidator) (cop : list CopRow)
  : Report * COPValidator :=
  let self := {| v_bess := v_bess self;
                 validation_errors := []; validation_warnings := [] |} in
  let self := _validate_soc_feasibility self cop in
  let self := _validate_soc_bounds self cop in
  let self := _validate_ramp_rates self cop in
  let self := _validate_as_requirements self cop in
  let self := _validate_data_completeness self cop in
  let self := _validate_timeline_requirements self cop in
  ({| valid := (List.length (validation_errors self) =? 0)%nat;
      errors := validation_errors self;
      warnings := validation_warnings self;
      error_count := List.length (validation_errors self);
      warning_count := List.length (validation_warnings self) |},
   self).

End Binary64.

(** * Vocabulary of the properties *)

(** Row [r'] has the columns of row [r], [soc_begin] and [target_mw]
    apart. *)
Definition same_frame (r r' : Row) : Prop :=
  hour_ending r' = hour_ending r /\
  row_resource_name r' = row_resource_name r /\
  status r' = status r /\
  row_hsl r' = row_hsl r /\
  row_lsl r' = row_lsl r /\
  price r' = price r /\
  mode r' = mode r /\
  soc_min r' = soc_min r /\
  soc_max r' = soc_max r.

(** Adjacent rows of a frame, compared through [soc_begin]. *)
Fixpoint chain (P : Q -> Q -> Prop) (cop : list Row) : Prop :=
  match cop with
  | a :: ((b :: _) as rest) => P (soc_begin a) (soc_begin b) /\ chain P rest
  | _ => True
  end.

(** Neither branch of the loop of [_ensure_soc_feasibility] fires on the
    transition from [a] to [b]. *)
Definition feasible_pair (bess : BESSParameters) (a b : Q) : Prop :=
  (b -! a >? max_charge bess a) = false /\
  (b -! a <? - max_discharge bess a) = false.

(** What one iteration of the loop leaves between two adjacent rows. *)
Definition repaired_pair (bess : BESSParameters) (a b : Q) : Prop :=
  feasible_pair bess a b \/
  b = a +! max_charge bess a \/
  b = a -! max_discharge bess a.

(** [soc_begin] of the row is within the SOC limits of the profile. *)
Definition in_bounds (bess : BESSParameters) (r : Row) : Prop :=
  min_soc bess <= soc_begin r /\ soc_begin r <= max_soc bess.

(** A frame the repair has nothing to do on. *)
Definition feasible (bess : BESSParameters) (cop : list Row) : Prop :=
  chain (feasible_pair bess) cop /\ Forall (in_bounds bess) cop.

(** The severity of a finding is ERROR. *)
Definition is_error (f : Finding) : bool :=
  match f_severity f with ERROR => true | WARNING => false end.

(** The six finding types the validator reports as warnings. *)
Definition warning_type (t : FindingType) : bool :=
  match t with
  | RAMP_RATE_EXCEEDED | INSUFFICIENT_SOC_FOR_RRS | INSUFFICIENT_SOC_FOR_ECRS
  | SOC_MIN_INCONSISTENT | SOC_MAX_INCONSISTENT | INSUFFICIENT_HORIZON => true
  | _ => false
  end.

(** A finding as the checks append them to [validation_errors], and one as
    they append them to [validation_warnings]. *)
Definition error_finding (f : Finding) : Prop :=
  f_severity f = ERROR /\ warning_type (f_type f) = false.

Definition warning_finding (f : Finding) : Prop :=
  f_severity f = WARNING /\ warning_type (f_type f) = true.

(** Every entry of the two lists of the validator is of the list's kind. *)
Definition sorted_findings (self : COPValidator) : Prop :=
  Forall error_finding (validation_errors self) /\
  Forall warning_finding (validation_warnings self).

(** All the findings of a report. *)
Definition findings (r : Report) : list Finding := errors r ++ warnings r.

(** The second of two successive calls reports the findings of the first
    call, which has some, followed by its own. *)
Definition accumulates (self : COPValidator) (cop1 cop2 : list CopRow) : Prop :=
  let r1 := fst (validate self cop1) in
  let r2 := fst (validate (snd (validate self cop1)) cop2) in
  let own := fst (validate (COPValidator_init (v_bess self)) cop2) in
  findings r1 <> [] /\
  errors r2 = errors r1 ++ errors own /\
  warnings r2 = warnings r1 ++ warnings own.

(** The two findings of [_validate_soc_feasibility] for position [i]. *)
Definition charge_finding (i : nat) : Finding :=
  {| f_hour := Some (Position i); f_type := SOC_INFEASIBLE_CHARGE;
     f_severity := ERROR |}.

Definition discharge_finding (i : nat) : Finding :=
  {| f_hour := Some (Position i); f_type := SOC_INFEASIBLE_DISCHARGE;
     f_severity := ERROR |}.

(** The stored transition from [current] to [next_hour] exceeds the charge
    bound [mc], or the discharge bound [md], by more than 0.01. *)
Definition exceeds_charge (mc : Q) (current next_hour : CopRow) : Prop :=
  mc +! 0.01 < soc_begin (base next_hour) -! soc_begin (base current).

Definition exceeds_discharge (md : Q) (current next_hour : CopRow) : Prop :=
  soc_begin (base next_hour) -! soc_begin (base current) < - (md +! 0.01).

(** The committed MW of a product: the cell of its column, 0 when the frame
    has no such column. *)
Definition reg_mw_of (asf : ASFrame) (a : ASRow) : Q :=
  if has_regulation asf then regulation a else 0.
Definition rrs_mw_of (asf : ASFrame) (a : ASRow) : Q :=
  if has_rrs asf then rrs a else 0.
Definition ecrs_mw_of (asf : ASFrame) (a : ASRow) : Q :=
  if has_ecrs asf then ecrs a else 0.

(** What the loop body does to the one row of [cop] that carries the label
    of the commitment [a]. *)
Definition overlay (asf : ASFrame) (a : ASRow) (r : Row) : Row :=
  if reg_mw_of asf a >? 0 then set_target_mw 0 (set_status ONREG r)
  else if rrs_mw_of asf a >? 0 then
    set_soc_min (py_max (soc_min r) (rrs_mw_of asf a)) (set_status ONRR r)
  else if ecrs_mw_of asf a >? 0 then
    set_soc_min (py_max (soc_min r) (ecrs_mw_of asf a *! 2)) (set_status ONECRS r)
  else r.

(** The commitment of row [r], if its label is in [entries]. *)
Definition commitment_of (entries : list (Timestamp * ASRow)) (r : Row)
  : option ASRow :=
  match find (fun kp => (fst kp =? hour_ending r)%Z) entries with
  | Some kp => Some (snd kp)
  | None => None
  end.

(** A row overlaid by its own commitment, or left as it is when it has
    none. *)
Definition overlay_row (asf : ASFrame) (entries : list (Timestamp * ASRow))
  (r : Row) : Row :=
  match commitment_of entries r with
  | Some a => overlay asf a r
  | None => r
  end.

(** Row [r'] has the columns of row [r] that the overlay never writes:
    all but [status], [target_mw] and [soc_min]. *)
Definition overlay_keeps (r r' : Row) : Prop :=
  hour_ending r' = hour_ending r /\
  row_resource_name r' = row_resource_name r /\
  row_hsl r' = row_hsl r /\
  row_lsl r' = row_lsl r /\
  soc_begin r' = soc_begin r /\
  price r' = price r /\
  mode r' = mode r /\
  soc_max r' = soc_max r.

(** The effect the overlay has on a row [r] that the commitment [a] is keyed
    to, column by column: [r'] is the row after the overlay. *)
Definition overlaid (asf : ASFrame) (a : ASRow) (r r' : Row) : Prop :=
  overlay_keeps r r' /\
  (0 < reg_mw_of asf a ->
     status r' = ONREG /\ target_mw r' = 0 /\ soc_min r' = soc_min r) /\
  (reg_mw_of asf a <= 0 -> 0 < rrs_mw_of asf a ->
     status r' = ONRR /\
     soc_min r' = py_max (soc_min r) (rrs_mw_of asf a) /\
     target_mw r' = target_mw r) /\
  (reg_mw_of asf a <= 0 -> rrs_mw_of asf a <= 0 -> 0 < ecrs_mw_of asf a ->
     status r' = ONECRS /\
     soc_min r' = py_max (soc_min r) (ecrs_mw_of asf a *! 2) /\
     target_mw r' = target_mw r) /\
  (reg_mw_of asf a <= 0 -> rrs_mw_of asf a <= 0 -> ecrs_mw_of asf a <= 0 ->
     status r' = status r /\ target_mw r' = target_mw r /\
     soc_min r' = soc_min r).

(** Row [r'] is row [r], column by column. *)
Definition same_row (r r' : Row) : Prop :=
  overlay_keeps r r' /\
  status r' = status r /\ target_mw r' = target_mw r /\ soc_min r' = soc_min r.

(** The base plan of [generate_cop], before overlay and repair. *)
Definition base_plan (bess : BESSParameters) (start_date : Timestamp) (days : nat)
  (price_forecast : option PriceFrame) : result (list Row) :=
  match price_forecast with
  | Some pf => _optimize_for_prices bess (date_range start_date (days * 24)) pf
  | None => Ok (_generate_default_plan bess (date_range start_date (days * 24)))
  end.

(** No index label is repeated in the optional frame. *)
Definition unique_price_labels (price_forecast : option PriceFrame) : Prop :=
  match price_forecast with
  | Some pf => NoDup (map fst (price_rows pf))
  | None => True
  end.

Definition unique_as_labels (as_commitments : option ASFrame) : Prop :=
  match as_commitments with
  | Some asf => NoDup (map fst (as_rows asf))
  | None => True
  end.

(** [generate_cop] with the repair run before the overlay. *)
Definition generate_cop_repair_first (bess : BESSParameters)
  (start_date : Timestamp) (days : nat)
  (price_forecast : option PriceFrame) (asf : ASFrame)
  : result (list CopRow) :=
  cop <- base_plan bess start_date days price_forecast ;;
  cop <- _apply_as_commitments (_ensure_soc_feasibility bess cop) asf ;;
  Ok (_add_cop_fields bess cop).

(** A row with its [target_mw] blanked, to compare frames on every other
    column. *)
Definition without_target (r : Row) : Row := set_target_mw 0 r.

(** ** Frames and profiles of the examples *)

(** The profile of the boundary-repair example. *)
Definition bess_small : BESSParameters :=
  {| resource_name := "BESS_SMALL"; capacity_mw := 10; capacity_mwh := 20;
     efficiency := 1.0; ramp_rate_up := 1; ramp_rate_down := 1;
     min_soc := 0; max_soc := 20; aux_load := 0 |}.

(** A profile the code accepts although its capacity is negative. *)
Definition bess_negative_capacity : BESSParameters :=
  {| resource_name := "NEG"; capacity_mw := -10; capacity_mwh := 20;
     efficiency := 0.5; ramp_rate_up := 1; ramp_rate_down := 1;
     min_soc := 0; max_soc := 20; aux_load := 0 |}.

(** Two more profiles outside the data model: a negative efficiency, and
    SOC limits in the wrong order. *)
Definition bess_negative_efficiency : BESSParameters :=
  {| resource_name := "NEGEFF"; capacity_mw := 10; capacity_mwh := 20;
     efficiency := -0.5; ramp_rate_up := 1; ramp_rate_down := 1;
     min_soc := 0; max_soc := 20; aux_load := 0 |}.

Definition bess_inverted_limits : BESSParameters :=
  {| resource_name := "INV"; capacity_mw := 10; capacity_mwh := 20;
     efficiency := 1.0; ramp_rate_up := 1; ramp_rate_down := 1;
     min_soc := 20; max_soc := 0; aux_load := 0 |}.

(** A profile with no capacity and with its SOC limits inverted. *)
Definition bess_invalid : BESSParameters :=
  {| resource_name := "INVALID"; capacity_mw := 0; capacity_mwh := 0;
     efficiency := 0.86; ramp_rate_up := 1; ramp_rate_down := 1;
     min_soc := 50; max_soc := 10; aux_load := 0 |}.

(** A blank row with the given [soc_begin] and [target_mw]. *)
Definition soc_row (h : Timestamp) (soc target : Q) : Row :=
  {| hour_ending := h; row_resource_name := ""; status := ON;
     row_hsl := 0; row_lsl := 0; soc_begin := soc; price := None;
     mode := hold; target_mw := target; soc_min := 0; soc_max := 0 |}.

(** Three hours and commitments for the first two: regulation and RRS both
    committed in the first hour, RRS and ECRS in the second. *)
Definition overlay_example_cop : list Row :=
  [soc_row 0%Z 10 5; soc_row hour_us 10 5; soc_row (2 * hour_us)%Z 10 5].

Definition overlay_example_as : ASFrame :=
  {| has_regulation := true; has_rrs := true; has_ecrs := true;
     as_rows := [ (0%Z, {| regulation := 3; rrs := 4; ecrs := 0 |});
                  (hour_us, {| regulation := 0; rrs := 4; ecrs := 6 |}) ] |}.

(** A regulation commitment of 10 MW for the second hour of the plan. *)
Definition regulation_second_hour : ASFrame :=
  {| has_regulation := true; has_rrs := false; has_ecrs := false;
     as_rows := [ (hour_us, {| regulation := 10; rrs := 0; ecrs := 0 |}) ] |}.

(** ** Findings of the validator, by check *)

Definition below_min_finding (t : Timestamp) : Finding :=
  {| f_hour := Some (Label t); f_type := SOC_BELOW_MIN; f_severity := ERROR |}.

Definition above_max_finding (t : Timestamp) : Finding :=
  {| f_hour := Some (Label t); f_type := SOC_ABOVE_MAX; f_severity := ERROR |}.

Definition min_inconsistent_finding (t : Timestamp) : Finding :=
  {| f_hour := Some (Label t); f_type := SOC_MIN_INCONSISTENT;
     f_severity := WARNING |}.

Definition max_inconsistent_finding (t : Timestamp) : Finding :=
  {| f_hour := Some (Label t); f_type := SOC_MAX_INCONSISTENT;
     f_severity := WARNING |}.

Definition ramp_finding (i : nat) : Finding :=
  {| f_hour := Some (Position i); f_type := RAMP_RATE_EXCEEDED;
     f_severity := WARNING |}.

Definition rrs_finding (t : Timestamp) : Finding :=
  {| f_hour := Some (Label t); f_type := INSUFFICIENT_SOC_FOR_RRS;
     f_severity := WARNING |}.

Definition ecrs_finding (t : Timestamp) : Finding :=
  {| f_hour := Some (Label t); f_type := INSUFFICIENT_SOC_FOR_ECRS;
     f_severity := WARNING |}.

Definition horizon_finding : Finding :=
  {| f_hour := None; f_type := INSUFFICIENT_HORIZON; f_severity := WARNING |}.

(** [soc_begin] of the hour is within the SOC limits of the profile. *)
Definition within_limits (bess : BESSParameters) (row : CopRow) : Prop :=
  min_soc bess <= soc_begin (base row) /\ soc_begin (base row) <= max_soc bess.

(** The change of [target_mw] between two adjacent hours of the same status
    is more than 105 % of an hour of the faster of the two ramp rates of the
    first. *)
Definition ramp_exceeded (current next_hour : CopRow) : Prop :=
  status (base current) = status (base next_hour) /\
  py_max (normal_ramp_up current) (normal_ramp_down current) *! 60 *! 1.05
  < Qabs (target_mw (base next_hour) -! target_mw (base current)).

(** ** What the overlay and the repair may change in a row *)

(** Row [r'] is row [r] after commitments were overlaid: the reserve floor
    [soc_min] is not lower, [target_mw] is kept or set to 0, the status is
    kept or is one of the three ancillary-service statuses, and every other
    column is as it was. *)
Definition overlay_frame (r r' : Row) : Prop :=
  hour_ending r' = hour_ending r /\
  row_resource_name r' = row_resource_name r /\
  row_hsl r' = row_hsl r /\
  row_lsl r' = row_lsl r /\
  soc_begin r' = soc_begin r /\
  price r' = price r /\
  mode r' = mode r /\
  soc_max r' = soc_max r /\
  soc_min r <= soc_min r' /\
  (target_mw r' = target_mw r \/ target_mw r' = 0) /\
  (status r' = status r \/ status r' = ONREG \/ status r' = ONRR \/
   status r' = ONECRS).

(** Row [r'] is row [r] after the feasibility repair, as far as [target_mw]
    goes: kept, or forced to one of the two sustained limits. *)
Definition repair_target (bess : BESSParameters) (r r' : Row) : Prop :=
  target_mw r' = target_mw r \/ target_mw r' = lsl bess \/
  target_mw r' = hsl bess.

(** Some label of the commitments is repeated and is a label of the plan. *)
Definition repeated_label_in_plan (cop : list Row) (asf : ASFrame) : Prop :=
  exists hour,
    (2 <= count_label hour (as_rows asf))%nat /\ in_index hour cop = true.

(** The frame has at least one of the three product columns. *)
Definition has_product_column (asf : ASFrame) : bool :=
  has_regulation asf || has_rrs asf || has_ecrs asf.

(** ** The trajectory *)



(** Row [r'] has the columns of row [r], the three SOC columns apart. *)
Definition trajectory_frame (r r' : Row) : Prop :=
  hour_ending r' = hour_ending r /\
  row_resource_name r' = row_resource_name r /\
  status r' = status r /\
  row_hsl r' = row_hsl r /\
  row_lsl r' = row_lsl r /\
  price r' = price r /\
  mode r' = mode r /\
  target_mw r' = target_mw r.


(** ** Generated plans *)

(** The columns of a generated hour that come from the profile alone. *)
Definition profile_columns (bess : BESSParameters) (row : CopRow) : Prop :=
  row_resource_name (base row) = resource_name bess /\
  row_hsl (base row) = hsl bess /\
  row_lsl (base row) = lsl bess /\
  hel row = hsl bess /\
  lel row = lsl bess /\
  normal_ramp_up row = ramp_rate_up bess /\
  normal_ramp_down row = ramp_rate_down bess /\
  emergency_ramp_up row = ramp_rate_up bess *! 1.5 /\
  emergency_ramp_down row = ramp_rate_down bess *! 1.5 /\
  row_aux_load row = aux_load bess /\
  resource_type row = "ESR"%string /\
  fuel_type row = "BATTERY"%string.

(** A row of the base plan: status ON, the profile's name and limits. *)
Definition base_row_ok (bess : BESSParameters) (r : Row) : Prop :=
  row_resource_name r = resource_name bess /\
  row_hsl r = hsl bess /\ row_lsl r = lsl bess /\ status r = ON.

(** The statuses a generated hour can have. *)
Definition generated_status (s : ResourceStatus) : Prop :=
  s = ON \/ s = ONREG \/ s = ONRR \/ s = ONECRS.

(** The mode and target of the default plan at hour-of-day [h]; the
    branches of [_generate_default_plan]. *)
Definition scheduled (bess : BESSParameters) (h : Z) : Mode * Q :=
  if ((0 <=? h) && (h <? 6))%Z then (charge, lsl bess *! 0.8)
  else if ((6 <=? h) && (h <? 10))%Z then (hold, 0)
  else if ((14 <=? h) && (h <? 20))%Z then (discharge, hsl bess *! 0.9)
  else (hold, 0).

(** The mode and target of the price-optimised plan at a price; [None] is a
    missing price.  The branches of [_optimize_for_prices]. *)
Definition priced (bess : BESSParameters) (p : option Q) : Mode * Q :=
  match p with
  | Some price =>
      if price >? 80 then (discharge, hsl bess)
      else if price <? 25 then (charge, lsl bess)
      else if price >? 50 then (discharge, hsl bess *! 0.5)
      else (hold, 0)
  | None => (hold, 0)
  end.

(** The price the forecast holds for an hour: the cell of the row with that
    label, missing when there is no such row; 50 throughout when the frame
    has no [price] column. *)
Definition forecast_price (pf : PriceFrame) (hour : Timestamp) : option Q :=
  if has_price pf then
    match find (fun kp => (fst kp =? hour)%Z) (price_rows pf) with
    | Some kp => snd kp
    | None => None
    end
  else Some 50.

(** Some hour of the plan has two or more rows in the forecast. *)
Definition repeated_price_label (hours : list Timestamp) (pf : PriceFrame) : Prop :=
  exists hour, In hour hours /\ (2 <= count_label hour (price_rows pf))%nat.

(** ** Example data for the overlay, the price rule and the daily run *)

(** Commitments whose first label is repeated. *)
Definition repeated_as : ASFrame :=
  {| has_regulation := false; has_rrs := true; has_ecrs := false;
     as_rows := [ (0%Z, {| regulation := 0; rrs := 4; ecrs := 0 |});
                  (0%Z, {| regulation := 0; rrs := 6; ecrs := 0 |}) ] |}.

(** Commitments for an hour that is not in [overlay_example_cop]. *)
Definition foreign_as : ASFrame :=
  {| has_regulation := true; has_rrs := true; has_ecrs := true;
     as_rows := [ ((10 * hour_us)%Z,
                   {| regulation := 3; rrs := 4; ecrs := 5 |}) ] |}.

(** A forecast with a high and a low price, and one whose label is
    repeated. *)
Definition price_example : PriceFrame :=
  {| has_price := true;
     price_rows := [ (0%Z, Some 90); (hour_us, Some 10) ] |}.

Definition repeated_price : PriceFrame :=
  {| has_price := true;
     price_rows := [ (0%Z, Some 90); (0%Z, Some 10) ] |}.

Definition credentials_example : Credentials :=
  {| qse_name := Some "QSE_WEST"%string;
     api_key := Some "key"%string;
     endpoint := Some "https://api.ercot.example/cop"%string |}.

(** ** Vocabulary of the properties of the binary64 model *)

Module Binary64Vocabulary.

Import PrimFloat Binary64.
Local Open Scope float_scope.

(** Adjacent rows of a frame, compared through [soc_begin]. *)
Fixpoint chain (P : float -> float -> Prop) (cop : list Row) : Prop :=
  match cop with
  | a :: ((b :: _) as rest) => P (soc_begin a) (soc_begin b) /\ chain P rest
  | _ => True
  end.

(** The first test of the loop of [_ensure_soc_feasibility] fires on the
    transition from [a] to [b]; the second one does. *)
Definition charge_test (bess : BESSParameters) (a b : float) : bool :=
  float_gt (b - a) (max_charge bess a).
Definition discharge_test (bess : BESSParameters) (a b : float) : bool :=
  float_lt (b - a) (- max_discharge bess a).

(** Neither test fires on the transition from [a] to [b]. *)
Definition feasible_pair (bess : BESSParameters) (a b : float) : Prop :=
  charge_test bess a b = false /\ discharge_test bess a b = false.


(** [soc_begin] of the row is missing, or lies between the two SOC limits of
    the profile, the smaller first. *)
Definition in_bounds (bess : BESSParameters) (r : Row) : Prop :=
  isna (soc_begin r) = true \/
  (float_ge (soc_begin r) (py_min (min_soc bess) (max_soc bess)) = true /\
   float_le (soc_begin r) (py_max (min_soc bess) (max_soc bess)) = true).

(** A frame the repair has nothing to do on. *)
Definition feasible (bess : BESSParameters) (cop : list Row) : Prop :=
  chain (feasible_pair bess) cop /\ Forall (in_bounds bess) cop.

(** Row [r'] has the columns of row [r], [soc_begin] and [target_mw]
    apart. *)
Definition same_frame (r r' : Row) : Prop :=
  hour_ending r' = hour_ending r /\
  row_resource_name r' = row_resource_name r /\
  status r' = status r /\
  row_hsl r' = row_hsl r /\
  row_lsl r' = row_lsl r /\
  price r' = price r /\
  mode r' = mode r /\
  soc_min r' = soc_min r /\
  soc_max r' = soc_max r.

(** The stored transition from [current] to [next_hour] exceeds the charge
    bound [mc], or the discharge bound [md], by more than 0.01: the two
    tests of [_validate_soc_feasibility]. *)
Definition exceeds_charge (mc : float) (current next_hour : CopRow) : Prop :=
  float_gt (soc_begin (base next_hour) - soc_begin (base current)) (mc + 0.01)
  = true.

Definition exceeds_discharge (md : float) (current next_hour : CopRow) : Prop :=
  float_lt (soc_begin (base next_hour) - soc_begin (base current))
           (- (md + 0.01))
  = true.

(** Neither test of [_validate_soc_feasibility] fires on the stored
    transition between two adjacent hours. *)
Definition transition_ok (eff : float) (current next_hour : CopRow) : Prop :=
  ~ exceeds_charge (row_max_charge eff current) current next_hour /\
  ~ exceeds_discharge (row_max_discharge current) current next_hour.

(** [soc_begin] of the hour is neither below the profile's [min_soc] nor
    above its [max_soc]: the two tests of [_validate_soc_bounds]. *)
Definition within_limits (bess : BESSParameters) (row : CopRow) : Prop :=
  float_lt (soc_begin (base row)) (min_soc bess) = false /\
  float_gt (soc_begin (base row)) (max_soc bess) = false.

(** No numeric cell of a required column of the row is missing. *)
Definition complete (row : CopRow) : Prop :=
  isna (row_hsl (base row)) = false /\
  isna (row_lsl (base row)) = false /\
  isna (soc_begin (base row)) = false /\
  isna (soc_min (base row)) = false /\
  isna (soc_max (base row)) = false /\
  isna (normal_ramp_up row) = false /\
  isna (normal_ramp_down row) = false.

(** The two hours have the same status and the change of [target_mw]
    between them is more than [max(normal_ramp_up, normal_ramp_down) * 60 *
    1.05] of the first: the test of [_validate_ramp_rates]. *)
Definition ramp_exceeded (current next_hour : CopRow) : Prop :=
  status (base current) = status (base next_hour) /\
  float_gt (abs (target_mw (base next_hour) - target_mw (base current)))
           (py_max (normal_ramp_up current) (normal_ramp_down current)
            * 60 * 1.05)
  = true.

(** *** Frames and profiles of the examples *)


(** The profile of the boundary-repair example. *)
Definition bess_small : BESSParameters :=
  {| resource_name := "BESS_SMALL"; capacity_mw := 10; capacity_mwh := 20;
     efficiency := 1.0; ramp_rate_up := 1; ramp_rate_down := 1;
     min_soc := 0; max_soc := 20; aux_load := 0 |}.

(** A blank row with the given [soc_begin] and [target_mw]. *)
Definition soc_row (h : Timestamp) (soc target : float) : Row :=
  {| hour_ending := h; row_resource_name := ""; status := ON;
     row_hsl := 0; row_lsl := 0; soc_begin := soc; price := None;
     mode := hold; target_mw := target; soc_min := 0; soc_max := 0 |}.

(** The columns [_add_cop_fields] appends to a row, for a profile. *)
Definition cop_row (bess : BESSParameters) (r : Row) : CopRow :=
  {| base := r;
     normal_ramp_up := ramp_rate_up bess;
     normal_ramp_down := ramp_rate_down bess;
     emergency_ramp_up := ramp_rate_up bess * 1.5;
     emergency_ramp_down := ramp_rate_down bess * 1.5;
     hel := row_hsl r;
     lel := row_lsl r;
     row_aux_load := aux_load bess;
     resource_type := "ESR";
     fuel_type := "BATTERY" |}.



(** Two hours of a plan of [bess_small]: the first holds 10 MWh and reserves
    8 MWh ([soc_min = 8], as an RRS commitment of 8 MW leaves it), the
    second holds 5 MWh. *)
Definition reserved_plan : list CopRow :=
  map (cop_row bess_small)
    [ {| hour_ending := 0%Z; row_resource_name := "BESS_SMALL"; status := ONRR;
         row_hsl := 10; row_lsl := -10; soc_begin := 10; price := None;
         mode := discharge; target_mw := 5; soc_min := 8; soc_max := 20 |};
      {| hour_ending := hour_us; row_resource_name := "BESS_SMALL"; status := ON;
         row_hsl := 10; row_lsl := -10; soc_begin := 5; price := None;
         mode := hold; target_mw := 0; soc_min := 0; soc_max := 15 |} ].

(** Two hours at the tolerance of the feasibility check: the first holds
    nothing and has room for 2.3 MWh, the second holds 2.31 MWh. *)
Definition tolerance_plan : list CopRow :=
  map (cop_row bess_small)
    [ {| hour_ending := 0%Z; row_resource_name := "BESS_SMALL"; status := ON;
         row_hsl := 10; row_lsl := -10; soc_begin := 0; price := None;
         mode := charge; target_mw := -2.31; soc_min := 0; soc_max := 2.3 |};
      {| hour_ending := hour_us; row_resource_name := "BESS_SMALL"; status := ON;
         row_hsl := 10; row_lsl := -10; soc_begin := 2.31; price := None;
         mode := hold; target_mw := 0; soc_min := 0; soc_max := 12.31 |} ].

(** Two hours at the tolerance of the ramp check: ramp rates of 4.1 MW/min
    and a change of target of 258.3 MW. *)
Definition bess_ramp : BESSParameters :=
  {| resource_name := "RAMP"; capacity_mw := 300; capacity_mwh := 600;
     efficiency := 1; ramp_rate_up := 4.1; ramp_rate_down := 4.1;
     min_soc := 0; max_soc := 600; aux_load := 0 |}.

Definition ramp_plan : list CopRow :=
  map (cop_row bess_ramp) [soc_row 0%Z 300 0; soc_row hour_us 300 258.3].

End Binary64Vocabulary.

(** * Properties *)

(** ** Arithmetic of the model *)

Lemma Qltb_true (a b : Q) : (a <? b) = true <-> a < b.
Proof.
  unfold Qltb.
  destruct (Qcompare_spec a b) as [H|H|H]; split; intro H';
    try reflexivity; try discriminate; lra.
Qed.

Lemma Qltb_false (a b : Q) : (a <? b) = false <-> b <= a.
Proof.
  unfold Qltb.
  destruct (Qcompare_spec a b) as [H|H|H]; split; intro H';
    try reflexivity; try discriminate; lra.
Qed.

Lemma Qgtb_true (a b : Q) : (a >? b) = true <-> b < a.
Proof. apply Qltb_true. Qed.

Lemma Qgtb_false (a b : Q) : (a >? b) = false <-> a <= b.
Proof. apply Qltb_false. Qed.

Lemma fadd_eq (a b : Q) : a +! b == a + b.
Proof. apply Qred_correct. Qed.

Lemma fsub_eq (a b : Q) : a -! b == a - b.
Proof. apply Qred_correct. Qed.

Lemma fmul_eq (a b : Q) : a *! b == a * b.
Proof. apply Qred_correct. Qed.

(** Turn the boolean tests of the code into order facts. *)
Ltac q_tests :=
  repeat match goal with
  | H : (_ <? _) = true |- _ => apply Qltb_true in H
  | H : (_ <? _) = false |- _ => apply Qltb_false in H
  | H : (_ >? _) = true |- _ => apply Qgtb_true in H
  | H : (_ >? _) = false |- _ => apply Qgtb_false in H
  end.

(** Replace every result of [+!], [-!], [*!], [py_min], [py_max] by a
    variable together with the facts that determine it. *)
Ltac q_abstract :=
  repeat match goal with
  | |- context [fadd ?a ?b] =>
      let y := fresh "q" in
      pose proof (fadd_eq a b); set (y := fadd a b) in *; clearbody y
  | |- context [fsub ?a ?b] =>
      let y := fresh "q" in
      pose proof (fsub_eq a b); set (y := fsub a b) in *; clearbody y
  | |- context [fmul ?a ?b] =>
      let y := fresh "q" in
      pose proof (fmul_eq a b); set (y := fmul a b) in *; clearbody y
  | _ : context [fadd ?a ?b] |- _ =>
      let y := fresh "q" in
      pose proof (fadd_eq a b); set (y := fadd a b) in *; clearbody y
  | _ : context [fsub ?a ?b] |- _ =>
      let y := fresh "q" in
      pose proof (fsub_eq a b); set (y := fsub a b) in *; clearbody y
  | _ : context [fmul ?a ?b] |- _ =>
      let y := fresh "q" in
      pose proof (fmul_eq a b); set (y := fmul a b) in *; clearbody y
  end.

Ltac q_minmax :=
  unfold py_min, py_max in *;
  repeat match goal with
  | |- context [Qmin ?a ?b] =>
      let y := fresh "m" in
      destruct (Q.min_spec a b) as [[? ?]|[? ?]];
      set (y := Qmin a b) in *; clearbody y
  | _ : context [Qmin ?a ?b] |- _ =>
      let y := fresh "m" in
      destruct (Q.min_spec a b) as [[? ?]|[? ?]];
      set (y := Qmin a b) in *; clearbody y
  | |- context [Qmax ?a ?b] =>
      let y := fresh "m" in
      destruct (Q.max_spec a b) as [[? ?]|[? ?]];
      set (y := Qmax a b) in *; clearbody y
  | _ : context [Qmax ?a ?b] |- _ =>
      let y := fresh "m" in
      destruct (Q.max_spec a b) as [[? ?]|[? ?]];
      set (y := Qmax a b) in *; clearbody y
  end.

Ltac q_solve := q_tests; q_abstract; q_minmax; lra.

(** A cell inside the bounds is left as it is by [clip]. *)
Lemma clip_inside (lo hi x : Q) :
  lo <= x -> x <= hi -> clip lo hi x = x.
Proof.
  intros Hlo Hhi. unfold clip.
  destruct (x <? py_min lo hi) eqn:E1.
  - exfalso. q_solve.
  - destruct (x >? py_max lo hi) eqn:E2; [exfalso; q_solve | reflexivity].
Qed.

Lemma clip_bounds (lo hi x : Q) :
  lo <= hi -> lo <= clip lo hi x /\ clip lo hi x <= hi.
Proof.
  intros H. unfold clip.
  destruct (x <? py_min lo hi) eqn:E1; [q_solve|].
  destruct (x >? py_max lo hi) eqn:E2; q_solve.
Qed.

(** ** The feasibility repair keeps the frame (C10) *)

Lemma same_frame_refl (r : Row) : same_frame r r.
Proof. unfold same_frame; repeat split. Qed.

Lemma same_frame_soc (v : Q) (r r' : Row) :
  same_frame r r' -> same_frame r (set_soc_begin v r').
Proof. unfold same_frame; simpl; tauto. Qed.

Lemma same_frame_target (v : Q) (r r' : Row) :
  same_frame r r' -> same_frame r (set_target_mw v r').
Proof. unfold same_frame; simpl; tauto. Qed.

Lemma feasibility_loop_frame (bess : BESSParameters) (rest : list Row) :
  forall cur0 cur,
    same_frame cur0 cur ->
    Forall2 same_frame (cur0 :: rest) (feasibility_loop bess cur rest).
Proof.
  induction rest as [|nxt rest IH]; intros cur0 cur Hc; simpl.
  - constructor; [assumption | constructor].
  - destruct (_ >? _).
    + constructor; [apply same_frame_target; assumption|].
      apply IH, same_frame_soc, same_frame_refl.
    + destruct (_ <? _).
      * constructor; [apply same_frame_target; assumption|].
        apply IH, same_frame_soc, same_frame_refl.
      * constructor; [assumption|]. apply IH, same_frame_refl.
Qed.

Lemma feasibility_loop_head (bess : BESSParameters) (cur : Row) (rest : list Row) :
  exists r' tl,
    feasibility_loop bess cur rest = r' :: tl /\
    soc_begin r' = soc_begin cur.
Proof.
  destruct rest as [|nxt rest]; simpl.
  - eauto.
  - destruct (_ >? _); [eauto|]. destruct (_ <? _); eauto.
Qed.

Lemma Forall2_map_r {A B C : Type} (R : A -> C -> Prop) (S' : A -> B -> Prop)
  (f : B -> C) (l : list A) (l' : list B) :
  (forall a b, S' a b -> R a (f b)) ->
  Forall2 S' l l' -> Forall2 R l (map f l').
Proof.
  intros Hf H. induction H; simpl; constructor; auto.
Qed.

Lemma ensure_soc_feasibility_same_frame (bess : BESSParameters) (cop : list Row) :
  Forall2 same_frame cop (_ensure_soc_feasibility bess cop).
Proof.
  unfold _ensure_soc_feasibility. destruct cop as [|r0 rest]; [constructor|].
  apply Forall2_map_r with (S' := same_frame).
  - intros a b Hab. unfold clip_soc. apply same_frame_soc, Hab.
  - apply feasibility_loop_frame, same_frame_refl.
Qed.

(** C10.  [_ensure_soc_feasibility] returns the hours of its input, in the
    same number and order, with every column other than [soc_begin] and
    [target_mw] as it was; and [soc_begin] of the first hour is the clip of
    its former value into the profile's bounds. *)
Theorem ensure_soc_feasibility_frame (bess : BESSParameters) (cop : list Row) :
  Forall2 same_frame cop (_ensure_soc_feasibility bess cop) /\
  (forall r0 rest, cop = r0 :: rest ->
     exists r0' rest',
       _ensure_soc_feasibility bess cop = r0' :: rest' /\
       soc_begin r0' = clip (min_soc bess) (max_soc bess) (soc_begin r0)).
Proof.
  split.
  - apply ensure_soc_feasibility_same_frame.
  - intros r0 rest ->. unfold _ensure_soc_feasibility.
    destruct (feasibility_loop_head bess r0 rest) as (r' & tl & -> & Hs).
    simpl. eexists _, _. split; [reflexivity|].
    simpl. rewrite Hs. reflexivity.
Qed.

(** ** Boundary repair (C6) *)

(** C6.  For a profile with capacity 10 MW / 20 MWh, efficiency 1.0 and
    SOC limits 0 and 20, the repair of three hours whose [soc_begin] are 10,
    19 and 28 returns three hours whose [soc_begin] are 10, 19 and 20; it
    sets [target_mw] of the second hour to [lsl = -10], leaves [target_mw]
    of the first and of the third hour as they were, and changes no other
    column of any of the three. *)
Theorem boundary_repair (bess : BESSParameters) (r0 r1 r2 : Row) :
  capacity_mw bess = 10 ->
  capacity_mwh bess = 20 ->
  efficiency bess = 1.0 ->
  min_soc bess = 0 ->
  max_soc bess = 20 ->
  soc_begin r0 = 10 ->
  soc_begin r1 = 19 ->
  soc_begin r2 = 28 ->
  exists r0' r1' r2',
    _ensure_soc_feasibility bess [r0; r1; r2] = [r0'; r1'; r2'] /\
    soc_begin r0' = 10 /\ soc_begin r1' = 19 /\ soc_begin r2' = 20 /\
    target_mw r0' = target_mw r0 /\
    target_mw r1' = -10 /\ lsl bess = -10 /\
    target_mw r2' = target_mw r2 /\
    same_frame r0 r0' /\ same_frame r1 r1' /\ same_frame r2 r2'.
Proof.
  intros Hcap _ Heff Hmin Hmax H0 H1 H2.
  destruct bess as [name cap mwh eff ru rd lo hi aux].
  destruct r0 as [h0 n0 st0 hsl0 lsl0 soc0 p0 m0 t0 smin0 smax0].
  destruct r1 as [h1 n1 st1 hsl1 lsl1 soc1 p1 m1 t1 smin1 smax1].
  destruct r2 as [h2 n2 st2 hsl2 lsl2 soc2 p2 m2 t2 smin2 smax2].
  simpl in Hcap, Heff, Hmin, Hmax, H0, H1, H2. subst.
  eexists _, _, _. split; [reflexivity|].
  unfold same_frame. simpl. repeat split; reflexivity.
Qed.

Lemma boundary_repair_witness :
  exists r0' r1' r2',
    _ensure_soc_feasibility bess_small
      [soc_row 0%Z 10 3; soc_row hour_us 19 4; soc_row (2 * hour_us)%Z 28 5]
    = [r0'; r1'; r2'] /\
    soc_begin r0' = 10 /\ soc_begin r1' = 19 /\ soc_begin r2' = 20 /\
    target_mw r0' = target_mw (soc_row 0%Z 10 3) /\
    target_mw r1' = -10 /\ lsl bess_small = -10 /\
    target_mw r2' = target_mw (soc_row (2 * hour_us)%Z 28 5) /\
    same_frame (soc_row 0%Z 10 3) r0' /\
    same_frame (soc_row hour_us 19 4) r1' /\
    same_frame (soc_row (2 * hour_us)%Z 28 5) r2'.
Proof.
  apply (boundary_repair bess_small (soc_row 0%Z 10 3) (soc_row hour_us 19 4)
           (soc_row (2 * hour_us)%Z 28 5)); reflexivity.
Defined.

(** ** Idempotence of the feasibility repair, in exact arithmetic *)

Lemma set_soc_begin_same (r : Row) : set_soc_begin (soc_begin r) r = r.
Proof. destruct r; reflexivity. Qed.

Section Repair.

Variable bess : BESSParameters.

Lemma feasibility_loop_fixed (rest : list Row) :
  forall cur,
    chain (feasible_pair bess) (cur :: rest) ->
    feasibility_loop bess cur rest = cur :: rest.
Proof.
  induction rest as [|nxt rest IH]; intros cur H; [reflexivity|].
  destruct H as [[H1 H2] H]. simpl.
  rewrite H1, H2. f_equal. apply IH, H.
Qed.

Lemma feasibility_loop_chain (rest : list Row) :
  forall cur, chain (repaired_pair bess) (feasibility_loop bess cur rest).
Proof.
  induction rest as [|nxt rest IH]; intros cur; [exact I|].
  simpl.
  destruct (_ >? _) eqn:E1; [|destruct (_ <? _) eqn:E2].
  - specialize (IH (set_soc_begin (soc_begin cur +! max_charge bess (soc_begin cur)) nxt)).
    destruct (feasibility_loop_head bess
                (set_soc_begin (soc_begin cur +! max_charge bess (soc_begin cur)) nxt) rest)
      as (r' & tl & Heq & Hs).
    rewrite Heq in *. split; [|exact IH].
    simpl. rewrite Hs. simpl. right; left; reflexivity.
  - specialize (IH (set_soc_begin (soc_begin cur -! max_discharge bess (soc_begin cur)) nxt)).
    destruct (feasibility_loop_head bess
                (set_soc_begin (soc_begin cur -! max_discharge bess (soc_begin cur)) nxt) rest)
      as (r' & tl & Heq & Hs).
    rewrite Heq in *. split; [|exact IH].
    simpl. rewrite Hs. simpl. right; right; reflexivity.
  - specialize (IH nxt).
    destruct (feasibility_loop_head bess nxt rest) as (r' & tl & Heq & Hs).
    rewrite Heq in *. split; [|exact IH].
    rewrite Hs. left. split; assumption.
Qed.

Lemma clip_soc_fixed (cop : list Row) :
  Forall (in_bounds bess) cop -> map (clip_soc bess) cop = cop.
Proof.
  induction 1 as [|r cop [Hlo Hhi] _ IH]; [reflexivity|].
  simpl. rewrite IH. f_equal.
  unfold clip_soc. rewrite clip_inside by assumption.
  apply set_soc_begin_same.
Qed.

Lemma ensure_soc_feasibility_fixed (cop : list Row) :
  feasible bess cop -> _ensure_soc_feasibility bess cop = cop.
Proof.
  intros [Hc Hb]. unfold _ensure_soc_feasibility.
  destruct cop as [|r0 rest]; [reflexivity|].
  rewrite feasibility_loop_fixed by assumption.
  apply clip_soc_fixed, Hb.
Qed.

Hypothesis capacity_nonneg : 0 <= capacity_mw bess.
Hypothesis efficiency_nonneg : 0 <= efficiency bess.
Hypothesis soc_limits_ordered : min_soc bess <= max_soc bess.

Lemma charge_room_nonneg : 0 <= Qabs (lsl bess) * efficiency bess.
Proof.
  apply Qmult_le_0_compat; [apply Qabs_nonneg | assumption].
Qed.

(** The final clip makes every transition the loop left feasible. *)
Lemma repaired_pair_clip (a b : Q) :
  repaired_pair bess a b ->
  feasible_pair bess (clip (min_soc bess) (max_soc bess) a)
                (clip (min_soc bess) (max_soc bess) b).
Proof.
  pose proof charge_room_nonneg as Hroom.
  pose proof capacity_nonneg as Hcap.
  pose proof soc_limits_ordered as Hord.
  unfold repaired_pair, feasible_pair, max_charge, max_discharge, hsl.
  set (c := Qabs (lsl bess) * efficiency bess) in *.
  assert (Hc : Qabs (lsl bess) *! efficiency bess == c) by apply fmul_eq.
  set (c' := Qabs (lsl bess) *! efficiency bess) in *. clearbody c c'.
  set (lo := min_soc bess) in *. set (hi := max_soc bess) in *.
  set (cap := capacity_mw bess) in *. clearbody lo hi cap.
  intros H.
  destruct (clip_bounds lo hi a Hord) as [Ha1 Ha2].
  destruct (clip_bounds lo hi b Hord) as [Hb1 Hb2].
  assert (Ha : (a < lo /\ clip lo hi a == lo) \/ (hi < a /\ clip lo hi a == hi)
               \/ (lo <= a <= hi /\ clip lo hi a == a)).
  { unfold clip. destruct (a <? py_min lo hi) eqn:E1.
    - left. q_solve.
    - destruct (a >? py_max lo hi) eqn:E2.
      + right; left. q_solve.
      + right; right. q_solve. }
  assert (Hb : (b < lo /\ clip lo hi b == lo) \/ (hi < b /\ clip lo hi b == hi)
               \/ (lo <= b <= hi /\ clip lo hi b == b)).
  { unfold clip. destruct (b <? py_min lo hi) eqn:E1.
    - left. q_solve.
    - destruct (b >? py_max lo hi) eqn:E2.
      + right; left. q_solve.
      + right; right. q_solve. }
  set (a' := clip lo hi a) in *. set (b' := clip lo hi b) in *.
  clearbody a' b'.
  split.
  - apply Qgtb_false.
    destruct H as [[H1 H2]|[H|H]]; [| rewrite H in * | rewrite H in *];
      destruct Ha as [[? ?]|[[? ?]|[? ?]]]; destruct Hb as [[? ?]|[[? ?]|[? ?]]];
      q_solve.
  - apply Qltb_false.
    destruct H as [[H1 H2]|[H|H]]; [| rewrite H in * | rewrite H in *];
      destruct Ha as [[? ?]|[[? ?]|[? ?]]]; destruct Hb as [[? ?]|[[? ?]|[? ?]]];
      q_solve.
Qed.

Lemma chain_clip (cop : list Row) :
  chain (repaired_pair bess) cop ->
  chain (feasible_pair bess) (map (clip_soc bess) cop).
Proof.
  induction cop as [|a cop IH]; [trivial|].
  destruct cop as [|b cop]; [trivial|].
  intros [Hab H]. split.
  - simpl. apply repaired_pair_clip, Hab.
  - apply IH, H.
Qed.

Lemma clip_soc_in_bounds (cop : list Row) :
  Forall (in_bounds bess) (map (clip_soc bess) cop).
Proof.
  induction cop as [|a cop IH]; constructor; [|exact IH].
  unfold in_bounds, clip_soc. simpl.
  apply clip_bounds, soc_limits_ordered.
Qed.

Lemma ensure_soc_feasibility_feasible (cop : list Row) :
  feasible bess (_ensure_soc_feasibility bess cop).
Proof.
  unfold _ensure_soc_feasibility, feasible.
  destruct cop as [|r0 rest].
  - split; [exact I | constructor].
  - split; [apply chain_clip, feasibility_loop_chain | apply clip_soc_in_bounds].
Qed.

End Repair.

(** In exact arithmetic the repair is idempotent: for a profile with
    [capacity_mw >= 0], [efficiency >= 0] and [min_soc <= max_soc], the
    output of [_ensure_soc_feasibility] is feasible (no transition triggers
    a repair, every [soc_begin] is within the limits), the repair leaves
    every feasible frame unchanged, and so repairing twice is repairing
    once.  The rounding of binary64 arithmetic breaks the first of the
    three; see the binary64 model. *)
Lemma exact_repair_idempotent (bess : BESSParameters) :
  0 <= capacity_mw bess ->
  0 <= efficiency bess ->
  min_soc bess <= max_soc bess ->
  forall cop : list Row,
    feasible bess (_ensure_soc_feasibility bess cop) /\
    (feasible bess cop -> _ensure_soc_feasibility bess cop = cop) /\
    _ensure_soc_feasibility bess (_ensure_soc_feasibility bess cop)
    = _ensure_soc_feasibility bess cop.
Proof.
  intros Hcap Heff Hord cop.
  assert (Hf : feasible bess (_ensure_soc_feasibility bess cop))
    by (apply ensure_soc_feasibility_feasible; assumption).
  split; [exact Hf|]. split.
  - apply ensure_soc_feasibility_fixed.
  - apply ensure_soc_feasibility_fixed, Hf.
Qed.

(** Each of the three conditions on the profile is needed, also in exact
    arithmetic: with a negative capacity the first repair of the SOC
    sequence [10, 10] gives [10, 20] and the second gives [10, 15]. *)
Lemma exact_repair_twice_negative_capacity :
  let cop := [soc_row 0%Z 10 0; soc_row hour_us 10 0] in
  map soc_begin (_ensure_soc_feasibility bess_negative_capacity cop) = [10; 20] /\
  map soc_begin (_ensure_soc_feasibility bess_negative_capacity
                   (_ensure_soc_feasibility bess_negative_capacity cop)) = [10; 15].
Proof.
  simpl. split; reflexivity.
Qed.

(** Nor is it idempotent with a negative efficiency, or with the SOC limits
    in the wrong order. *)
Lemma repair_twice_negative_efficiency :
  let cop := [soc_row 0%Z 25 0; soc_row hour_us 20 0] in
  map soc_begin (_ensure_soc_feasibility bess_negative_efficiency cop) = [20; 20] /\
  map soc_begin (_ensure_soc_feasibility bess_negative_efficiency
                   (_ensure_soc_feasibility bess_negative_efficiency cop)) = [20; 15].
Proof. simpl. split; reflexivity. Qed.

Lemma repair_twice_inverted_limits :
  let cop := [soc_row 0%Z 10 0; soc_row hour_us 10 0] in
  map soc_begin (_ensure_soc_feasibility bess_inverted_limits cop) = [10; 0] /\
  map soc_begin (_ensure_soc_feasibility bess_inverted_limits
                   (_ensure_soc_feasibility bess_inverted_limits cop)) = [10; 20].
Proof. simpl. split; reflexivity. Qed.

(** ** Validity and severities (C7) *)

Lemma append_errors_sorted (fs : list Finding) (self : COPValidator) :
  Forall error_finding fs -> sorted_findings self ->
  sorted_findings (append_errors fs self).
Proof.
  intros Hfs [He Hw]. split; simpl; [apply Forall_app; split|]; assumption.
Qed.

Lemma append_warnings_sorted (fs : list Finding) (self : COPValidator) :
  Forall warning_finding fs -> sorted_findings self ->
  sorted_findings (append_warnings fs self).
Proof.
  intros Hfs [He Hw]. split; simpl; [|apply Forall_app; split]; assumption.
Qed.

Lemma Forall_flat_map_intro {A B : Type} (P : B -> Prop) (f : A -> list B)
  (l : list A) :
  (forall a, Forall P (f a)) -> Forall P (flat_map f l).
Proof.
  intros H. induction l as [|a l IH]; simpl; [constructor|].
  apply Forall_app; split; [apply H | exact IH].
Qed.

Ltac one_finding :=
  repeat constructor; simpl; reflexivity.

Lemma soc_feasibility_loop_errors (eff : Q) (cop : list CopRow) :
  forall i, Forall error_finding (soc_feasibility_loop eff i cop).
Proof.
  induction cop as [|current cop IH]; intros i; [constructor|].
  destruct cop as [|next_hour cop]; [constructor|].
  change (Forall error_finding
            (soc_feasibility_pair eff i current next_hour
               ++ soc_feasibility_loop eff (S i) (next_hour :: cop))).
  apply Forall_app; split; [|apply IH].
  unfold soc_feasibility_pair.
  destruct (_ >? _); [one_finding|]. destruct (_ <? _); [one_finding|constructor].
Qed.

Lemma ramp_rate_loop_warnings (cop : list CopRow) :
  forall i, Forall warning_finding (ramp_rate_loop i cop).
Proof.
  induction cop as [|current cop IH]; intros i; [constructor|].
  destruct cop as [|next_hour cop]; [constructor|].
  change (Forall warning_finding
            (ramp_rate_pair i current next_hour
               ++ ramp_rate_loop (S i) (next_hour :: cop))).
  apply Forall_app; split; [|apply IH].
  unfold ramp_rate_pair.
  destruct (negb _); [constructor|]. destruct (_ >? _); [one_finding|constructor].
Qed.

Lemma validate_soc_feasibility_sorted (self : COPValidator) (cop : list CopRow) :
  sorted_findings self -> sorted_findings (_validate_soc_feasibility self cop).
Proof. apply append_errors_sorted, soc_feasibility_loop_errors. Qed.

Lemma validate_soc_bounds_sorted (self : COPValidator) (cop : list CopRow) :
  sorted_findings self -> sorted_findings (_validate_soc_bounds self cop).
Proof.
  intros H. apply append_warnings_sorted; [|apply append_errors_sorted; [|exact H]].
  - apply Forall_flat_map_intro. intros row. unfold soc_bounds_warnings.
    apply Forall_app; split.
    + destruct (_ >? _); [one_finding|constructor].
    + destruct (_ <? _); [one_finding|constructor].
  - apply Forall_flat_map_intro. intros row. unfold soc_bounds_errors.
    destruct (_ <? _); [one_finding|]. destruct (_ >? _); [one_finding|constructor].
Qed.

Lemma validate_ramp_rates_sorted (self : COPValidator) (cop : list CopRow) :
  sorted_findings self -> sorted_findings (_validate_ramp_rates self cop).
Proof. apply append_warnings_sorted, ramp_rate_loop_warnings. Qed.

Lemma validate_as_requirements_sorted (self : COPValidator) (cop : list CopRow) :
  sorted_findings self -> sorted_findings (_validate_as_requirements self cop).
Proof.
  apply append_warnings_sorted, Forall_flat_map_intro.
  intros row. unfold as_requirements_row.
  destruct (ResourceStatus_eqb _ ONRR).
  - destruct (_ <? _); [one_finding|constructor].
  - destruct (ResourceStatus_eqb _ ONECRS); [|constructor].
    destruct (_ <? _); [one_finding|constructor].
Qed.

Lemma validate_data_completeness_sorted (self : COPValidator) (cop : list CopRow) :
  sorted_findings self -> sorted_findings (_validate_data_completeness self cop).
Proof.
  intros H. unfold _validate_data_completeness.
  set (start := match filter _ required_fields with [] => self | _ => _ end).
  assert (Hs : sorted_findings start).
  { subst start. destruct (filter _ required_fields); [exact H|].
    apply append_errors_sorted; [one_finding | exact H]. }
  clearbody start. revert start Hs.
  induction required_fields as [|field fields IH]; intros start Hs; [exact Hs|].
  simpl. apply IH.
  destruct (_ && _); [|exact Hs].
  apply append_errors_sorted; [one_finding | exact Hs].
Qed.

Lemma validate_timeline_requirements_sorted (self : COPValidator) (cop : list CopRow) :
  sorted_findings self -> sorted_findings (_validate_timeline_requirements self cop).
Proof.
  intros H. unfold _validate_timeline_requirements.
  destruct (_ <? _)%nat; [|exact H].
  apply append_warnings_sorted; [one_finding | exact H].
Qed.

Lemma validate_sorted (self : COPValidator) (cop : list CopRow) :
  sorted_findings (snd (validate self cop)).
Proof.
  unfold validate, snd.
  apply validate_timeline_requirements_sorted, validate_data_completeness_sorted,
    validate_as_requirements_sorted, validate_ramp_rates_sorted,
    validate_soc_bounds_sorted, validate_soc_feasibility_sorted.
  split; constructor.
Qed.

Lemma filter_none {A : Type} (p : A -> bool) (l : list A) :
  Forall (fun a => p a = false) l -> filter p l = [].
Proof.
  induction 1 as [|a l Ha _ IH]; simpl; [reflexivity|]. rewrite Ha. exact IH.
Qed.

Lemma filter_all {A : Type} (p : A -> bool) (l : list A) :
  Forall (fun a => p a = true) l -> filter p l = l.
Proof.
  induction 1 as [|a l Ha _ IH]; simpl; [reflexivity|]. rewrite Ha, IH. reflexivity.
Qed.

(** C7.  The report of [validate] has [valid = true] exactly when its list
    of errors is empty, which is exactly when no finding of the report has
    severity ERROR.  The findings in [errors] all have severity ERROR; those
    in [warnings] all have severity WARNING and one of the six warning
    types, and no finding of such a type is among the errors: however many
    warnings there are, [valid] does not depend on them. *)
Theorem validate_valid_iff_no_error (self : COPValidator) (cop : list CopRow) :
  let r := fst (validate self cop) in
  (valid r = true <-> errors r = []) /\
  (valid r = true <-> filter is_error (errors r ++ warnings r) = []) /\
  Forall error_finding (errors r) /\
  Forall warning_finding (warnings r) /\
  error_count r = List.length (errors r) /\
  warning_count r = List.length (warnings r).
Proof.
  destruct (validate_sorted self cop) as [He Hw].
  unfold validate in *. simpl in He, Hw. simpl.
  set (es := validation_errors _) in *. set (ws := validation_warnings _) in *.
  clearbody es ws.
  assert (Hv : (List.length es =? 0)%nat = true <-> es = []).
  { rewrite Nat.eqb_eq. destruct es; simpl; split; intro; congruence. }
  repeat split; try assumption; try apply Hv.
  - intros H. apply Hv in H. subst es. simpl.
    apply filter_none. eapply Forall_impl; [|exact Hw].
    intros f [Hf _]. unfold is_error. rewrite Hf. reflexivity.
  - intros H. apply Hv. rewrite filter_app in H.
    apply app_eq_nil in H. destruct H as [H _].
    rewrite filter_all in H; [exact H|].
    eapply Forall_impl; [|exact He].
    intros f [Hf _]. unfold is_error. rewrite Hf. reflexivity.
Qed.

(** ** One report per call (C9) *)

Lemma fold_left_keeps_bess {A : Type} (f : COPValidator -> A -> COPValidator)
  (l : list A) :
  (forall s x, v_bess (f s x) = v_bess s) ->
  forall s, v_bess (fold_left f l s) = v_bess s.
Proof.
  intros Hf. induction l as [|x l IH]; intros s; simpl; [reflexivity|].
  rewrite IH. apply Hf.
Qed.

Lemma validate_data_completeness_keeps_bess (self : COPValidator)
  (cop : list CopRow) :
  v_bess (_validate_data_completeness self cop) = v_bess self.
Proof.
  unfold _validate_data_completeness. rewrite fold_left_keeps_bess.
  - destruct (filter _ required_fields); reflexivity.
  - intros s x. destruct (_ && _); reflexivity.
Qed.

Lemma validate_keeps_bess (self : COPValidator) (cop : list CopRow) :
  v_bess (snd (validate self cop)) = v_bess self.
Proof.
  unfold validate, snd, _validate_timeline_requirements.
  destruct (_ <? _)%nat;
    [change (v_bess (append_warnings ?fs ?s)) with (v_bess s)|];
    rewrite validate_data_completeness_keeps_bess; reflexivity.
Qed.

(** The report depends on the profile of the validator and on the frame, not
    on what the two lists held before the call. *)
Lemma validate_from_init (self : COPValidator) (cop : list CopRow) :
  fst (validate self cop) = fst (validate (COPValidator_init (v_bess self)) cop).
Proof. reflexivity. Qed.

(** C9, as it holds.  [validate] empties both lists before it runs its
    checks: the report of a call made after any other call on the same
    validator is the report a new validator gives, and validating the same
    frame twice gives the same report twice. *)
Theorem validate_report_per_call (self : COPValidator) (cop1 cop2 : list CopRow) :
  fst (validate (snd (validate self cop1)) cop2)
  = fst (validate (COPValidator_init (v_bess self)) cop2) /\
  fst (validate (snd (validate self cop1)) cop1) = fst (validate self cop1).
Proof.
  split.
  - rewrite validate_from_init, validate_keeps_bess. reflexivity.
  - rewrite validate_from_init, validate_keeps_bess. reflexivity.
Qed.

Lemma app_self_nil {A : Type} (l l' : list A) : l' = l ++ l' -> l = [].
Proof.
  intros H. apply (f_equal (@List.length A)) in H.
  rewrite length_app in H. destruct l; [reflexivity|]. simpl in H. lia.
Qed.

(** C9, as stated, fails: no validator and no frames make the second call
    report the findings of the first in addition to its own. *)
Lemma validate_never_accumulates :
  ~ exists self cop1 cop2, accumulates self cop1 cop2.
Proof.
  intros (self & cop1 & cop2 & Hne & He & Hw).
  rewrite validate_from_init, validate_keeps_bess in He, Hw.
  apply app_self_nil in He. apply app_self_nil in Hw.
  apply Hne. unfold findings. rewrite He, Hw. reflexivity.
Qed.

(** ** The findings of the validator's feasibility check *)

Lemma soc_feasibility_pair_spec (eff : Q) (i : nat) (current next_hour : CopRow)
  (f : Finding) :
  In f (soc_feasibility_pair eff i current next_hour) <->
  (f = charge_finding i /\
   exceeds_charge (row_max_charge eff current) current next_hour) \/
  (f = discharge_finding i /\
   ~ exceeds_charge (row_max_charge eff current) current next_hour /\
   exceeds_discharge (row_max_discharge current) current next_hour).
Proof.
  unfold soc_feasibility_pair, exceeds_charge, exceeds_discharge.
  destruct (_ >? _) eqn:E1; [|destruct (_ <? _) eqn:E2]; q_tests; simpl.
  - split.
    + intros [<-|[]]. left. split; [reflexivity | assumption].
    + intros [[-> _]|[_ [H _]]]; [left; reflexivity | contradiction].
  - split.
    + intros [<-|[]]. right. split; [reflexivity|].
      split; [apply Qle_not_lt|]; assumption.
    + intros [[_ H]|[-> _]]; [|left; reflexivity].
      exfalso. revert H. apply Qle_not_lt. assumption.
  - split; [intros []|].
    intros [[_ H]|[_ [_ H]]]; exfalso; revert H; apply Qle_not_lt; assumption.
Qed.

Lemma soc_feasibility_loop_spec (eff : Q) (cop : list CopRow) :
  forall (i0 : nat) (f : Finding),
    In f (soc_feasibility_loop eff i0 cop) <->
    exists k current next_hour,
      nth_error cop k = Some current /\
      nth_error cop (S k) = Some next_hour /\
      In f (soc_feasibility_pair eff (i0 + k) current next_hour).
Proof.
  induction cop as [|c cop IH]; intros i0 f.
  - simpl. split; [intros [] | intros (k & cu & nx & H & _)].
    destruct k; discriminate H.
  - destruct cop as [|n cop].
    + simpl. split; [intros [] | intros (k & cu & nx & _ & H & _)].
      destruct k; discriminate H.
    + change (soc_feasibility_loop eff i0 (c :: n :: cop))
        with (soc_feasibility_pair eff i0 c n
                ++ soc_feasibility_loop eff (S i0) (n :: cop)).
      rewrite in_app_iff, IH. split.
      * intros [H|(k & cu & nx & H1 & H2 & H3)].
        -- exists O, c, n. rewrite Nat.add_0_r. auto.
        -- exists (S k), cu, nx. rewrite Nat.add_succ_r. auto.
      * intros (k & cu & nx & H1 & H2 & H3). destruct k as [|k].
        -- left. simpl in H1, H2. injection H1 as <-. injection H2 as <-.
           rewrite Nat.add_0_r in H3. exact H3.
        -- right. exists k, cu, nx. rewrite Nat.add_succ_r in H3. auto.
Qed.

(** In exact arithmetic, on an hour whose [soc_min] and [soc_max] are the
    bracket that [_calculate_soc_trajectory] computes from the hour's own
    [soc_begin], the validator's bounds are those of the repair. *)
Lemma row_bounds_of_bracket (bess : BESSParameters) (current : CopRow) :
  let soc := soc_begin (base current) in
  row_hsl (base current) = hsl bess ->
  row_lsl (base current) = lsl bess ->
  soc_min (base current) = py_max (min_soc bess) (soc -! hsl bess) ->
  soc_max (base current)
  = py_min (max_soc bess) (soc +! Qabs (lsl bess) *! efficiency bess) ->
  row_max_charge (efficiency bess) current == max_charge bess soc /\
  row_max_discharge current == max_discharge bess soc.
Proof.
  intros soc H1 H2 H3 H4.
  unfold row_max_charge, row_max_discharge, max_charge, max_discharge.
  fold soc. rewrite H1, H2, H3, H4. clearbody soc.
  split; q_abstract; q_minmax; lra.
Qed.

(** ** The ancillary-service overlay (C8) *)

Section Overlay.

Variable asf : ASFrame.

Lemma overlay_hour_ending (a : ASRow) (r : Row) :
  hour_ending (overlay asf a r) = hour_ending r.
Proof.
  unfold overlay.
  destruct (_ >? _); [reflexivity|]. destruct (_ >? _); [reflexivity|].
  destruct (_ >? _); reflexivity.
Qed.

Lemma update_label_hours (hour : Timestamp) (f : Row -> Row) (cop : list Row) :
  (forall r, hour_ending (f r) = hour_ending r) ->
  map hour_ending (update_label hour f cop) = map hour_ending cop.
Proof.
  intros Hf. unfold update_label. rewrite map_map. apply map_ext.
  intros r. destruct (_ =? _)%Z; [apply Hf | reflexivity].
Qed.

Lemma update_label_absent (hour : Timestamp) (f : Row -> Row) (cop : list Row) :
  in_index hour cop = false -> update_label hour f cop = cop.
Proof.
  unfold in_index, update_label. induction cop as [|r cop IH]; [reflexivity|].
  simpl. intros H. apply orb_false_iff in H. destruct H as [H1 H2].
  rewrite H1, IH by assumption. reflexivity.
Qed.

Lemma in_index_spec (hour : Timestamp) (cop : list Row) :
  in_index hour cop = true <-> In hour (map hour_ending cop).
Proof.
  unfold in_index. rewrite existsb_exists, in_map_iff. split.
  - intros (r & Hr & He). apply Z.eqb_eq in He. eauto.
  - intros (r & He & Hr). exists r. split; [exact Hr | apply Z.eqb_eq, He].
Qed.

(** With labels that are not repeated, the rows of a label are one row. *)
Lemma filter_unique_label (hour : Timestamp) (cop : list Row) :
  NoDup (map hour_ending cop) ->
  in_index hour cop = true ->
  exists r, filter (fun r => (hour_ending r =? hour)%Z) cop = [r] /\
            hour_ending r = hour.
Proof.
  induction cop as [|r cop IH]; simpl; [discriminate|].
  intros Hnd Hin. inversion Hnd as [|? ? Hnotin Hnd']; subst.
  destruct (hour_ending r =? hour)%Z eqn:E.
  - apply Z.eqb_eq in E. exists r. split; [|exact E]. f_equal.
    destruct (in_index hour cop) eqn:E'.
    + exfalso. apply Hnotin. rewrite E. apply in_index_spec, E'.
    + clear -E'. unfold in_index in E'. induction cop as [|x cop IH]; [reflexivity|].
      simpl in *. apply orb_false_iff in E'. destruct E' as [E1 E2].
      rewrite E1. apply IH, E2.
  - simpl in Hin. apply IH; assumption.
Qed.

Lemma cop_soc_min_unique (hour : Timestamp) (f : Row -> Row) (cop : list Row) :
  NoDup (map hour_ending cop) ->
  in_index hour cop = true ->
  (forall r, hour_ending (f r) = hour_ending r) ->
  (forall r, soc_min (f r) = soc_min r) ->
  exists m,
    cop_soc_min (update_label hour f cop) hour = Ok m /\
    forall g : Q -> Row -> Row,
      update_label hour (g m) (update_label hour f cop)
      = update_label hour (fun r => g (soc_min r) (f r)) cop.
Proof.
  intros Hnd Hin Hfh Hfs.
  induction cop as [|r cop IH]; [discriminate Hin|].
  inversion Hnd as [|? ? Hnotin Hnd']; subst.
  unfold cop_soc_min. simpl.
  destruct (hour_ending r =? hour)%Z eqn:E.
  - rewrite Hfh, E.
    assert (Habs : in_index hour cop = false).
    { destruct (in_index hour cop) eqn:E'; [|reflexivity].
      exfalso. apply Hnotin. apply Z.eqb_eq in E. rewrite E.
      apply in_index_spec, E'. }
    rewrite !update_label_absent by assumption.
    assert (Hnil : filter (fun r0 => (hour_ending r0 =? hour)%Z) cop = []).
    { clear -Habs. unfold in_index in Habs.
      induction cop as [|x cop IH]; [reflexivity|].
      simpl in *. apply orb_false_iff in Habs. destruct Habs as [E1 E2].
      rewrite E1. apply IH, E2. }
    rewrite Hnil. exists (soc_min (f r)). split; [reflexivity|].
    intros g. rewrite !update_label_absent by assumption.
    rewrite Hfs. reflexivity.
  - rewrite E. simpl in Hin. rewrite E in Hin. simpl in Hin.
    destruct (IH Hnd' Hin) as (m & Hm & Hg).
    exists m. split; [exact Hm|].
    intros g. rewrite Hg. reflexivity.
Qed.

Lemma as_cell_unique (has : bool) (col : ASRow -> Q) (hour : Timestamp) (a : ASRow) :
  filter (fun kp => (fst kp =? hour)%Z) (as_rows asf) = [(hour, a)] ->
  as_cell asf has col hour = Ok (if has then col a else 0).
Proof.
  intros H. unfold as_cell. rewrite H. destruct has; reflexivity.
Qed.

(** One iteration, for a label that is not repeated in either frame. *)
Lemma apply_as_hour_unique (cop : list Row) (hour : Timestamp) (a : ASRow) :
  NoDup (map hour_ending cop) ->
  filter (fun kp => (fst kp =? hour)%Z) (as_rows asf) = [(hour, a)] ->
  apply_as_hour asf cop hour = Ok (update_label hour (overlay asf a) cop).
Proof.
  intros Hnd Ha. unfold apply_as_hour.
  destruct (in_index hour cop) eqn:Hin.
  2:{ rewrite update_label_absent by assumption. reflexivity. }
  rewrite (as_cell_unique _ regulation hour a Ha). simpl.
  fold (reg_mw_of asf a).
  destruct (reg_mw_of asf a >? 0) eqn:Ereg.
  { f_equal. unfold update_label, overlay. rewrite map_map. apply map_ext.
    intros r. rewrite Ereg.
    destruct (hour_ending r =? hour)%Z eqn:E; simpl; rewrite E; reflexivity. }
  rewrite (as_cell_unique _ rrs hour a Ha). simpl. fold (rrs_mw_of asf a).
  destruct (rrs_mw_of asf a >? 0) eqn:Errs.
  { destruct (cop_soc_min_unique hour (set_status ONRR) cop Hnd Hin)
      as (m & Hm & Hg); [reflexivity | reflexivity |].
    rewrite Hm. simpl. f_equal.
    rewrite (Hg (fun m => set_soc_min (py_max m (rrs_mw_of asf a)))).
    unfold update_label, overlay. apply map_ext.
    intros r. rewrite Ereg, Errs. reflexivity. }
  rewrite (as_cell_unique _ ecrs hour a Ha). simpl. fold (ecrs_mw_of asf a).
  destruct (ecrs_mw_of asf a >? 0) eqn:Eecrs.
  { destruct (cop_soc_min_unique hour (set_status ONECRS) cop Hnd Hin)
      as (m & Hm & Hg); [reflexivity | reflexivity |].
    rewrite Hm. simpl. f_equal.
    rewrite (Hg (fun m => set_soc_min (py_max m (ecrs_mw_of asf a *! 2)))).
    unfold update_label, overlay. apply map_ext.
    intros r. rewrite Ereg, Errs, Eecrs. reflexivity. }
  f_equal. unfold update_label, overlay.
  rewrite <- (map_id cop) at 1. apply map_ext.
  intros r. rewrite Ereg, Errs, Eecrs. destruct (_ =? _)%Z; reflexivity.
Qed.

End Overlay.

Lemma filter_label_absent {A : Type} (hour : Timestamp)
  (rows : list (Timestamp * A)) :
  ~ In hour (map fst rows) ->
  filter (fun kp => (fst kp =? hour)%Z) rows = [].
Proof.
  induction rows as [|[k v] rows IH]; [reflexivity|].
  simpl. intros H. destruct (k =? hour)%Z eqn:E.
  - exfalso. apply H. left. apply Z.eqb_eq, E.
  - apply IH. intros H'. apply H. right. exact H'.
Qed.

Lemma filter_label_unique {A : Type} (rows : list (Timestamp * A)) :
  NoDup (map fst rows) ->
  Forall (fun e => filter (fun kp => (fst kp =? fst e)%Z) rows = [e]) rows.
Proof.
  induction rows as [|[k v] rows IH]; intros Hnd; [constructor|].
  inversion Hnd as [|? ? Hnotin Hnd']; subst.
  constructor.
  - simpl. rewrite Z.eqb_refl. f_equal. apply filter_label_absent, Hnotin.
  - specialize (IH Hnd'). rewrite Forall_forall in *.
    intros [k' v'] Hin. simpl.
    destruct (k =? k')%Z eqn:E.
    + exfalso. apply Hnotin. apply Z.eqb_eq in E. subst k'.
      apply in_map_iff. exists (k, v'). auto.
    + apply (IH _ Hin).
Qed.

Lemma apply_as_loop_unique (asf : ASFrame) (entries : list (Timestamp * ASRow)) :
  Forall (fun e => filter (fun kp => (fst kp =? fst e)%Z) (as_rows asf) = [e])
         entries ->
  forall cop,
    NoDup (map hour_ending cop) ->
    apply_as_loop asf (map fst entries) cop
    = Ok (fold_left (fun c e => update_label (fst e) (overlay asf (snd e)) c)
                    entries cop).
Proof.
  induction 1 as [|[k a] entries He _ IH]; intros cop Hnd; [reflexivity|].
  simpl. simpl in He.
  rewrite (apply_as_hour_unique asf cop k a Hnd He). simpl.
  apply IH. rewrite update_label_hours; [exact Hnd|].
  apply overlay_hour_ending.
Qed.

Lemma fold_update_label (asf : ASFrame) (entries : list (Timestamp * ASRow)) :
  NoDup (map fst entries) ->
  forall cop,
    fold_left (fun c e => update_label (fst e) (overlay asf (snd e)) c) entries cop
    = map (overlay_row asf entries) cop.
Proof.
  induction entries as [|[k a] entries IH]; intros Hnd cop.
  - simpl. symmetry. apply map_id.
  - inversion Hnd as [|? ? Hnotin Hnd']; subst.
    simpl. rewrite IH by assumption.
    unfold update_label. rewrite map_map. apply map_ext.
    intros r. unfold overlay_row, commitment_of. simpl.
    rewrite (Z.eqb_sym k). destruct (hour_ending r =? k)%Z eqn:E.
    + simpl. rewrite overlay_hour_ending.
      apply Z.eqb_eq in E.
      destruct (find (fun kp => (fst kp =? hour_ending r)%Z) entries)
        as [[k' a']|] eqn:Ef; [|reflexivity].
      exfalso. apply find_some in Ef. destruct Ef as [Hin Hk].
      simpl in Hk. apply Z.eqb_eq in Hk. subst k'.
      apply Hnotin, in_map_iff. exists (hour_ending r, a'). rewrite <- E. auto.
    + reflexivity.
Qed.

Lemma commitment_of_in (entries : list (Timestamp * ASRow)) (r : Row) (a : ASRow) :
  NoDup (map fst entries) ->
  In (hour_ending r, a) entries ->
  commitment_of entries r = Some a.
Proof.
  intros Hnd Hin. unfold commitment_of.
  destruct (find (fun kp => (fst kp =? hour_ending r)%Z) entries)
    as [[k' a']|] eqn:Ef.
  - apply find_some in Ef. destruct Ef as [Hin' Hk]. simpl in Hk.
    apply Z.eqb_eq in Hk. subst k'. simpl. f_equal.
    clear -Hnd Hin Hin'. induction entries as [|[k v] entries IH]; [destruct Hin|].
    inversion Hnd as [|? ? Hnotin Hnd']; subst.
    destruct Hin as [Hin|Hin]; destruct Hin' as [Hin'|Hin'].
    + congruence.
    + exfalso. apply Hnotin. injection Hin as -> _.
      apply in_map_iff. exists (hour_ending r, a'). auto.
    + exfalso. apply Hnotin. injection Hin' as -> _.
      apply in_map_iff. exists (hour_ending r, a). auto.
    + apply IH; assumption.
  - exfalso. apply (find_none _ _ Ef) in Hin. simpl in Hin.
    rewrite Z.eqb_refl in Hin. discriminate.
Qed.

Lemma commitment_of_absent (entries : list (Timestamp * ASRow)) (r : Row) :
  ~ In (hour_ending r) (map fst entries) ->
  commitment_of entries r = None.
Proof.
  intros H. unfold commitment_of.
  destruct (find (fun kp => (fst kp =? hour_ending r)%Z) entries)
    as [[k' a']|] eqn:Ef; [|reflexivity].
  exfalso. apply find_some in Ef. destruct Ef as [Hin Hk]. simpl in Hk.
  apply Z.eqb_eq in Hk. subst k'. apply H, in_map_iff. exists (hour_ending r, a'). auto.
Qed.

(** With labels that are not repeated in either frame the overlay returns,
    and its result is the frame with every row overlaid by its own
    commitment. *)
Lemma apply_as_commitments_map (cop : list Row) (asf : ASFrame) :
  NoDup (map hour_ending cop) ->
  NoDup (map fst (as_rows asf)) ->
  _apply_as_commitments cop asf = Ok (map (overlay_row asf (as_rows asf)) cop).
Proof.
  intros Hc Ha. unfold _apply_as_commitments.
  rewrite apply_as_loop_unique; [|apply filter_label_unique, Ha | exact Hc].
  rewrite fold_update_label by assumption. reflexivity.
Qed.

Lemma overlay_overlaid (asf : ASFrame) (a : ASRow) (r : Row) :
  overlaid asf a r (overlay asf a r).
Proof.
  unfold overlaid, overlay, overlay_keeps.
  destruct (reg_mw_of asf a >? 0) eqn:E1;
    [|destruct (rrs_mw_of asf a >? 0) eqn:E2;
      [|destruct (ecrs_mw_of asf a >? 0) eqn:E3]];
    q_tests; repeat split; intros; try reflexivity; exfalso; lra.
Qed.

(** C8.  When no label is repeated in the plan or in [as_commitments], the
    overlay returns a plan with the same hours in the same order, in which
    every hour whose timestamp is keyed in [as_commitments] has had exactly
    one overlay applied, the first that matches in the order regulation, RRS,
    ECRS: with regulation > 0 the status is ONREG and [target_mw] is 0;
    otherwise with RRS > 0 the status is ONRR and [soc_min] is
    [max(soc_min, rrs)]; otherwise with ECRS > 0 the status is ONECRS and
    [soc_min] is [max(soc_min, 2·ecrs)]; otherwise the hour is unchanged.
    In each case the two of [status], [target_mw] and [soc_min] that the
    case does not name, every other column of the hour, and every column of
    every hour that is not keyed, are as they were. *)
Theorem apply_as_commitments_overlay (cop : list Row) (asf : ASFrame) :
  NoDup (map hour_ending cop) ->
  NoDup (map fst (as_rows asf)) ->
  exists cop',
    _apply_as_commitments cop asf = Ok cop' /\
    Forall2 (fun r r' =>
               (forall a, In (hour_ending r, a) (as_rows asf) ->
                          overlaid asf a r r') /\
               (~ In (hour_ending r) (map fst (as_rows asf)) -> same_row r r'))
            cop cop'.
Proof.
  intros Hc Ha. exists (map (overlay_row asf (as_rows asf)) cop).
  split; [apply apply_as_commitments_map; assumption|].
  clear Hc. induction cop as [|r cop IH]; simpl; constructor; [|exact IH].
  split.
  - intros a Hin. unfold overlay_row.
    rewrite (commitment_of_in (as_rows asf) r a Ha Hin). apply overlay_overlaid.
  - intros Hout. unfold overlay_row.
    rewrite commitment_of_absent by assumption.
    unfold same_row, overlay_keeps. repeat split; reflexivity.
Qed.

Lemma apply_as_commitments_overlay_witness :
  exists cop',
    _apply_as_commitments overlay_example_cop overlay_example_as = Ok cop' /\
    Forall2 (fun r r' =>
               (forall a, In (hour_ending r, a) (as_rows overlay_example_as) ->
                          overlaid overlay_example_as a r r') /\
               (~ In (hour_ending r) (map fst (as_rows overlay_example_as)) ->
                same_row r r'))
            overlay_example_cop cop'.
Proof.
  apply (apply_as_commitments_overlay overlay_example_cop overlay_example_as).
  - simpl. repeat constructor; simpl; intuition discriminate.
  - simpl. repeat constructor; simpl; intuition discriminate.
Defined.

(** ** The index of the generated frame *)

Lemma date_range_length (start : Timestamp) (periods : nat) :
  List.length (date_range start periods) = periods.
Proof.
  revert start. induction periods as [|n IH]; intros start; simpl;
    [reflexivity | rewrite IH; reflexivity].
Qed.

Lemma date_range_lower (periods : nat) :
  forall start t, In t (date_range start periods) -> (start <= t)%Z.
Proof.
  induction periods as [|n IH]; intros start t; simpl; [intros []|].
  intros [<-|H]; [lia|]. apply IH in H. unfold hour_us in H. lia.
Qed.

Lemma date_range_NoDup (periods : nat) :
  forall start, NoDup (date_range start periods).
Proof.
  induction periods as [|n IH]; intros start; simpl; constructor; [|apply IH].
  intros H. apply date_range_lower in H. unfold hour_us in H. lia.
Qed.

Section Index.

Variable bess : BESSParameters.

Lemma soc_trajectory_loop_hours (rest : list Row) :
  forall prev,
    map hour_ending (soc_trajectory_loop bess prev rest) = map hour_ending rest.
Proof.
  induction rest as [|r rest IH]; intros prev; [reflexivity|].
  simpl. rewrite IH. reflexivity.
Qed.

Lemma calculate_soc_trajectory_hours (cop : list Row) (initial_soc : option Q) :
  map hour_ending (_calculate_soc_trajectory bess cop initial_soc)
  = map hour_ending cop.
Proof.
  unfold _calculate_soc_trajectory.
  set (s := match initial_soc with None => _ | Some s => s end). clearbody s.
  rewrite map_map.
  rewrite (map_ext (fun x => hour_ending (set_soc_bounds bess x)) hour_ending)
    by reflexivity.
  destruct cop as [|r0 rest]; [reflexivity|].
  simpl. rewrite soc_trajectory_loop_hours, map_map. reflexivity.
Qed.

Lemma default_row_hour (hour : Timestamp) :
  hour_ending (default_row bess hour) = hour.
Proof.
  unfold default_row.
  destruct (_ && _); [reflexivity|]. destruct (_ && _); [reflexivity|].
  destruct (_ && _); reflexivity.
Qed.

Lemma generate_default_plan_hours (hours : list Timestamp) :
  map hour_ending (_generate_default_plan bess hours) = hours.
Proof.
  unfold _generate_default_plan.
  rewrite calculate_soc_trajectory_hours, map_map.
  rewrite <- (map_id hours) at 2. apply map_ext, default_row_hour.
Qed.

Lemma priced_row_hour (has : bool) (hp : Timestamp * option Q) :
  hour_ending (priced_row bess has hp) = fst hp.
Proof.
  destruct hp as [hour cell]. unfold priced_row.
  destruct (if has then cell else Some 50) as [p|]; [|reflexivity].
  destruct (_ >? _); [reflexivity|]. destruct (_ <? _); [reflexivity|].
  destruct (_ >? _); reflexivity.
Qed.

Lemma filter_label_at_most_one {A : Type} (hour : Timestamp)
  (rows : list (Timestamp * A)) :
  NoDup (map fst rows) ->
  filter (fun kp => (fst kp =? hour)%Z) rows = [] \/
  exists e, filter (fun kp => (fst kp =? hour)%Z) rows = [e].
Proof.
  induction rows as [|[k v] rows IH]; intros Hnd; [left; reflexivity|].
  inversion Hnd as [|? ? Hnotin Hnd']; subst. simpl.
  destruct (k =? hour)%Z eqn:E.
  - right. exists (k, v). f_equal. apply filter_label_absent.
    apply Z.eqb_eq in E. subst k. exact Hnotin.
  - apply IH, Hnd'.
Qed.

Lemma merge_left_hours (hours : list Timestamp) (pf : PriceFrame) :
  NoDup (map fst (price_rows pf)) ->
  map fst (merge_left hours pf) = hours.
Proof.
  intros Hnd. unfold merge_left.
  induction hours as [|h hours IH]; [reflexivity|].
  cbn [flat_map]. rewrite map_app, IH. unfold merge_hour.
  destruct (filter_label_at_most_one h (price_rows pf) Hnd) as [->|[e ->]];
    reflexivity.
Qed.

Lemma count_label_NoDup {A : Type} (rows : list (Timestamp * A)) (hour : Timestamp) :
  NoDup (map fst rows) -> (count_label hour rows <= 1)%nat.
Proof.
  intros Hnd. unfold count_label.
  destruct (filter_label_at_most_one hour rows Hnd) as [->|[e ->]]; simpl; lia.
Qed.

(** With a forecast whose labels are not repeated, the price-optimised plan
    is returned and has the hours it was asked for. *)
Lemma optimize_for_prices_hours (hours : list Timestamp) (pf : PriceFrame) :
  NoDup hours ->
  NoDup (map fst (price_rows pf)) ->
  exists cop,
    _optimize_for_prices bess hours pf = Ok cop /\
    map hour_ending cop = hours.
Proof.
  intros Hh Hp. unfold _optimize_for_prices.
  pose proof (merge_left_hours hours pf Hp) as Hm.
  assert (Hex : existsb (fun hp => (1 <? count_label (fst hp) (merge_left hours pf))%nat)
                        (merge_left hours pf) = false).
  { assert (Hnd : NoDup (map fst (merge_left hours pf))) by (rewrite Hm; exact Hh).
    destruct (existsb _ (merge_left hours pf)) eqn:E; [|reflexivity].
    apply existsb_exists in E. destruct E as (x & _ & Hx).
    apply Nat.ltb_lt in Hx.
    pose proof (count_label_NoDup (merge_left hours pf) (fst x) Hnd). lia. }
  rewrite Hex, andb_false_r.
  eexists. split; [reflexivity|].
  rewrite calculate_soc_trajectory_hours, map_map.
  rewrite <- Hm at 2. apply map_ext, priced_row_hour.
Qed.

Lemma Forall2_same_frame_hours (cop cop' : list Row) :
  Forall2 same_frame cop cop' ->
  map hour_ending cop' = map hour_ending cop.
Proof.
  induction 1 as [|r r' cop cop' Hr _ IH]; simpl; [reflexivity|].
  destruct Hr as [Hr _]. rewrite Hr, IH. reflexivity.
Qed.

Lemma ensure_soc_feasibility_hours (cop : list Row) :
  map hour_ending (_ensure_soc_feasibility bess cop) = map hour_ending cop.
Proof.
  apply Forall2_same_frame_hours, ensure_soc_feasibility_same_frame.
Qed.

End Index.

(** ** No profile is refused (C5) *)

Lemma base_plan_hours (bess : BESSParameters) (start_date : Timestamp)
  (days : nat) (price_forecast : option PriceFrame) :
  unique_price_labels price_forecast ->
  exists cop,
    base_plan bess start_date days price_forecast = Ok cop /\
    map hour_ending cop = date_range start_date (days * 24).
Proof.
  intros Hp. unfold base_plan. destruct price_forecast as [pf|].
  - apply optimize_for_prices_hours; [apply date_range_NoDup | exact Hp].
  - eexists. split; [reflexivity | apply generate_default_plan_hours].
Qed.

(** C5, as it holds.  [generate_cop] checks nothing about the profile and
    raises no InvalidProfile error: for every profile, among them those
    with [capacity_mw <= 0] or [min_soc >= max_soc], every start time and
    every number of days, and every forecast and commitments whose index
    labels are not repeated, it returns a plan of [24 * days] hours, one per
    hour from the start time on. *)
Theorem generate_cop_returns_plan (bess : BESSParameters) (start_date : Timestamp)
  (days : nat) (price_forecast : option PriceFrame)
  (as_commitments : option ASFrame) :
  unique_price_labels price_forecast ->
  unique_as_labels as_commitments ->
  exists cop,
    generate_cop bess start_date days price_forecast as_commitments = Ok cop /\
    List.length cop = (24 * days)%nat /\
    map (fun row => hour_ending (base row)) cop
    = date_range start_date (days * 24).
Proof.
  intros Hp Ha.
  destruct (base_plan_hours bess start_date days price_forecast Hp)
    as (cop0 & Hbase & Hh0).
  unfold generate_cop. unfold base_plan in Hbase. rewrite Hbase. simpl.
  assert (H1 : exists cop1,
            match as_commitments with
            | Some asf => _apply_as_commitments cop0 asf
            | None => Ok cop0
            end = Ok cop1 /\ map hour_ending cop1 = map hour_ending cop0).
  { destruct as_commitments as [asf|]; [|eauto].
    rewrite apply_as_commitments_map;
      [| rewrite Hh0; apply date_range_NoDup | exact Ha].
    eexists. split; [reflexivity|].
    rewrite map_map. apply map_ext. intros r. unfold overlay_row.
    destruct (commitment_of _ r); [apply overlay_hour_ending | reflexivity]. }
  destruct H1 as (cop1 & -> & Hh1). simpl.
  eexists. split; [reflexivity|].
  assert (Hh : map (fun row => hour_ending (base row))
                   (_add_cop_fields bess (_ensure_soc_feasibility bess cop1))
               = date_range start_date (days * 24)).
  { unfold _add_cop_fields. rewrite map_map. simpl.
    change (map (fun x => hour_ending x) (_ensure_soc_feasibility bess cop1)
            = date_range start_date (days * 24)).
    rewrite ensure_soc_feasibility_hours, Hh1, Hh0. reflexivity. }
  split; [|exact Hh].
  apply (f_equal (@List.length _)) in Hh.
  rewrite length_map, date_range_length in Hh. rewrite Hh. lia.
Qed.

Lemma generate_cop_returns_plan_witness :
  exists cop,
    generate_cop bess_invalid 0%Z 7 None (Some overlay_example_as) = Ok cop /\
    List.length cop = (24 * 7)%nat /\
    map (fun row => hour_ending (base row)) cop = date_range 0%Z (7 * 24).
Proof.
  apply (generate_cop_returns_plan bess_invalid 0%Z 7 None (Some overlay_example_as)).
  - simpl. exact I.
  - simpl. repeat constructor; simpl; intuition discriminate.
Defined.

(** C5, as stated, fails: [bess_invalid] has [capacity_mw <= 0] and
    [min_soc >= max_soc], and [generate_cop] returns a plan of 168 hours
    for it. *)
Lemma generate_cop_accepts_invalid_profile :
  capacity_mw bess_invalid <= 0 /\
  max_soc bess_invalid <= min_soc bess_invalid /\
  exists cop,
    generate_cop bess_invalid 0%Z 7 None None = Ok cop /\
    List.length cop = 168%nat.
Proof.
  split; [simpl; lra|]. split; [simpl; lra|].
  eexists. split; [vm_compute; reflexivity|]. vm_compute. reflexivity.
Qed.

(** ** Overlay first, repair second (C4) *)

Lemma without_target_set_soc (v : Q) (r : Row) :
  without_target (set_soc_begin v r) = set_soc_begin v (without_target r).
Proof. reflexivity. Qed.

Section Commute.

Variable bess : BESSParameters.

(** A row-wise change of the frame that neither reads nor writes
    [soc_begin], and whose effect on the other columns does not depend on
    [target_mw]. *)
Variable g : Row -> Row.
Hypothesis g_soc : forall r, soc_begin (g r) = soc_begin r.
Hypothesis g_set_soc : forall v r, g (set_soc_begin v r) = set_soc_begin v (g r).
Hypothesis g_target :
  forall t r, without_target (g (set_target_mw t r)) = without_target (g r).

Lemma feasibility_loop_commute (rest : list Row) :
  forall cur,
    map without_target (feasibility_loop bess (g cur) (map g rest))
    = map without_target (map g (feasibility_loop bess cur rest)).
Proof.
  induction rest as [|nxt rest IH]; intros cur; [reflexivity|].
  simpl. rewrite !g_soc.
  destruct (_ >? _); [|destruct (_ <? _)]; simpl.
  - rewrite g_target, <- g_set_soc, IH. reflexivity.
  - rewrite g_target, <- g_set_soc, IH. reflexivity.
  - rewrite IH. reflexivity.
Qed.

Lemma ensure_soc_feasibility_commute (cop : list Row) :
  map without_target (_ensure_soc_feasibility bess (map g cop))
  = map without_target (map g (_ensure_soc_feasibility bess cop)).
Proof.
  unfold _ensure_soc_feasibility. destruct cop as [|r0 rest]; [reflexivity|].
  simpl map at 2.
  assert (Hclip : forall l l',
             map without_target l = map without_target (map g l') ->
             map without_target (map (clip_soc bess) l)
             = map without_target (map g (map (clip_soc bess) l'))).
  { induction l as [|x l IHl]; intros [|y l'] H; try discriminate H; [reflexivity|].
    pose proof (f_equal (@List.tl Row) H) as Hl.
    pose proof (f_equal (hd x) H) as Hx.
    cbn [map hd tl] in Hl, Hx.
    cbn [map]. f_equal; [|apply IHl, Hl].
    assert (Hs : soc_begin x = soc_begin y).
    { rewrite <- (g_soc y).
      change (soc_begin (without_target x) = soc_begin (without_target (g y))).
      rewrite Hx. reflexivity. }
    unfold clip_soc. rewrite g_set_soc, Hs, !without_target_set_soc, Hx.
    reflexivity. }
  apply Hclip, feasibility_loop_commute.
Qed.

End Commute.

Lemma overlay_row_soc (asf : ASFrame) (entries : list (Timestamp * ASRow)) (r : Row) :
  soc_begin (overlay_row asf entries r) = soc_begin r.
Proof.
  unfold overlay_row. destruct (commitment_of entries r); [|reflexivity].
  unfold overlay.
  destruct (_ >? _); [reflexivity|]. destruct (_ >? _); [reflexivity|].
  destruct (_ >? _); reflexivity.
Qed.

Lemma overlay_row_set_soc (asf : ASFrame) (entries : list (Timestamp * ASRow))
  (v : Q) (r : Row) :
  overlay_row asf entries (set_soc_begin v r)
  = set_soc_begin v (overlay_row asf entries r).
Proof.
  unfold overlay_row, commitment_of. simpl.
  destruct (find (fun kp => (fst kp =? hour_ending r)%Z) entries); [|reflexivity].
  unfold overlay.
  destruct (_ >? _); [reflexivity|]. destruct (_ >? _); [reflexivity|].
  destruct (_ >? _); reflexivity.
Qed.

Lemma overlay_row_target (asf : ASFrame) (entries : list (Timestamp * ASRow))
  (t : Q) (r : Row) :
  without_target (overlay_row asf entries (set_target_mw t r))
  = without_target (overlay_row asf entries r).
Proof.
  unfold overlay_row, commitment_of. simpl.
  destruct (find (fun kp => (fst kp =? hour_ending r)%Z) entries); [|reflexivity].
  unfold overlay.
  destruct (_ >? _); [reflexivity|]. destruct (_ >? _); [reflexivity|].
  destruct (_ >? _); reflexivity.
Qed.

(** C4, as it holds.  With commitments given, [generate_cop] applies the
    overlay to the base plan and runs the feasibility repair on the overlaid
    plan, then adds the COP fields.  Where no index label is repeated, the
    plan it returns and the plan of the opposite order (repair, then
    overlay) have the same hours and agree on every column but
    [target_mw]. *)
Theorem generate_cop_overlay_then_repair (bess : BESSParameters)
  (start_date : Timestamp) (days : nat)
  (price_forecast : option PriceFrame) (asf : ASFrame) :
  generate_cop bess start_date days price_forecast (Some asf)
  = (cop <- base_plan bess start_date days price_forecast ;;
     cop <- _apply_as_commitments cop asf ;;
     Ok (_add_cop_fields bess (_ensure_soc_feasibility bess cop))) /\
  (unique_price_labels price_forecast ->
   unique_as_labels (Some asf) ->
   exists cop cop',
     generate_cop bess start_date days price_forecast (Some asf)
     = Ok (_add_cop_fields bess cop) /\
     generate_cop_repair_first bess start_date days price_forecast asf
     = Ok (_add_cop_fields bess cop') /\
     map without_target cop = map without_target cop').
Proof.
  split; [reflexivity|].
  intros Hp Ha.
  destruct (base_plan_hours bess start_date days price_forecast Hp)
    as (cop0 & Hbase & Hh0).
  assert (Hnd : NoDup (map hour_ending cop0))
    by (rewrite Hh0; apply date_range_NoDup).
  exists (_ensure_soc_feasibility bess (map (overlay_row asf (as_rows asf)) cop0)),
         (map (overlay_row asf (as_rows asf)) (_ensure_soc_feasibility bess cop0)).
  split; [|split].
  - unfold generate_cop. unfold base_plan in Hbase. rewrite Hbase. simpl.
    rewrite apply_as_commitments_map by assumption. reflexivity.
  - unfold generate_cop_repair_first. rewrite Hbase. simpl.
    rewrite apply_as_commitments_map;
      [reflexivity | rewrite ensure_soc_feasibility_hours; exact Hnd | exact Ha].
  - apply ensure_soc_feasibility_commute.
    + apply overlay_row_soc.
    + apply overlay_row_set_soc.
    + apply overlay_row_target.
Qed.

(** C4, as stated, fails: for the demonstration resource, one day from
    midnight and a regulation commitment in the second hour, the plan
    returned carries the target the repair forces on that hour
    ([lsl = -100]), where the overlay applied after the repair would leave
    0. *)
Lemma generate_cop_not_repair_first :
  exists cop cop',
    generate_cop bess_west 0%Z 1 None (Some regulation_second_hour) = Ok cop /\
    generate_cop_repair_first bess_west 0%Z 1 None regulation_second_hour = Ok cop' /\
    map (fun row => (status (base row), target_mw (base row))) (firstn 3 cop)
    = [(ON, -80); (ONREG, -100); (ON, -100)] /\
    map (fun row => (status (base row), target_mw (base row))) (firstn 3 cop')
    = [(ON, -80); (ONREG, 0); (ON, -100)] /\
    cop <> cop'.
Proof.
  eexists _, _. split; [vm_compute; reflexivity|].
  split; [vm_compute; reflexivity|].
  split; [vm_compute; reflexivity|]. split; [vm_compute; reflexivity|].
  intros H.
  apply (f_equal (fun c => map (fun row => target_mw (base row)) (firstn 2 c))) in H.
  vm_compute in H. discriminate H.
Qed.

(** ** The generator's plan against its own validator (C1) *)

(** C1 on the demonstration resource: the seven-day default plan from
    midnight is returned with its 168 hours, and the validator reports it
    invalid, with 105 errors, the first of them SOC_INFEASIBLE_DISCHARGE
    for the hour at position 3.  At that hour the repaired [soc_begin] is
    200 while [soc_min], computed before the repair, is 1032/5 = 206.4. *)
Theorem default_plan_fails_validation :
  exists cop,
    generate_cop bess_west 0%Z 7 None None = Ok cop /\
    List.length cop = 168%nat /\
    let r := fst (validate (COPValidator_init bess_west) cop) in
    valid r = false /\
    error_count r = 105%nat /\
    hd_error (errors r) = Some (discharge_finding 3) /\
    option_map (fun row => (soc_begin (base row), soc_min (base row)))
               (nth_error cop 3)
    = Some (200, 1032 # 5).
Proof.
  eexists. split; [vm_compute; reflexivity|].
  vm_compute. repeat split; reflexivity.
Qed.

(** ** The report of the validator, check by check *)

Lemma validate_data_completeness_id (self : COPValidator) (cop : list CopRow) :
  _validate_data_completeness self cop = self.
Proof. reflexivity. Qed.

Lemma validate_errors_eq (self : COPValidator) (cop : list CopRow) :
  errors (fst (validate self cop))
  = soc_feasibility_loop (efficiency (v_bess self)) 0 cop
    ++ flat_map (soc_bounds_errors (v_bess self)) cop.
Proof.
  unfold validate, fst, errors.
  unfold _validate_timeline_requirements.
  rewrite validate_data_completeness_id.
  destruct (_ <? _)%nat; reflexivity.
Qed.

Lemma validate_warnings_eq (self : COPValidator) (cop : list CopRow) :
  warnings (fst (validate self cop))
  = flat_map soc_bounds_warnings cop
    ++ ramp_rate_loop 0 cop
    ++ flat_map as_requirements_row cop
    ++ (if (List.length cop <? 168)%nat then [horizon_finding] else []).
Proof.
  unfold validate, fst, warnings.
  unfold _validate_timeline_requirements.
  rewrite validate_data_completeness_id.
  destruct (_ <? _)%nat; simpl; rewrite <- ?app_assoc, ?app_nil_r; reflexivity.
Qed.

Lemma nil_iff_nothing_in {A : Type} (l : list A) :
  l = [] <-> forall a, ~ In a l.
Proof.
  split.
  - intros -> a [].
  - intros H. destruct l as [|a l]; [reflexivity|].
    exfalso. apply (H a). left. reflexivity.
Qed.

Lemma soc_bounds_errors_spec (bess : BESSParameters) (row : CopRow) (f : Finding) :
  In f (soc_bounds_errors bess row) <->
  (f = below_min_finding (hour_ending (base row)) /\
   soc_begin (base row) < min_soc bess) \/
  (f = above_max_finding (hour_ending (base row)) /\
   min_soc bess <= soc_begin (base row) /\
   max_soc bess < soc_begin (base row)).
Proof.
  unfold soc_bounds_errors.
  destruct (_ <? _) eqn:E1; [|destruct (_ >? _) eqn:E2]; q_tests; simpl.
  - split.
    + intros [<-|[]]. left. split; [reflexivity | assumption].
    + intros [[-> _]|[_ [H _]]]; [left; reflexivity | exfalso; lra].
  - split.
    + intros [<-|[]]. right. repeat split; assumption.
    + intros [[_ H]|[-> _]]; [exfalso; lra | left; reflexivity].
  - split; [intros []|]. intros [[_ H]|[_ [_ H]]]; lra.
Qed.

Lemma soc_bounds_errors_nil (bess : BESSParameters) (cop : list CopRow) :
  flat_map (soc_bounds_errors bess) cop = [] <-> Forall (within_limits bess) cop.
Proof.
  rewrite nil_iff_nothing_in, Forall_forall. split.
  - intros H row Hrow. unfold within_limits. split.
    + apply Qnot_lt_le. intros Hlt.
      apply (H (below_min_finding (hour_ending (base row)))).
      apply in_flat_map. exists row. split; [exact Hrow|].
      apply soc_bounds_errors_spec. left. auto.
    + apply Qnot_lt_le. intros Hgt.
      destruct (Qlt_le_dec (soc_begin (base row)) (min_soc bess)) as [Hlt|Hle].
      * apply (H (below_min_finding (hour_ending (base row)))).
        apply in_flat_map. exists row. split; [exact Hrow|].
        apply soc_bounds_errors_spec. left. auto.
      * apply (H (above_max_finding (hour_ending (base row)))).
        apply in_flat_map. exists row. split; [exact Hrow|].
        apply soc_bounds_errors_spec. right. auto.
  - intros H f Hf. apply in_flat_map in Hf. destruct Hf as (row & Hrow & Hf).
    destruct (H row Hrow) as [Hlo Hhi].
    apply soc_bounds_errors_spec in Hf.
    destruct Hf as [[_ Hf]|[_ [_ Hf]]]; lra.
Qed.

(** The finding types each check can report. *)
Lemma soc_feasibility_loop_types (eff : Q) (cop : list CopRow) (f : Finding) :
  In f (soc_feasibility_loop eff 0 cop) ->
  f_type f = SOC_INFEASIBLE_CHARGE \/ f_type f = SOC_INFEASIBLE_DISCHARGE.
Proof.
  intros H. apply soc_feasibility_loop_spec in H.
  destruct H as (k & cu & nx & _ & _ & H).
  apply soc_feasibility_pair_spec in H.
  destruct H as [[-> _]|[-> _]]; [left | right]; reflexivity.
Qed.

Lemma soc_bounds_errors_types (bess : BESSParameters) (cop : list CopRow)
  (f : Finding) :
  In f (flat_map (soc_bounds_errors bess) cop) ->
  f_type f = SOC_BELOW_MIN \/ f_type f = SOC_ABOVE_MAX.
Proof.
  intros H. apply in_flat_map in H. destruct H as (row & _ & H).
  apply soc_bounds_errors_spec in H.
  destruct H as [[-> _]|[-> _]]; [left | right]; reflexivity.
Qed.

Lemma soc_bounds_warnings_spec (row : CopRow) (f : Finding) :
  In f (soc_bounds_warnings row) <->
  (f = min_inconsistent_finding (hour_ending (base row)) /\
   soc_begin (base row) < soc_min (base row)) \/
  (f = max_inconsistent_finding (hour_ending (base row)) /\
   soc_max (base row) < soc_begin (base row)).
Proof.
  unfold soc_bounds_warnings. rewrite in_app_iff.
  destruct (_ >? _) eqn:E1; destruct (_ <? _) eqn:E2; q_tests; simpl; split.
  - intros [[<-|[]]|[<-|[]]]; [left | right]; split; auto.
  - intros [[-> _]|[-> _]]; auto.
  - intros [[<-|[]]|[]]. left. split; auto.
  - intros [[-> _]|[_ H]]; [auto | exfalso; lra].
  - intros [[]|[<-|[]]]. right. split; auto.
  - intros [[_ H]|[-> _]]; [exfalso; lra | auto].
  - intros [[]|[]].
  - intros [[_ H]|[_ H]]; exfalso; lra.
Qed.

Lemma soc_bounds_warnings_types (cop : list CopRow) (f : Finding) :
  In f (flat_map soc_bounds_warnings cop) ->
  f_type f = SOC_MIN_INCONSISTENT \/ f_type f = SOC_MAX_INCONSISTENT.
Proof.
  intros H. apply in_flat_map in H. destruct H as (row & _ & H).
  apply soc_bounds_warnings_spec in H.
  destruct H as [[-> _]|[-> _]]; [left | right]; reflexivity.
Qed.

Lemma ResourceStatus_eqb_eq (a b : ResourceStatus) :
  ResourceStatus_eqb a b = true <-> a = b.
Proof.
  split; [|intros ->; destruct b; reflexivity].
  destruct a, b; simpl; intros H; try reflexivity; discriminate H.
Qed.

Lemma ramp_rate_pair_spec (i : nat) (current next_hour : CopRow) (f : Finding) :
  In f (ramp_rate_pair i current next_hour) <->
  f = ramp_finding i /\ ramp_exceeded current next_hour.
Proof.
  unfold ramp_rate_pair, ramp_exceeded.
  destruct (ResourceStatus_eqb _ _) eqn:Es; simpl.
  - apply ResourceStatus_eqb_eq in Es.
    destruct (_ >? _) eqn:E; q_tests; simpl; split.
    + intros [<-|[]]. auto.
    + intros [-> _]. left. reflexivity.
    + intros [].
    + intros [_ [_ H]]. lra.
  - split; [intros []|]. intros [_ [H _]].
    apply ResourceStatus_eqb_eq in H. congruence.
Qed.

Lemma ramp_rate_loop_spec (cop : list CopRow) :
  forall (i0 : nat) (f : Finding),
    In f (ramp_rate_loop i0 cop) <->
    exists k current next_hour,
      nth_error cop k = Some current /\
      nth_error cop (S k) = Some next_hour /\
      In f (ramp_rate_pair (i0 + k) current next_hour).
Proof.
  induction cop as [|c cop IH]; intros i0 f.
  - simpl. split; [intros [] | intros (k & cu & nx & H & _)].
    destruct k; discriminate H.
  - destruct cop as [|n cop].
    + simpl. split; [intros [] | intros (k & cu & nx & _ & H & _)].
      destruct k; discriminate H.
    + change (ramp_rate_loop i0 (c :: n :: cop))
        with (ramp_rate_pair i0 c n ++ ramp_rate_loop (S i0) (n :: cop)).
      rewrite in_app_iff, IH. split.
      * intros [H|(k & cu & nx & H1 & H2 & H3)].
        -- exists O, c, n. rewrite Nat.add_0_r. auto.
        -- exists (S k), cu, nx. rewrite Nat.add_succ_r. auto.
      * intros (k & cu & nx & H1 & H2 & H3). destruct k as [|k].
        -- left. simpl in H1, H2. injection H1 as <-. injection H2 as <-.
           rewrite Nat.add_0_r in H3. exact H3.
        -- right. exists k, cu, nx. rewrite Nat.add_succ_r in H3. auto.
Qed.

Lemma ramp_rate_loop_types (cop : list CopRow) (f : Finding) :
  In f (ramp_rate_loop 0 cop) -> f_type f = RAMP_RATE_EXCEEDED.
Proof.
  intros H. apply ramp_rate_loop_spec in H.
  destruct H as (k & cu & nx & _ & _ & H).
  apply ramp_rate_pair_spec in H. destruct H as [-> _]. reflexivity.
Qed.

Lemma as_requirements_row_spec (row : CopRow) (f : Finding) :
  In f (as_requirements_row row) <->
  (f = rrs_finding (hour_ending (base row)) /\
   status (base row) = ONRR /\
   soc_begin (base row) < row_hsl (base row) *! 1.0) \/
  (f = ecrs_finding (hour_ending (base row)) /\
   status (base row) = ONECRS /\
   soc_begin (base row) < row_hsl (base row) *! 2.0).
Proof.
  unfold as_requirements_row.
  destruct (ResourceStatus_eqb _ ONRR) eqn:E1.
  - apply ResourceStatus_eqb_eq in E1.
    destruct (_ <? _) eqn:E; q_tests; simpl; split.
    + intros [<-|[]]. left. auto.
    + intros [[-> _]|[_ [H _]]]; [left; reflexivity | congruence].
    + intros [].
    + intros [[_ [_ H]]|[_ [H _]]]; [lra | congruence].
  - assert (Hne : status (base row) <> ONRR).
    { intros H. apply ResourceStatus_eqb_eq in H. congruence. }
    destruct (ResourceStatus_eqb _ ONECRS) eqn:E2.
    + apply ResourceStatus_eqb_eq in E2.
      destruct (_ <? _) eqn:E; q_tests; simpl; split.
      * intros [<-|[]]. right. auto.
      * intros [[_ [H _]]|[-> _]]; [contradiction | left; reflexivity].
      * intros [].
      * intros [[_ [H _]]|[_ [_ H]]]; [contradiction | lra].
    + assert (Hne' : status (base row) <> ONECRS).
      { intros H. apply ResourceStatus_eqb_eq in H. congruence. }
      simpl. split; [intros []|].
      intros [[_ [H _]]|[_ [H _]]]; contradiction.
Qed.

Lemma as_requirements_types (cop : list CopRow) (f : Finding) :
  In f (flat_map as_requirements_row cop) ->
  f_type f = INSUFFICIENT_SOC_FOR_RRS \/ f_type f = INSUFFICIENT_SOC_FOR_ECRS.
Proof.
  intros H. apply in_flat_map in H. destruct H as (row & _ & H).
  apply as_requirements_row_spec in H.
  destruct H as [[-> _]|[-> _]]; [left | right]; reflexivity.
Qed.

Lemma horizon_types (cop : list CopRow) (f : Finding) :
  In f (if (List.length cop <? 168)%nat then [horizon_finding] else []) ->
  f_type f = INSUFFICIENT_HORIZON.
Proof.
  destruct (_ <? _)%nat; [|intros []]. intros [<-|[]]. reflexivity.
Qed.

(** Membership of a finding in the warnings of a report, by the check that
    can report its type. *)
Ltac other_check H :=
  first
    [ apply soc_feasibility_loop_types in H
    | apply soc_bounds_errors_types in H
    | apply soc_bounds_warnings_types in H
    | apply ramp_rate_loop_types in H
    | apply as_requirements_types in H
    | apply horizon_types in H ];
  simpl in H; intuition discriminate.

(** X2.  The SOC-bounds check on its own terms: an hour is reported
    SOC_BELOW_MIN exactly when its [soc_begin] is below the profile's
    [min_soc], SOC_ABOVE_MAX exactly when it is not and its [soc_begin] is
    above [max_soc] (both errors), SOC_MIN_INCONSISTENT exactly when its
    [soc_min] is above its [soc_begin] and SOC_MAX_INCONSISTENT exactly when
    its [soc_max] is below it (both warnings); each finding carries the
    timestamp of the hour. *)
Theorem validate_soc_bounds_findings (self : COPValidator) (cop : list CopRow)
  (t : Timestamp) :
  let r := fst (validate self cop) in
  (In (below_min_finding t) (errors r) <->
   exists row, In row cop /\ hour_ending (base row) = t /\
               soc_begin (base row) < min_soc (v_bess self)) /\
  (In (above_max_finding t) (errors r) <->
   exists row, In row cop /\ hour_ending (base row) = t /\
               min_soc (v_bess self) <= soc_begin (base row) /\
               max_soc (v_bess self) < soc_begin (base row)) /\
  (In (min_inconsistent_finding t) (warnings r) <->
   exists row, In row cop /\ hour_ending (base row) = t /\
               soc_begin (base row) < soc_min (base row)) /\
  (In (max_inconsistent_finding t) (warnings r) <->
   exists row, In row cop /\ hour_ending (base row) = t /\
               soc_max (base row) < soc_begin (base row)).
Proof.
  intros r. subst r. rewrite validate_errors_eq, validate_warnings_eq.
  repeat split.
  - rewrite in_app_iff. intros [H|H]; [other_check H|].
    apply in_flat_map in H. destruct H as (row & Hrow & H).
    apply soc_bounds_errors_spec in H.
    destruct H as [[He H]|[He _]]; [|discriminate He].
    injection He as ->. eauto.
  - intros (row & Hrow & <- & H). apply in_app_iff. right.
    apply in_flat_map. exists row. split; [exact Hrow|].
    apply soc_bounds_errors_spec. left. auto.
  - rewrite in_app_iff. intros [H|H]; [other_check H|].
    apply in_flat_map in H. destruct H as (row & Hrow & H).
    apply soc_bounds_errors_spec in H.
    destruct H as [[He _]|[He H]]; [discriminate He|].
    injection He as ->. eauto.
  - intros (row & Hrow & <- & H). apply in_app_iff. right.
    apply in_flat_map. exists row. split; [exact Hrow|].
    apply soc_bounds_errors_spec. right. auto.
  - rewrite !in_app_iff. intros [H|[H|[H|H]]]; try other_check H.
    apply in_flat_map in H. destruct H as (row & Hrow & H).
    apply soc_bounds_warnings_spec in H.
    destruct H as [[He H]|[He _]]; [|discriminate He].
    injection He as ->. eauto.
  - intros (row & Hrow & <- & H). apply in_app_iff. left.
    apply in_flat_map. exists row. split; [exact Hrow|].
    apply soc_bounds_warnings_spec. left. auto.
  - rewrite !in_app_iff. intros [H|[H|[H|H]]]; try other_check H.
    apply in_flat_map in H. destruct H as (row & Hrow & H).
    apply soc_bounds_warnings_spec in H.
    destruct H as [[He _]|[He H]]; [discriminate He|].
    injection He as ->. eauto.
  - intros (row & Hrow & <- & H). apply in_app_iff. left.
    apply in_flat_map. exists row. split; [exact Hrow|].
    apply soc_bounds_warnings_spec. right. auto.
Qed.

(** X4.  The reserve check: an hour is reported INSUFFICIENT_SOC_FOR_RRS
    exactly when its status is ONRR and its [soc_begin] is below one hour at
    its [hsl], INSUFFICIENT_SOC_FOR_ECRS exactly when its status is ONECRS
    and its [soc_begin] is below two hours at its [hsl]; both are warnings,
    and an hour of any other status is never reported by this check. *)
Theorem validate_as_findings (self : COPValidator) (cop : list CopRow)
  (t : Timestamp) :
  let r := fst (validate self cop) in
  (In (rrs_finding t) (warnings r) <->
   exists row, In row cop /\ hour_ending (base row) = t /\
               status (base row) = ONRR /\
               soc_begin (base row) < row_hsl (base row) *! 1.0) /\
  (In (ecrs_finding t) (warnings r) <->
   exists row, In row cop /\ hour_ending (base row) = t /\
               status (base row) = ONECRS /\
               soc_begin (base row) < row_hsl (base row) *! 2.0) /\
  ~ In (rrs_finding t) (errors r) /\
  ~ In (ecrs_finding t) (errors r).
Proof.
  intros r. subst r. rewrite validate_errors_eq, validate_warnings_eq.
  repeat split.
  - rewrite !in_app_iff. intros [H|[H|[H|H]]]; try other_check H.
    apply in_flat_map in H. destruct H as (row & Hrow & H).
    apply as_requirements_row_spec in H.
    destruct H as [[He H]|[He _]]; [|discriminate He].
    injection He as ->. destruct H. eauto.
  - intros (row & Hrow & <- & H). rewrite !in_app_iff. right; right; left.
    apply in_flat_map. exists row. split; [exact Hrow|].
    apply as_requirements_row_spec. left. tauto.
  - rewrite !in_app_iff. intros [H|[H|[H|H]]]; try other_check H.
    apply in_flat_map in H. destruct H as (row & Hrow & H).
    apply as_requirements_row_spec in H.
    destruct H as [[He _]|[He H]]; [discriminate He|].
    injection He as ->. destruct H. eauto.
  - intros (row & Hrow & <- & H). rewrite !in_app_iff. right; right; left.
    apply in_flat_map. exists row. split; [exact Hrow|].
    apply as_requirements_row_spec. right. tauto.
  - rewrite in_app_iff. intros [H|H]; other_check H.
  - rewrite in_app_iff. intros [H|H]; other_check H.
Qed.

(** ** The overlay, for any frames *)

Lemma overlay_frame_refl (r : Row) : overlay_frame r r.
Proof.
  unfold overlay_frame. repeat split; try reflexivity; try (left; reflexivity).
  apply Qle_refl.
Qed.

Lemma overlay_frame_trans (r1 r2 r3 : Row) :
  overlay_frame r1 r2 -> overlay_frame r2 r3 -> overlay_frame r1 r3.
Proof.
  unfold overlay_frame.
  intros (A1 & A2 & A3 & A4 & A5 & A6 & A7 & A8 & A9 & A10 & A11)
         (B1 & B2 & B3 & B4 & B5 & B6 & B7 & B8 & B9 & B10 & B11).
  repeat split; try congruence.
  - eapply Qle_trans; eassumption.
  - destruct B10 as [B|B]; [rewrite B; exact A10 | right; exact B].
  - destruct B11 as [B|B]; [rewrite B; exact A11 | right; exact B].
Qed.

Lemma Forall2_refl_on {A : Type} (R : A -> A -> Prop) (l : list A) :
  (forall a, R a a) -> Forall2 R l l.
Proof. intros H. induction l; constructor; auto. Qed.

Lemma Forall2_trans_on {A : Type} (R : A -> A -> Prop) (l1 l2 l3 : list A) :
  (forall a b c, R a b -> R b c -> R a c) ->
  Forall2 R l1 l2 -> Forall2 R l2 l3 -> Forall2 R l1 l3.
Proof.
  intros Ht H12. revert l3. induction H12 as [|a b l1 l2 Hab _ IH]; intros l3 H23.
  - inversion H23. constructor.
  - inversion H23 as [|? c ? l3' Hbc H23']; subst. constructor; eauto.
Qed.

Lemma update_label_frame (R : Row -> Row -> Prop) (hour : Timestamp)
  (f : Row -> Row) (cop : list Row) :
  (forall r, R r r) ->
  (forall r, In r cop -> hour_ending r = hour -> R r (f r)) ->
  Forall2 R cop (update_label hour f cop).
Proof.
  intros Hrefl. unfold update_label.
  induction cop as [|r cop IH]; intros Hf; simpl; constructor.
  - destruct (hour_ending r =? hour)%Z eqn:E; [|apply Hrefl].
    apply Hf; [left; reflexivity | apply Z.eqb_eq, E].
  - apply IH. intros r' Hr'. apply Hf. right. exact Hr'.
Qed.

Lemma cop_soc_min_ok (cop : list Row) (hour : Timestamp) (m : Q) :
  cop_soc_min cop hour = Ok m ->
  forall r, In r cop -> hour_ending r = hour -> soc_min r = m.
Proof.
  unfold cop_soc_min. intros H r Hr Hh.
  assert (Hin : In r (filter (fun r => (hour_ending r =? hour)%Z) cop)).
  { apply filter_In. split; [exact Hr | apply Z.eqb_eq, Hh]. }
  destruct (filter _ cop) as [|r0 [|r1 l]]; try discriminate H.
  injection H as <-. destruct Hin as [->|[]]. reflexivity.
Qed.

Lemma apply_as_hour_frame (asf : ASFrame) (cop cop' : list Row) (hour : Timestamp) :
  apply_as_hour asf cop hour = Ok cop' -> Forall2 overlay_frame cop cop'.
Proof.
  unfold apply_as_hour.
  destruct (in_index hour cop);
    [|intros H; injection H as <-; apply Forall2_refl_on, overlay_frame_refl].
  destruct (as_cell asf (has_regulation asf) regulation hour) as [reg_mw|e];
    [simpl | discriminate].
  destruct (reg_mw >? 0).
  { intros H. injection H as <-.
    apply Forall2_trans_on with (l2 := update_label hour (set_status ONREG) cop);
      [apply overlay_frame_trans | |];
      apply update_label_frame; try apply overlay_frame_refl;
      intros r _ _; unfold overlay_frame; simpl;
      repeat split; try reflexivity; try apply Qle_refl; auto. }
  destruct (as_cell asf (has_rrs asf) rrs hour) as [rrs_mw|e];
    [simpl | discriminate].
  destruct (rrs_mw >? 0).
  { destruct (cop_soc_min (update_label hour (set_status ONRR) cop) hour)
      as [m|e] eqn:Em; [simpl | discriminate].
    intros H. injection H as <-.
    apply Forall2_trans_on with (l2 := update_label hour (set_status ONRR) cop);
      [apply overlay_frame_trans | |];
      apply update_label_frame; try apply overlay_frame_refl.
    - intros r _ _; unfold overlay_frame; simpl;
        repeat split; try reflexivity; try apply Qle_refl; auto.
    - intros r Hr Hh. rewrite <- (cop_soc_min_ok _ _ _ Em r Hr Hh).
      unfold overlay_frame; simpl.
      repeat split; try reflexivity; auto. apply Q.le_max_l. }
  destruct (as_cell asf (has_ecrs asf) ecrs hour) as [ecrs_mw|e];
    [simpl | discriminate].
  destruct (ecrs_mw >? 0).
  { destruct (cop_soc_min (update_label hour (set_status ONECRS) cop) hour)
      as [m|e] eqn:Em; [simpl | discriminate].
    intros H. injection H as <-.
    apply Forall2_trans_on with (l2 := update_label hour (set_status ONECRS) cop);
      [apply overlay_frame_trans | |];
      apply update_label_frame; try apply overlay_frame_refl.
    - intros r _ _; unfold overlay_frame; simpl;
        repeat split; try reflexivity; try apply Qle_refl; auto.
    - intros r Hr Hh. rewrite <- (cop_soc_min_ok _ _ _ Em r Hr Hh).
      unfold overlay_frame; simpl.
      repeat split; try reflexivity; auto. apply Q.le_max_l. }
  intros H; injection H as <-; apply Forall2_refl_on, overlay_frame_refl.
Qed.

Lemma apply_as_loop_frame (asf : ASFrame) (hours : list Timestamp) :
  forall cop cop',
    apply_as_loop asf hours cop = Ok cop' -> Forall2 overlay_frame cop cop'.
Proof.
  induction hours as [|hour hours IH]; intros cop cop' H; simpl in H.
  - injection H as <-. apply Forall2_refl_on, overlay_frame_refl.
  - destruct (apply_as_hour asf cop hour) as [cop1|e] eqn:E; [|discriminate H].
    simpl in H.
    eapply Forall2_trans_on;
      [apply overlay_frame_trans | eapply apply_as_hour_frame, E | apply IH, H].
Qed.

(** X5.  Whatever the two frames hold, a plan the overlay returns has the
    hours of the plan it was given, in the same number and order; in each
    hour [soc_begin], [soc_max], [hsl], [lsl], the mode and the price are
    untouched, the reserve floor [soc_min] is never lowered, [target_mw] is
    kept or set to 0 and the status is kept or becomes ONREG, ONRR or
    ONECRS. *)
Theorem apply_as_commitments_frame (cop cop' : list Row) (asf : ASFrame) :
  _apply_as_commitments cop asf = Ok cop' ->
  Forall2 overlay_frame cop cop'.
Proof. apply apply_as_loop_frame. Qed.

Lemma overlay_frame_hours (cop cop' : list Row) :
  Forall2 overlay_frame cop cop' -> map hour_ending cop' = map hour_ending cop.
Proof.
  induction 1 as [|r r' cop cop' Hr _ IH]; simpl; [reflexivity|].
  destruct Hr as [Hr _]. rewrite Hr, IH. reflexivity.
Qed.

Lemma in_index_hours (hour : Timestamp) (cop cop' : list Row) :
  map hour_ending cop' = map hour_ending cop ->
  in_index hour cop' = in_index hour cop.
Proof.
  intros H. unfold in_index.
  assert (G : forall l, existsb (fun r => (hour_ending r =? hour)%Z) l
                        = existsb (fun t => (t =? hour)%Z) (map hour_ending l)).
  { induction l as [|x l IH]; simpl; [reflexivity | rewrite IH; reflexivity]. }
  rewrite !G, H. reflexivity.
Qed.

Lemma as_cell_repeated (asf : ASFrame) (col : ASRow -> Q) (hour : Timestamp) :
  (2 <= count_label hour (as_rows asf))%nat ->
  as_cell asf true col hour = Raise ValueError.
Proof.
  unfold count_label, as_cell. intros H.
  destruct (filter (fun kp => (fst kp =? hour)%Z) (as_rows asf))
    as [|a [|b l]]; simpl in H; [lia | lia | reflexivity].
Qed.

Lemma apply_as_hour_repeated (asf : ASFrame) (cop : list Row) (hour : Timestamp) :
  (2 <= count_label hour (as_rows asf))%nat ->
  in_index hour cop = true ->
  has_product_column asf = true ->
  apply_as_hour asf cop hour = Raise ValueError.
Proof.
  intros Hc Hin Hp. unfold apply_as_hour. rewrite Hin.
  unfold has_product_column in Hp.
  destruct (has_regulation asf).
  { rewrite as_cell_repeated by assumption. reflexivity. }
  simpl. change (0 >? 0) with false. cbv iota.
  destruct (has_rrs asf).
  { rewrite as_cell_repeated by assumption. reflexivity. }
  simpl. change (0 >? 0) with false. cbv iota.
  destruct (has_ecrs asf); [|discriminate Hp].
  rewrite as_cell_repeated by assumption. reflexivity.
Qed.

Lemma apply_as_loop_repeated (asf : ASFrame) (hour : Timestamp)
  (hours : list Timestamp) :
  (2 <= count_label hour (as_rows asf))%nat ->
  has_product_column asf = true ->
  forall cop,
    In hour hours -> in_index hour cop = true ->
    apply_as_loop asf hours cop = Raise ValueError.
Proof.
  intros Hc Hp. induction hours as [|h hours IH]; intros cop Hin Hidx; [destruct Hin|].
  simpl. destruct (apply_as_hour asf cop h) as [cop1|e] eqn:E.
  - simpl. destruct Hin as [->|Hin].
    + rewrite apply_as_hour_repeated in E by assumption. discriminate E.
    + apply IH; [exact Hin|].
      rewrite (in_index_hours hour cop cop1); [exact Hidx|].
      apply overlay_frame_hours. eapply apply_as_hour_frame, E.
  - destruct e. reflexivity.
Qed.

Lemma count_label_in {A : Type} (hour : Timestamp) (rows : list (Timestamp * A)) :
  (1 <= count_label hour rows)%nat -> In hour (map fst rows).
Proof.
  unfold count_label. intros H.
  destruct (filter (fun kp => (fst kp =? hour)%Z) rows) as [|kp l] eqn:E;
    [simpl in H; lia|].
  assert (Hin : In kp (filter (fun kp => (fst kp =? hour)%Z) rows))
    by (rewrite E; left; reflexivity).
  apply filter_In in Hin. destruct Hin as [Hin Hk].
  apply Z.eqb_eq in Hk. subst hour. apply in_map, Hin.
Qed.

(** X6.  Repeated labels make the overlay fail: if a label occurs twice or
    more in [as_commitments], is a label of the plan, and the frame has at
    least one of the columns [regulation], [rrs], [ecrs], then
    [_apply_as_commitments] raises ValueError and returns no plan. *)
Theorem apply_as_commitments_repeated_label (cop : list Row) (asf : ASFrame) :
  repeated_label_in_plan cop asf ->
  has_product_column asf = true ->
  _apply_as_commitments cop asf = Raise ValueError.
Proof.
  intros (hour & Hc & Hidx) Hp. unfold _apply_as_commitments.
  apply apply_as_loop_repeated with (hour := hour); try assumption.
  apply count_label_in. lia.
Qed.

Lemma apply_as_loop_foreign (asf : ASFrame) (hours : list Timestamp) (cop : list Row) :
  (forall hour, In hour hours -> in_index hour cop = false) ->
  apply_as_loop asf hours cop = Ok cop.
Proof.
  induction hours as [|h hours IH]; intros H; [reflexivity|].
  simpl. unfold apply_as_hour. rewrite (H h) by (left; reflexivity).
  simpl. apply IH. intros hour Hin. apply H. right. exact Hin.
Qed.

Lemma apply_as_loop_no_column (asf : ASFrame) (hours : list Timestamp) (cop : list Row) :
  has_product_column asf = false ->
  apply_as_loop asf hours cop = Ok cop.
Proof.
  unfold has_product_column. intros H.
  apply orb_false_iff in H. destruct H as [H H3].
  apply orb_false_iff in H. destruct H as [H1 H2].
  induction hours as [|h hours IH]; [reflexivity|].
  simpl. unfold apply_as_hour, as_cell. rewrite H1, H2, H3.
  destruct (in_index h cop); simpl; exact IH.
Qed.

(** X7.  Commitments that cannot apply leave the plan as it is and never
    raise, repeated labels or not: when no label of [as_commitments] is a
    label of the plan (in particular when the frame has no rows), and when
    the frame has none of the columns [regulation], [rrs], [ecrs], the
    overlay returns the plan it was given. *)
Theorem apply_as_commitments_nothing_to_apply (cop : list Row) (asf : ASFrame) :
  (forall hour, In hour (map fst (as_rows asf)) -> in_index hour cop = false) \/
  has_product_column asf = false ->
  _apply_as_commitments cop asf = Ok cop.
Proof.
  intros [H|H]; unfold _apply_as_commitments.
  - apply apply_as_loop_foreign, H.
  - apply apply_as_loop_no_column, H.
Qed.

Lemma py_max_idem (s x : Q) : py_max (py_max s x) x = py_max s x.
Proof.
  unfold py_max, Qmax, GenericMinMax.gmax.
  destruct (s ?= x) eqn:E; try rewrite E; try reflexivity.
  assert (Hx : (x ?= x) = Eq) by (apply Qeq_alt; reflexivity).
  rewrite Hx. reflexivity.
Qed.

Lemma overlay_idem (asf : ASFrame) (a : ASRow) (r : Row) :
  overlay asf a (overlay asf a r) = overlay asf a r.
Proof.
  unfold overlay.
  destruct (reg_mw_of asf a >? 0) eqn:E1; [rewrite ?E1; reflexivity|].
  destruct (rrs_mw_of asf a >? 0) eqn:E2.
  { simpl. rewrite py_max_idem. reflexivity. }
  destruct (ecrs_mw_of asf a >? 0) eqn:E3.
  { simpl. rewrite py_max_idem. reflexivity. }
  reflexivity.
Qed.

Lemma overlay_row_hour_ending (asf : ASFrame) (entries : list (Timestamp * ASRow))
  (r : Row) :
  hour_ending (overlay_row asf entries r) = hour_ending r.
Proof.
  unfold overlay_row. destruct (commitment_of entries r);
    [apply overlay_hour_ending | reflexivity].
Qed.

Lemma overlay_row_idem (asf : ASFrame) (entries : list (Timestamp * ASRow))
  (r : Row) :
  overlay_row asf entries (overlay_row asf entries r) = overlay_row asf entries r.
Proof.
  unfold overlay_row at 1.
  assert (Hc : commitment_of entries (overlay_row asf entries r)
               = commitment_of entries r).
  { unfold commitment_of. rewrite overlay_row_hour_ending. reflexivity. }
  rewrite Hc. unfold overlay_row.
  destruct (commitment_of entries r); [apply overlay_idem | reflexivity].
Qed.

(** X8.  The overlay is idempotent: with labels that are not repeated in
    the plan or in [as_commitments], it returns a plan, and overlaying the
    same commitments on that plan returns it unchanged. *)
Theorem apply_as_commitments_idempotent (cop : list Row) (asf : ASFrame) :
  NoDup (map hour_ending cop) ->
  NoDup (map fst (as_rows asf)) ->
  exists cop',
    _apply_as_commitments cop asf = Ok cop' /\
    _apply_as_commitments cop' asf = Ok cop'.
Proof.
  intros Hc Ha. exists (map (overlay_row asf (as_rows asf)) cop).
  split; [apply apply_as_commitments_map; assumption|].
  rewrite apply_as_commitments_map; [|rewrite map_map|exact Ha].
  - f_equal. rewrite map_map. apply map_ext. intros r. apply overlay_row_idem.
  - rewrite (map_ext _ hour_ending); [exact Hc|].
    intros r. apply overlay_row_hour_ending.
Qed.

(** ** The repair: targets and step sizes *)

Lemma feasibility_loop_target (bess : BESSParameters) (rest : list Row) :
  forall cur0 cur,
    target_mw cur = target_mw cur0 ->
    Forall2 (repair_target bess) (cur0 :: rest) (feasibility_loop bess cur rest) /\
    forall d,
      last (map target_mw (feasibility_loop bess cur rest)) d
      = last (map target_mw (cur0 :: rest)) d.
Proof.
  induction rest as [|nxt rest IH]; intros cur0 cur Hc.
  - simpl. split; [|intros d; exact Hc].
    constructor; [left; exact Hc | constructor].
  - assert (Hlast : forall (v : Q) (x : Row) (t : Q) d,
               last (map target_mw (x :: feasibility_loop bess (set_soc_begin v nxt) rest)) d
               = last (map target_mw (cur0 :: nxt :: rest)) d).
    { intros v x t d.
      destruct (IH nxt (set_soc_begin v nxt) eq_refl) as [_ Hl].
      destruct (feasibility_loop_head bess (set_soc_begin v nxt) rest)
        as (r' & tl & Heq & _).
      rewrite Heq in *. specialize (Hl d). simpl in Hl |- *. exact Hl. }
    assert (Hlast' : forall (x : Row) d,
               last (map target_mw (x :: feasibility_loop bess nxt rest)) d
               = last (map target_mw (cur0 :: nxt :: rest)) d).
    { intros x d.
      destruct (IH nxt nxt eq_refl) as [_ Hl].
      destruct (feasibility_loop_head bess nxt rest) as (r' & tl & Heq & _).
      rewrite Heq in *. specialize (Hl d). simpl in Hl |- *. exact Hl. }
    simpl feasibility_loop.
    destruct (_ >? _); [|destruct (_ <? _)].
    + split; [|intros d; apply Hlast; exact 0].
      constructor; [right; left; reflexivity|].
      apply (IH nxt (set_soc_begin _ nxt) eq_refl).
    + split; [|intros d; apply Hlast; exact 0].
      constructor; [right; right; reflexivity|].
      apply (IH nxt (set_soc_begin _ nxt) eq_refl).
    + split; [|intros d; apply Hlast'].
      constructor; [left; exact Hc|].
      apply (IH nxt nxt eq_refl).
Qed.

Lemma ensure_soc_feasibility_target_rel (bess : BESSParameters) (cop : list Row) :
  Forall2 (repair_target bess) cop (_ensure_soc_feasibility bess cop).
Proof.
  unfold _ensure_soc_feasibility. destruct cop as [|r0 rest]; [constructor|].
  destruct (feasibility_loop_target bess rest r0 r0 eq_refl) as [H1 _].
  apply Forall2_map_r with (S' := repair_target bess); [|exact H1].
  intros a b Hab. exact Hab.
Qed.

(** X9.  The repair changes [target_mw] of an hour only by forcing it to the
    profile's [lsl] or [hsl], and never changes it in the last hour of the
    plan. *)
Theorem ensure_soc_feasibility_targets (bess : BESSParameters) (cop : list Row) :
  Forall2 (repair_target bess) cop (_ensure_soc_feasibility bess cop) /\
  forall d,
    last (map target_mw (_ensure_soc_feasibility bess cop)) d
    = last (map target_mw cop) d.
Proof.
  split; [apply ensure_soc_feasibility_target_rel|].
  unfold _ensure_soc_feasibility. destruct cop as [|r0 rest]; [reflexivity|].
  destruct (feasibility_loop_target bess rest r0 r0 eq_refl) as [_ H2].
  intros d. rewrite map_map.
  rewrite (map_ext (fun x => target_mw (clip_soc bess x)) target_mw)
    by reflexivity.
  apply H2.
Qed.

(** ** The trajectory as a running sum *)

Lemma trajectory_frame_refl (r : Row) : trajectory_frame r r.
Proof. unfold trajectory_frame. repeat split. Qed.



(** ** Generated plans *)

Lemma Forall2_nth_error_r {A B : Type} (R : A -> B -> Prop) (l : list A)
  (l' : list B) :
  Forall2 R l l' ->
  forall i b, nth_error l' i = Some b ->
              exists a, nth_error l i = Some a /\ R a b.
Proof.
  induction 1 as [|a b l l' Hab _ IH]; intros i y Hy.
  - destruct i; discriminate Hy.
  - destruct i as [|i]; simpl in Hy.
    + injection Hy as <-. exists a. split; [reflexivity | exact Hab].
    + apply IH, Hy.
Qed.

Lemma Forall2_Forall_r {A B : Type} (R : A -> B -> Prop) (P : A -> Prop)
  (P' : B -> Prop) (l : list A) (l' : list B) :
  (forall a b, P a -> R a b -> P' b) ->
  Forall2 R l l' -> Forall P l -> Forall P' l'.
Proof.
  intros H H2. induction H2 as [|a b l l' Hab _ IH]; intros HP; constructor.
  - inversion HP; subst. eauto.
  - inversion HP; subst. auto.
Qed.

Lemma Forall2_length_eq {A B : Type} (R : A -> B -> Prop) (l : list A)
  (l' : list B) :
  Forall2 R l l' -> List.length l' = List.length l.
Proof. induction 1; simpl; congruence. Qed.

Lemma generate_cop_inv (bess : BESSParameters) (start_date : Timestamp)
  (days : nat) (price_forecast : option PriceFrame)
  (as_commitments : option ASFrame) (cop : list CopRow) :
  generate_cop bess start_date days price_forecast as_commitments = Ok cop ->
  exists rows0 rows1,
    base_plan bess start_date days price_forecast = Ok rows0 /\
    match as_commitments with
    | Some asf => _apply_as_commitments rows0 asf
    | None => Ok rows0
    end = Ok rows1 /\
    cop = _add_cop_fields bess (_ensure_soc_feasibility bess rows1).
Proof.
  unfold generate_cop, base_plan.
  destruct (match price_forecast with Some pf => _ | None => _ end)
    as [rows0|e]; [simpl | discriminate].
  destruct (match as_commitments with Some asf => _ | None => _ end)
    as [rows1|e] eqn:E; [simpl | discriminate].
  intros H. injection H as <-. exists rows0, rows1. auto.
Qed.

Lemma calculate_soc_trajectory_frame (bess : BESSParameters) (cop : list Row)
  (initial_soc : option Q) :
  Forall2 trajectory_frame cop (_calculate_soc_trajectory bess cop initial_soc).
Proof.
  unfold _calculate_soc_trajectory.
  set (s := match initial_soc with None => _ | Some s => s end). clearbody s.
  apply Forall2_map_r with (S' := trajectory_frame).
  { intros a b Hab. unfold trajectory_frame, set_soc_bounds in *. simpl. exact Hab. }
  destruct cop as [|x cop]; [constructor|]. simpl.
  constructor; [unfold trajectory_frame; simpl; repeat split|].
  generalize (set_soc_begin s x). induction cop as [|y cop IH]; intros prev.
  - constructor.
  - simpl. constructor; [unfold trajectory_frame; simpl; repeat split|].
    apply IH.
Qed.

Lemma default_row_scheduled (bess : BESSParameters) (hour : Timestamp) :
  (mode (default_row bess hour), target_mw (default_row bess hour))
  = scheduled bess (hour_of_day hour) /\
  hour_ending (default_row bess hour) = hour /\
  base_row_ok bess (default_row bess hour).
Proof.
  unfold default_row, scheduled, base_row_ok.
  destruct (_ && _); [simpl; auto 10|].
  destruct (_ && _); [simpl; auto 10|].
  destruct (_ && _); simpl; auto 10.
Qed.

Lemma priced_row_priced (bess : BESSParameters) (has : bool)
  (hp : Timestamp * option Q) :
  (mode (priced_row bess has hp), target_mw (priced_row bess has hp))
  = priced bess (if has then snd hp else Some 50) /\
  hour_ending (priced_row bess has hp) = fst hp /\
  price (priced_row bess has hp) = snd hp /\
  base_row_ok bess (priced_row bess has hp).
Proof.
  destruct hp as [hour cell]. unfold priced_row, priced, base_row_ok. simpl.
  destruct (if has then cell else Some 50) as [p|]; [|simpl; auto 10].
  destruct (_ >? _); [simpl; auto 10|].
  destruct (_ <? _); [simpl; auto 10|].
  destruct (_ >? _); simpl; auto 10.
Qed.

Lemma calculate_soc_trajectory_base_rows (bess : BESSParameters)
  (cop : list Row) (initial_soc : option Q) :
  Forall (base_row_ok bess) cop ->
  Forall (base_row_ok bess) (_calculate_soc_trajectory bess cop initial_soc).
Proof.
  apply Forall2_Forall_r with (R := trajectory_frame);
    [|apply calculate_soc_trajectory_frame].
  intros a b Ha Hab. unfold base_row_ok, trajectory_frame in *.
  destruct Ha as (A1 & A2 & A3 & A4).
  destruct Hab as (B1 & B2 & B3 & B4 & B5 & _).
  repeat split; congruence.
Qed.

Lemma base_plan_rows (bess : BESSParameters) (start_date : Timestamp)
  (days : nat) (price_forecast : option PriceFrame) (rows0 : list Row) :
  base_plan bess start_date days price_forecast = Ok rows0 ->
  Forall (base_row_ok bess) rows0.
Proof.
  unfold base_plan. destruct price_forecast as [pf|].
  - unfold _optimize_for_prices. destruct (_ && _); [discriminate|].
    intros H. injection H as <-.
    apply calculate_soc_trajectory_base_rows, Forall_map, Forall_forall.
    intros hp _. apply priced_row_priced.
  - intros H. injection H as <-. unfold _generate_default_plan.
    apply calculate_soc_trajectory_base_rows, Forall_map, Forall_forall.
    intros hour _. apply default_row_scheduled.
Qed.

Lemma overlay_step_frame (as_commitments : option ASFrame) (rows0 rows1 : list Row) :
  match as_commitments with
  | Some asf => _apply_as_commitments rows0 asf
  | None => Ok rows0
  end = Ok rows1 ->
  Forall2 overlay_frame rows0 rows1.
Proof.
  destruct as_commitments as [asf|].
  - apply apply_as_loop_frame.
  - intros H. injection H as <-. apply Forall2_refl_on, overlay_frame_refl.
Qed.

(** X12.  Every hour of a plan [generate_cop] returns carries the profile:
    its name, [hsl] and [lsl], [hel = hsl] and [lel = lsl], the two normal
    ramp rates and 1.5 times each as emergency ramp rates, the auxiliary
    load, resource type ESR and fuel type BATTERY.  Its status is ON,
    ONREG, ONRR or ONECRS, and ON in every hour when no commitments are
    given. *)
Theorem generate_cop_profile_columns (bess : BESSParameters)
  (start_date : Timestamp) (days : nat) (price_forecast : option PriceFrame)
  (as_commitments : option ASFrame) (cop : list CopRow) :
  generate_cop bess start_date days price_forecast as_commitments = Ok cop ->
  Forall (fun row => profile_columns bess row /\
                     generated_status (status (base row))) cop /\
  (as_commitments = None -> Forall (fun row => status (base row) = ON) cop).
Proof.
  intros H. apply generate_cop_inv in H.
  destruct H as (rows0 & rows1 & H0 & H1 & ->).
  pose proof (base_plan_rows _ _ _ _ _ H0) as Hb.
  pose proof (overlay_step_frame _ _ _ H1) as Ho.
  pose proof (ensure_soc_feasibility_same_frame bess rows1) as He.
  assert (H1' : Forall (fun r => row_resource_name r = resource_name bess /\
                                row_hsl r = hsl bess /\ row_lsl r = lsl bess /\
                                generated_status (status r)) rows1).
  { apply Forall2_Forall_r with (R := overlay_frame) (P := base_row_ok bess)
                                (l := rows0); [|exact Ho | exact Hb].
    intros a b (A1 & A2 & A3 & A4) Hab. unfold overlay_frame in Hab.
    destruct Hab as (_ & B2 & B3 & B4 & _ & _ & _ & _ & _ & _ & B11).
    rewrite A4 in B11. unfold generated_status.
    repeat split; congruence. }
  split.
  - unfold _add_cop_fields. apply Forall_map.
    apply Forall2_Forall_r
      with (R := same_frame) (l := rows1)
           (P := fun r => row_resource_name r = resource_name bess /\
                          row_hsl r = hsl bess /\ row_lsl r = lsl bess /\
                          generated_status (status r));
      [|exact He | exact H1'].
    intros b c (A1 & A2 & A3 & A4) Hbc. unfold same_frame in Hbc.
    destruct Hbc as (_ & C2 & C3 & C4 & C5 & _).
    unfold profile_columns. simpl.
    rewrite <- C3 in A4. repeat split; congruence.
  - intros ->. injection H1 as <-.
    unfold _add_cop_fields. apply Forall_map.
    apply Forall2_Forall_r with (R := same_frame) (P := base_row_ok bess)
                                (l := rows0); [|exact He | exact Hb].
    intros a b (_ & _ & _ & A4) Hab. simpl.
    destruct Hab as (_ & _ & C3 & _). congruence.
Qed.

Lemma ensure_soc_feasibility_in_bounds (bess : BESSParameters) (cop : list Row) :
  min_soc bess <= max_soc bess ->
  Forall (in_bounds bess) (_ensure_soc_feasibility bess cop).
Proof.
  intros H. unfold _ensure_soc_feasibility.
  apply clip_soc_in_bounds, H.
Qed.

(** X13.  For a profile with [min_soc <= max_soc], every hour of a plan
    [generate_cop] returns, with or without forecast and commitments, has
    its [soc_begin] within [min_soc .. max_soc]; so the validator of the
    same profile never reports SOC_BELOW_MIN or SOC_ABOVE_MAX on it, and
    the only errors it can report on a generated plan are
    SOC_INFEASIBLE_CHARGE and SOC_INFEASIBLE_DISCHARGE. *)
Theorem generate_cop_within_limits (bess : BESSParameters)
  (start_date : Timestamp) (days : nat) (price_forecast : option PriceFrame)
  (as_commitments : option ASFrame) (cop : list CopRow) :
  min_soc bess <= max_soc bess ->
  generate_cop bess start_date days price_forecast as_commitments = Ok cop ->
  Forall (within_limits bess) cop /\
  forall self,
    v_bess self = bess ->
    Forall (fun f => f_type f = SOC_INFEASIBLE_CHARGE \/
                     f_type f = SOC_INFEASIBLE_DISCHARGE)
           (errors (fst (validate self cop))).
Proof.
  intros Hord H. apply generate_cop_inv in H.
  destruct H as (rows0 & rows1 & _ & _ & ->).
  assert (Hw : Forall (within_limits bess)
                 (_add_cop_fields bess (_ensure_soc_feasibility bess rows1))).
  { unfold _add_cop_fields. apply Forall_map.
    eapply Forall_impl; [|apply ensure_soc_feasibility_in_bounds, Hord].
    intros r Hr. exact Hr. }
  split; [exact Hw|].
  intros self Hself. rewrite validate_errors_eq, Hself.
  apply soc_bounds_errors_nil in Hw. rewrite Hw, app_nil_r.
  apply Forall_forall. intros f Hf.
  eapply soc_feasibility_loop_types, Hf.
Qed.

Lemma date_range_nth (periods : nat) :
  forall start i t,
    nth_error (date_range start periods) i = Some t ->
    t = (start + Z.of_nat i * hour_us)%Z.
Proof.
  induction periods as [|n IH]; intros start i t H.
  - destruct i; discriminate H.
  - destruct i as [|i]; simpl in H.
    + injection H as <-. simpl. lia.
    + apply IH in H. rewrite H. lia.
Qed.

Lemma hour_of_day_add (start : Timestamp) (i : nat) :
  hour_of_day (start + Z.of_nat i * hour_us)%Z
  = ((hour_of_day start + Z.of_nat i) mod 24)%Z.
Proof.
  unfold hour_of_day.
  rewrite Z.div_add by (unfold hour_us; lia).
  rewrite Z.add_mod_idemp_l by lia. reflexivity.
Qed.

(** X14.  The default plan follows the clock: hour [i] of a plan generated
    without a price forecast ends at the start time plus [i] hours and, at
    hour-of-day [h = (start hour + i) mod 24], has mode charge for
    [0 <= h < 6], discharge for [14 <= h < 20] and hold otherwise, whatever
    the commitments and the repair did.  Its [target_mw] is the scheduled
    one ([0.8 lsl] when charging, [0.9 hsl] when discharging, 0 when
    holding) unless the overlay set it to 0 or the repair forced it to
    [lsl] or [hsl]. *)
Theorem generate_cop_default_schedule (bess : BESSParameters)
  (start_date : Timestamp) (days : nat) (as_commitments : option ASFrame)
  (cop : list CopRow) (i : nat) (row : CopRow) :
  generate_cop bess start_date days None as_commitments = Ok cop ->
  nth_error cop i = Some row ->
  let h := ((hour_of_day start_date + Z.of_nat i) mod 24)%Z in
  hour_ending (base row) = (start_date + Z.of_nat i * hour_us)%Z /\
  mode (base row) = fst (scheduled bess h) /\
  (target_mw (base row) = snd (scheduled bess h) \/
   target_mw (base row) = 0 \/
   target_mw (base row) = lsl bess \/
   target_mw (base row) = hsl bess).
Proof.
  intros H Hi h. apply generate_cop_inv in H.
  destruct H as (rows0 & rows1 & H0 & H1 & ->).
  unfold base_plan in H0. injection H0 as <-.
  unfold _add_cop_fields in Hi. rewrite nth_error_map in Hi.
  destruct (nth_error (_ensure_soc_feasibility bess rows1) i) as [r2|] eqn:E2;
    [|discriminate Hi].
  simpl in Hi. injection Hi as <-. simpl.
  destruct (Forall2_nth_error_r _ _ _ (ensure_soc_feasibility_same_frame bess rows1)
              i r2 E2) as (r1 & E1 & Hsf).
  destruct (Forall2_nth_error_r _ _ _ (ensure_soc_feasibility_target_rel bess rows1)
              i r2 E2) as (r1' & E1' & Htg).
  rewrite E1 in E1'. injection E1' as <-.
  destruct (Forall2_nth_error_r _ _ _ (overlay_step_frame _ _ _ H1) i r1 E1)
    as (r0 & E0 & Hov).
  unfold _generate_default_plan in E0.
  destruct (Forall2_nth_error_r _ _ _
              (calculate_soc_trajectory_frame bess
                 (map (default_row bess) (date_range start_date (days * 24))) None)
              i r0 E0) as (rd & Ed & Htr).
  rewrite nth_error_map in Ed.
  destruct (nth_error (date_range start_date (days * 24)) i) as [t|] eqn:Et;
    [|discriminate Ed].
  simpl in Ed. injection Ed as <-.
  apply date_range_nth in Et. subst t.
  destruct (default_row_scheduled bess (start_date + Z.of_nat i * hour_us)%Z)
    as (Hs & Hh & _).
  rewrite hour_of_day_add in Hs. fold h in Hs.
  destruct (scheduled bess h) as [m tg]. injection Hs as Hm Ht.
  unfold trajectory_frame in Htr. unfold overlay_frame in Hov.
  unfold same_frame in Hsf. unfold repair_target in Htg.
  destruct Htr as (T1 & _ & _ & _ & _ & _ & T7 & T8).
  destruct Hov as (O1 & _ & _ & _ & _ & _ & O7 & _ & _ & O10 & _).
  destruct Hsf as (S1 & _ & _ & _ & _ & _ & S7 & _).
  simpl. split; [congruence|]. split; [congruence|].
  destruct Htg as [Htg|[Htg|Htg]]; [|auto|auto].
  destruct O10 as [O10|O10]; [left; congruence | right; left; congruence].
Qed.

Lemma merge_left_length (hours : list Timestamp) (pf : PriceFrame) :
  (List.length hours <= List.length (merge_left hours pf))%nat.
Proof.
  unfold merge_left. induction hours as [|h hours IH]; [simpl; lia|].
  cbn [flat_map]. rewrite length_app. simpl.
  assert (1 <= List.length (merge_hour pf h))%nat; [|lia].
  unfold merge_hour.
  destruct (filter (fun kp => (fst kp =? h)%Z) (price_rows pf));
    simpl; lia.
Qed.

Lemma calculate_soc_trajectory_length (bess : BESSParameters) (cop : list Row)
  (initial_soc : option Q) :
  List.length (_calculate_soc_trajectory bess cop initial_soc) = List.length cop.
Proof.
  apply Forall2_length_eq with (R := trajectory_frame),
    calculate_soc_trajectory_frame.
Qed.

Lemma base_plan_length (bess : BESSParameters) (start_date : Timestamp)
  (days : nat) (price_forecast : option PriceFrame) (rows0 : list Row) :
  base_plan bess start_date days price_forecast = Ok rows0 ->
  (24 * days <= List.length rows0)%nat /\
  (unique_price_labels price_forecast -> List.length rows0 = (24 * days)%nat).
Proof.
  intros H. split.
  - unfold base_plan in H. destruct price_forecast as [pf|].
    + unfold _optimize_for_prices in H. destruct (_ && _); [discriminate|].
      injection H as <-.
      rewrite calculate_soc_trajectory_length, length_map.
      pose proof (merge_left_length (date_range start_date (days * 24)) pf) as Hl.
      rewrite date_range_length in Hl. lia.
    + injection H as <-. unfold _generate_default_plan.
      rewrite calculate_soc_trajectory_length, length_map, date_range_length.
      lia.
  - intros Hp.
    destruct (base_plan_hours bess start_date days price_forecast Hp)
      as (cop0 & Hbase & Hh0).
    rewrite Hbase in H. injection H as <-.
    apply (f_equal (@List.length _)) in Hh0.
    rewrite length_map, date_range_length in Hh0. lia.
Qed.

Lemma generate_cop_length (bess : BESSParameters) (start_date : Timestamp)
  (days : nat) (price_forecast : option PriceFrame)
  (as_commitments : option ASFrame) (cop : list CopRow) :
  generate_cop bess start_date days price_forecast as_commitments = Ok cop ->
  (24 * days <= List.length cop)%nat /\
  (unique_price_labels price_forecast -> List.length cop = (24 * days)%nat).
Proof.
  intros H. apply generate_cop_inv in H.
  destruct H as (rows0 & rows1 & H0 & H1 & ->).
  unfold _add_cop_fields. rewrite length_map.
  rewrite (Forall2_length_eq _ _ _ (ensure_soc_feasibility_same_frame bess rows1)).
  rewrite (Forall2_length_eq _ _ _ (overlay_step_frame _ _ _ H1)).
  apply base_plan_length with (bess := bess) (start_date := start_date), H0.
Qed.

Lemma horizon_finding_iff (self : COPValidator) (cop : list CopRow) :
  In horizon_finding (warnings (fst (validate self cop))) <->
  (List.length cop < 168)%nat.
Proof.
  rewrite validate_warnings_eq, !in_app_iff. split.
  - intros [H|[H|[H|H]]]; try other_check H.
    destruct (List.length cop <? 168)%nat eqn:E; [|destruct H].
    apply Nat.ltb_lt, E.
  - intros H. right; right; right.
    apply Nat.ltb_lt in H. rewrite H. left. reflexivity.
Qed.

(** X15.  The horizon check: a plan is reported INSUFFICIENT_HORIZON, a
    warning that is never among the errors, exactly when it has fewer than
    168 hours.  A plan [generate_cop] returns for 7 days or more is never
    reported; one it returns for fewer than 7 days, with a forecast whose
    labels are not repeated or with none, always is. *)
Theorem validate_horizon (self : COPValidator) (cop : list CopRow) :
  (In horizon_finding (warnings (fst (validate self cop))) <->
   (List.length cop < 168)%nat) /\
  ~ In horizon_finding (errors (fst (validate self cop))) /\
  forall bess start_date days price_forecast as_commitments,
    generate_cop bess start_date days price_forecast as_commitments = Ok cop ->
    ((7 <= days)%nat ->
     ~ In horizon_finding (warnings (fst (validate self cop)))) /\
    ((days < 7)%nat -> unique_price_labels price_forecast ->
     In horizon_finding (warnings (fst (validate self cop)))).
Proof.
  split; [apply horizon_finding_iff|]. split.
  - rewrite validate_errors_eq, in_app_iff. intros [H|H]; other_check H.
  - intros bess start_date days pf asc H.
    apply generate_cop_length in H. destruct H as [Hge Heq].
    rewrite horizon_finding_iff. split.
    + intros Hd. lia.
    + intros Hd Hp. rewrite (Heq Hp). lia.
Qed.

(** ** The price-optimised plan *)

Lemma find_hd_filter {A : Type} (p : A -> bool) (l : list A) :
  find p l = hd_error (filter p l).
Proof.
  induction l as [|a l IH]; [reflexivity|].
  simpl. destruct (p a); [reflexivity | exact IH].
Qed.

(** The cell the merge gives an hour of the plan. *)
Lemma merge_hour_unique (pf : PriceFrame) (h : Timestamp) :
  NoDup (map fst (price_rows pf)) ->
  merge_hour pf h
  = [(h, match find (fun kp => (fst kp =? h)%Z) (price_rows pf) with
         | Some kp => if has_price pf then snd kp else None
         | None => None
         end)].
Proof.
  intros Hnd. unfold merge_hour. rewrite find_hd_filter.
  destruct (filter_label_at_most_one h (price_rows pf) Hnd) as [->|[e ->]];
    reflexivity.
Qed.

Lemma merge_left_unique (hours : list Timestamp) (pf : PriceFrame) :
  NoDup (map fst (price_rows pf)) ->
  merge_left hours pf
  = map (fun h => (h, match find (fun kp => (fst kp =? h)%Z) (price_rows pf) with
                      | Some kp => if has_price pf then snd kp else None
                      | None => None
                      end)) hours.
Proof.
  intros Hnd. unfold merge_left.
  induction hours as [|h hours IH]; [reflexivity|].
  cbn [flat_map map]. rewrite IH, merge_hour_unique by assumption. reflexivity.
Qed.

Lemma optimize_for_prices_ok (bess : BESSParameters) (hours : list Timestamp)
  (pf : PriceFrame) :
  NoDup hours ->
  NoDup (map fst (price_rows pf)) ->
  _optimize_for_prices bess hours pf
  = Ok (_calculate_soc_trajectory bess
          (map (priced_row bess (has_price pf)) (merge_left hours pf)) None).
Proof.
  intros Hh Hp.
  destruct (optimize_for_prices_hours bess hours pf Hh Hp) as (cop & H & _).
  unfold _optimize_for_prices in *.
  destruct (_ && _); [discriminate H | reflexivity].
Qed.

(** X16.  With labels that are not repeated, the price-optimised plan is
    returned with one hour per requested hour, each with status ON and the
    mode and target its price commands: discharge at [hsl] above 80, charge
    at [lsl] below 25, discharge at half of [hsl] above 50 and up to 80,
    hold in between.  The thresholds themselves hold (25 and 50) or
    discharge at half power (80); an hour with no row in the forecast, or
    whose price is missing, is held at 0; a forecast without a [price]
    column is read as 50 throughout, so every hour is held. *)
Theorem optimize_for_prices_rule (bess : BESSParameters) (hours : list Timestamp)
  (pf : PriceFrame) :
  NoDup hours ->
  NoDup (map fst (price_rows pf)) ->
  exists cop,
    _optimize_for_prices bess hours pf = Ok cop /\
    Forall2 (fun h r =>
               hour_ending r = h /\ status r = ON /\
               (mode r, target_mw r) = priced bess (forecast_price pf h))
            hours cop /\
    priced bess (Some 25) = (hold, 0) /\
    priced bess (Some 50) = (hold, 0) /\
    priced bess (Some 80) = (discharge, hsl bess *! 0.5) /\
    (forall h, ~ In h (map fst (price_rows pf)) ->
               priced bess (forecast_price pf h) = (hold, 0)) /\
    (has_price pf = false ->
     forall h, priced bess (forecast_price pf h) = (hold, 0)).
Proof.
  intros Hh Hp. eexists. split; [apply optimize_for_prices_ok; assumption|].
  split; [|split; [reflexivity|split; [reflexivity|split; [reflexivity|split]]]].
  - rewrite merge_left_unique by assumption. rewrite map_map.
    match goal with
    | |- Forall2 _ hours (_calculate_soc_trajectory bess ?l None) =>
        pose proof (calculate_soc_trajectory_frame bess l None) as Hf;
        remember (_calculate_soc_trajectory bess l None) as out eqn:Eout;
        clear Eout
    end.
    clear Hh. revert out Hf.
    induction hours as [|h hours IH]; intros out Hf; simpl in Hf.
    + inversion Hf. constructor.
    + inversion Hf as [|a b l l' Hab Hrest]; subst. constructor; [|apply IH, Hrest].
      destruct (priced_row_priced bess (has_price pf)
                  (h, match find (fun kp => (fst kp =? h)%Z) (price_rows pf) with
                      | Some kp => if has_price pf then snd kp else None
                      | None => None
                      end)) as (Hm & Hhe & _ & (_ & _ & _ & Hst)).
      unfold trajectory_frame in Hab.
      destruct Hab as (T1 & _ & T3 & _ & _ & _ & T7 & T8).
      split; [rewrite T1; exact Hhe|]. split; [rewrite T3; exact Hst|].
      rewrite T7, T8. etransitivity; [exact Hm|].
      unfold forecast_price. simpl.
      destruct (has_price pf); [|reflexivity].
      destruct (find (fun kp => (fst kp =? h)%Z) (price_rows pf)); reflexivity.
  - intros h Hh'. unfold forecast_price.
    destruct (has_price pf); [|reflexivity].
    destruct (find (fun kp => (fst kp =? h)%Z) (price_rows pf)) as [kp|] eqn:Ef;
      [|reflexivity].
    exfalso. apply find_some in Ef. destruct Ef as [Hin Hk].
    apply Z.eqb_eq in Hk. subst h. apply Hh', in_map, Hin.
  - intros Hno h. unfold forecast_price. rewrite Hno. reflexivity.
Qed.

Lemma count_label_app {A : Type} (h : Timestamp) (l1 l2 : list (Timestamp * A)) :
  count_label h (l1 ++ l2) = (count_label h l1 + count_label h l2)%nat.
Proof. unfold count_label. rewrite filter_app, length_app. reflexivity. Qed.

Lemma merge_hour_count (pf : PriceFrame) (h : Timestamp) :
  (2 <= count_label h (price_rows pf))%nat ->
  (2 <= count_label h (merge_hour pf h))%nat /\
  exists c, In (h, c) (merge_hour pf h).
Proof.
  unfold count_label at 1, merge_hour. intros H.
  destruct (filter (fun kp => (fst kp =? h)%Z) (price_rows pf)) as [|a [|b l]];
    simpl in H; [lia | lia |].
  split.
  - unfold count_label. simpl. rewrite !Z.eqb_refl. simpl. lia.
  - eexists. left. reflexivity.
Qed.

(** X17.  Repeated labels make the price-optimised plan fail: if the
    forecast has a [price] column and two or more rows for some hour of the
    plan, [_optimize_for_prices] raises ValueError and returns no plan. *)
Theorem optimize_for_prices_repeated_label (bess : BESSParameters)
  (hours : list Timestamp) (pf : PriceFrame) :
  repeated_price_label hours pf ->
  has_price pf = true ->
  _optimize_for_prices bess hours pf = Raise ValueError.
Proof.
  intros (h & Hin & Hc) Hhas. unfold _optimize_for_prices. rewrite Hhas. simpl.
  destruct (merge_hour_count pf h Hc) as [Hc' [c Hcin]].
  apply in_split in Hin. destruct Hin as (l1 & l2 & ->).
  assert (Hm : merge_left (l1 ++ h :: l2) pf
               = merge_left l1 pf ++ merge_hour pf h ++ merge_left l2 pf).
  { unfold merge_left. rewrite flat_map_app. reflexivity. }
  assert (Hex : existsb (fun hp => (1 <? count_label (fst hp)
                                          (merge_left (l1 ++ h :: l2) pf))%nat)
                        (merge_left (l1 ++ h :: l2) pf) = true).
  { apply existsb_exists. exists (h, c). split.
    - rewrite Hm. apply in_or_app. right. apply in_or_app. left. exact Hcin.
    - simpl. apply Nat.ltb_lt. rewrite Hm, !count_label_app. lia. }
  rewrite Hex. reflexivity.
Qed.

(** ** The summary line *)

(** X18.  The summary line agrees with the report: it is the PASSED line
    exactly when the report is valid; otherwise it is the FAILED line with
    the number of errors of the report and the types of those errors, each
    type once. *)
Theorem generate_validation_summary_agrees (self : COPValidator)
  (cop : list CopRow) :
  let r := fst (validate self cop) in
  let s := _generate_validation_summary (snd (validate self cop)) in
  (s = SummaryPassed <-> valid r = true) /\
  (valid r = false ->
   exists types,
     s = SummaryFailed (error_count r) types /\
     NoDup types /\
     forall t, In t types <-> exists f, In f (errors r) /\ f_type f = t).
Proof.
  intros r s. subst r s. unfold _generate_validation_summary.
  change (validation_errors (snd (validate self cop)))
    with (errors (fst (validate self cop))).
  change (valid (fst (validate self cop)))
    with (List.length (errors (fst (validate self cop))) =? 0)%nat.
  change (error_count (fst (validate self cop)))
    with (List.length (errors (fst (validate self cop)))).
  destruct (List.length (errors (fst (validate self cop))) =? 0)%nat eqn:E.
  - split; [split; reflexivity | discriminate].
  - split; [split; discriminate|].
    intros _. eexists. split; [reflexivity|].
    split; [apply NoDup_nodup|].
    intros t. rewrite nodup_In, in_map_iff.
    split; intros (f & H1 & H2); exists f; split; assumption.
Qed.

(** ** Submission *)

Lemma send_to_ercot_posted (creds : Credentials) (outcome : HttpOutcome)
  (posted : list Request) (payload : Payload) :
  let '(result, posted') := _send_to_ercot creds outcome posted payload in
  (sub_status result = SUCCESS \/ sub_status result = SUBMISSION_ERROR) /\
  (sub_status result = SUCCESS <->
   exists key url,
     api_key creds = Some key /\ endpoint creds = Some url /\
     outcome = Response 200 true) /\
  (posted' = posted \/
   exists key url,
     api_key creds = Some key /\ endpoint creds = Some url /\
     posted' = posted ++ [{| req_endpoint := url; req_api_key := key;
                             req_payload := payload |}]) /\
  (api_key creds = None \/ endpoint creds = None -> posted' = posted).
Proof.
  unfold _send_to_ercot.
  destruct (api_key creds) as [key|].
  2:{ simpl. split; [auto|]. split; [|auto].
      split; [discriminate | intros (k & u & H & _); discriminate H]. }
  destruct (endpoint creds) as [url|].
  2:{ simpl. split; [auto|]. split; [|auto].
      split; [discriminate | intros (k & u & _ & H & _); discriminate H]. }
  assert (Hp : forall p : list Request,
             p = posted ++ [{| req_endpoint := url; req_api_key := key;
                               req_payload := payload |}] ->
             (p = posted \/
              exists key0 url0,
                Some key = Some key0 /\ Some url = Some url0 /\
                p = posted ++ [{| req_endpoint := url0; req_api_key := key0;
                                  req_payload := payload |}]) /\
             (Some key = None \/ Some url = None -> p = posted)).
  { intros p ->. split; [right; eauto|]. intros [H|H]; discriminate H. }
  destruct outcome as [|code ok]; simpl.
  - split; [auto|]. split; [|apply Hp; reflexivity].
    split; [discriminate | intros (k & u & _ & _ & H); discriminate H].
  - destruct (code =? 200)%Z eqn:E; [destruct ok|]; simpl.
    + apply Z.eqb_eq in E. subst code.
      split; [auto|]. split; [|apply Hp; reflexivity].
      split; [eauto | reflexivity].
    + split; [auto|]. split; [|apply Hp; reflexivity].
      split; [discriminate | intros (k & u & _ & _ & H); discriminate H].
    + split; [auto|]. split; [|apply Hp; reflexivity].
      split; [discriminate|]. intros (k & u & _ & _ & H).
      injection H as -> _. discriminate E.
Qed.

Lemma submit_cop_shape (self : COPSubmitter) (outcome : HttpOutcome)
  (posted : list Request) (row : CopRow) (rest : list CopRow) :
  let cop := row :: rest in
  exists result posted',
    submit_cop self outcome posted cop false
    = (Returns (result,
                {| credentials := credentials self;
                   submission_history :=
                     submission_history self ++
                     [{| h_result := result;
                         h_hours := List.length cop;
                         h_start := hour_ending (base row);
                         h_end := hour_ending (base (last rest row)) |}] |}),
       posted') /\
    (sub_status result = SUCCESS <->
     exists key url,
       api_key (credentials self) = Some key /\
       endpoint (credentials self) = Some url /\
       outcome = Response 200 true) /\
    (sub_status result = SUCCESS \/ sub_status result = SUBMISSION_ERROR) /\
    (posted' = posted \/
     exists key url,
       api_key (credentials self) = Some key /\
       endpoint (credentials self) = Some url /\
       posted' = posted ++ [{| req_endpoint := url; req_api_key := key;
                               req_payload := _format_for_ercot (credentials self) cop |}]) /\
    (api_key (credentials self) = None \/ endpoint (credentials self) = None ->
     posted' = posted).
Proof.
  intros cop. unfold submit_cop.
  pose proof (send_to_ercot_posted (credentials self) outcome posted
                (_format_for_ercot (credentials self) cop)) as H.
  destruct (_send_to_ercot (credentials self) outcome posted
              (_format_for_ercot (credentials self) cop)) as [result posted'].
  eexists _, _. split; [reflexivity|]. tauto.
Qed.

(** X19.  [submit_cop] on a plan with at least one hour returns, and adds
    exactly one entry to the history: the result it returns, the number of
    hours and the first and last [hour_ending] of the plan.  In test mode
    the result is TEST_SUCCESS and nothing is posted.  Otherwise at most one
    request is posted, carrying the formatted plan to the configured
    endpoint; the result is SUCCESS exactly when both the api key and the
    endpoint are configured and the answer is an HTTP 200 with a JSON
    object, and ERROR in every other case; with a credential missing
    nothing is posted. *)
Theorem submit_cop_returns (self : COPSubmitter) (outcome : HttpOutcome)
  (posted : list Request) (row : CopRow) (rest : list CopRow)
  (test_mode : bool) :
  let cop := row :: rest in
  exists result posted',
    submit_cop self outcome posted cop test_mode
    = (Returns (result,
                {| credentials := credentials self;
                   submission_history :=
                     submission_history self ++
                     [{| h_result := result;
                         h_hours := List.length cop;
                         h_start := hour_ending (base row);
                         h_end := hour_ending (base (last rest row)) |}] |}),
       posted') /\
    (test_mode = true ->
     sub_status result = TEST_SUCCESS /\ posted' = posted) /\
    (test_mode = false ->
     (sub_status result = SUCCESS <->
      exists key url,
        api_key (credentials self) = Some key /\
        endpoint (credentials self) = Some url /\
        outcome = Response 200 true) /\
     (sub_status result = SUCCESS \/ sub_status result = SUBMISSION_ERROR) /\
     (posted' = posted \/
      exists key url,
        api_key (credentials self) = Some key /\
        endpoint (credentials self) = Some url /\
        posted' = posted ++ [{| req_endpoint := url; req_api_key := key;
                                req_payload := _format_for_ercot (credentials self) cop |}]) /\
     (api_key (credentials self) = None \/ endpoint (credentials self) = None ->
      posted' = posted)).
Proof.
  intros cop. unfold submit_cop. destruct test_mode.
  - eexists _, _. split; [reflexivity|].
    split; [auto | discriminate].
  - pose proof (send_to_ercot_posted (credentials self) outcome posted
                  (_format_for_ercot (credentials self) cop)) as H.
    destruct (_send_to_ercot (credentials self) outcome posted
                (_format_for_ercot (credentials self) cop)) as [result posted'].
    eexists _, _. split; [reflexivity|].
    split; [discriminate|]. intros _. tauto.
Qed.

(** X20.  [submit_cop] on a plan without hours raises IndexError and
    records nothing in the history; in test mode nothing is posted, but
    otherwise, with the api key and the endpoint configured, the empty
    payload has already been posted when the exception is raised. *)
Theorem submit_cop_empty_plan (self : COPSubmitter) (outcome : HttpOutcome)
  (posted : list Request) (test_mode : bool) :
  fst (submit_cop self outcome posted [] test_mode) = Raises IndexError /\
  (test_mode = true ->
   snd (submit_cop self outcome posted [] test_mode) = posted) /\
  (forall key url,
     test_mode = false ->
     api_key (credentials self) = Some key ->
     endpoint (credentials self) = Some url ->
     snd (submit_cop self outcome posted [] test_mode)
     = posted ++ [{| req_endpoint := url; req_api_key := key;
                     req_payload := {| p_qse_name :=
                                         match qse_name (credentials self) with
                                         | Some q => q
                                         | None => "TEST_QSE"%string
                                         end;
                                       p_cop_data := [] |} |}]).
Proof.
  unfold submit_cop. destruct test_mode.
  - simpl. split; [reflexivity|]. split; [reflexivity | discriminate].
  - split; [|split; [discriminate|]].
    + destruct (_send_to_ercot _ _ _ _). reflexivity.
    + intros key url _ Hk Hu. unfold _send_to_ercot. rewrite Hk, Hu.
      destruct outcome as [|code ok]; [reflexivity|].
      destruct (code =? 200)%Z; [destruct ok|]; reflexivity.
Qed.

(** ** The daily run *)

Lemma date_range_last (periods : nat) :
  forall start d,
    last (date_range start (S periods)) d
    = (start + Z.of_nat periods * hour_us)%Z.
Proof.
  induction periods as [|n IH]; intros start d.
  - simpl. lia.
  - change (date_range start (S (S n)))
      with (start :: date_range (start + hour_us)%Z (S n)).
    change (last (start :: date_range (start + hour_us)%Z (S n)) d)
      with (last (date_range (start + hour_us)%Z (S n)) d).
    rewrite IH. lia.
Qed.

Lemma first_last_hour_date_range (cop : list CopRow) (start : Timestamp)
  (n : nat) :
  map (fun row => hour_ending (base row)) cop = date_range start (S n) ->
  first_last_hour cop = Some (start, (start + Z.of_nat n * hour_us)%Z).
Proof.
  intros H. destruct cop as [|row rest]; [discriminate H|].
  unfold first_last_hour.
  assert (Hl : forall (l : list CopRow) (d : CopRow),
             hour_ending (base (last l d))
             = last (map (fun row => hour_ending (base row)) l)
                    (hour_ending (base d))).
  { induction l as [|a l IH]; intros d; [reflexivity|].
    destruct l as [|b l]; [reflexivity|]. apply (IH d). }
  assert (Hc : forall (l : list Timestamp) (a d : Timestamp),
             last l a = last (a :: l) d).
  { assert (Hd : forall (l : list Timestamp) (b a d : Timestamp),
               last (b :: l) a = last (b :: l) d).
    { induction l as [|c l IH]; intros b a d; [reflexivity|].
      apply (IH c a d). }
    intros [|b l] a d; [reflexivity | apply (Hd l b a d)]. }
  rewrite Hl, (Hc _ _ 0%Z).
  change (hour_ending (base row) :: map (fun r => hour_ending (base r)) rest)
    with (map (fun r => hour_ending (base r)) (row :: rest)).
  rewrite H, date_range_last.
  simpl in H. injection H as -> _. reflexivity.
Qed.

Lemma generate_cop_ok_hours (bess : BESSParameters) (start_date : Timestamp)
  (days : nat) (price_forecast : option PriceFrame)
  (as_commitments : option ASFrame) :
  unique_price_labels price_forecast ->
  unique_as_labels as_commitments ->
  exists cop,
    generate_cop bess start_date days price_forecast as_commitments = Ok cop /\
    map (fun row => hour_ending (base row)) cop
    = date_range start_date (days * 24).
Proof.
  intros Hp Ha.
  destruct (base_plan_hours bess start_date days price_forecast Hp)
    as (cop0 & Hbase & Hh0).
  unfold generate_cop. unfold base_plan in Hbase. rewrite Hbase. simpl.
  assert (H1 : exists cop1,
            match as_commitments with
            | Some asf => _apply_as_commitments cop0 asf
            | None => Ok cop0
            end = Ok cop1 /\ map hour_ending cop1 = map hour_ending cop0).
  { destruct as_commitments as [asf|]; [|eauto].
    rewrite apply_as_commitments_map;
      [| rewrite Hh0; apply date_range_NoDup | exact Ha].
    eexists. split; [reflexivity|].
    rewrite map_map. apply map_ext. intros r. apply overlay_row_hour_ending. }
  destruct H1 as (cop1 & -> & Hh1). simpl.
  eexists. split; [reflexivity|].
  unfold _add_cop_fields. rewrite map_map. simpl.
  change (map (fun x => hour_ending x) (_ensure_soc_feasibility bess cop1)
          = date_range start_date (days * 24)).
  rewrite ensure_soc_feasibility_hours, Hh1, Hh0. reflexivity.
Qed.

Lemma next_midnight_hour (now : Timestamp) :
  hour_of_day (next_midnight now) = 0%Z.
Proof.
  unfold hour_of_day, next_midnight, day_us.
  replace (now / (24 * hour_us) * (24 * hour_us) + 24 * hour_us)%Z
    with ((now / (24 * hour_us) + 1) * 24 * hour_us)%Z by ring.
  rewrite Z.div_mul by (unfold hour_us; lia).
  apply Z.mod_mul. lia.
Qed.

Lemma next_midnight_after (now : Timestamp) :
  (now < next_midnight now <= now + day_us)%Z.
Proof.
  unfold next_midnight.
  assert (Hd : (0 < day_us)%Z) by (unfold day_us, hour_us; lia).
  pose proof (Z.mul_div_le now day_us Hd).
  pose proof (Z.mul_succ_div_gt now day_us Hd).
  lia.
Qed.

(** X21.  With index labels not repeated in the forecast and in the
    commitments, [run_daily_cop] returns: its summary reports 168 hours, from
    the first midnight after the instant of the call, which is at most a day
    away and has hour-of-day 0, to 167 hours later; the report is the one
    [validate] gives for the generated plan; and the plan is in the results
    exactly when that report is valid. *)
Theorem run_daily_cop_returns (self : COPAutomationSystem) (now : Timestamp)
  (outcome : HttpOutcome) (posted : list Request)
  (price_forecast : option PriceFrame) (as_commitments : option ASFrame)
  (auto_submit : bool) :
  unique_price_labels price_forecast ->
  unique_as_labels as_commitments ->
  exists cop results system,
    generate_cop (sys_bess self) (next_midnight now) 7 price_forecast
      as_commitments = Ok cop /\
    fst (run_daily_cop self now outcome posted price_forecast as_commitments
           auto_submit) = Returns (results, system) /\
    summary_hours results = 168%nat /\
    summary_start_date results = next_midnight now /\
    (now < summary_start_date results <= now + day_us)%Z /\
    hour_of_day (summary_start_date results) = 0%Z /\
    summary_end_date results = (next_midnight now + 167 * hour_us)%Z /\
    validation results = fst (validate (sys_validator self) cop) /\
    cop_data results
    = (if valid (validation results) then Some cop else None) /\
    sys_bess system = sys_bess self.
Proof.
  intros Hp Ha.
  destruct (generate_cop_ok_hours (sys_bess self) (next_midnight now) 7
              price_forecast as_commitments Hp Ha) as (cop & Hgen & Hh).
  pose proof (first_last_hour_date_range cop (next_midnight now) 167 Hh) as Hfl.
  assert (Hlen : List.length cop = 168%nat).
  { apply (f_equal (@List.length _)) in Hh.
    rewrite length_map, date_range_length in Hh. exact Hh. }
  exists cop. unfold run_daily_cop. rewrite Hgen.
  destruct (validate (sys_validator self) cop) as [report validator] eqn:Ev.
  assert (Hsub : exists submission_result submitter posted',
            (if valid report then
               if auto_submit then
                 submit_cop (sys_submitter self) outcome posted cop false
               else
                 (Returns ({| sub_status := NOT_SUBMITTED;
                              sub_message := AutoSubmitDisabled |},
                           sys_submitter self), posted)
             else
               (Returns ({| sub_status := NOT_SUBMITTED;
                            sub_message := ValidationFailed |},
                         sys_submitter self), posted))
            = (Returns (submission_result, submitter), posted')).
  { destruct (valid report); [destruct auto_submit|]; eauto.
    unfold submit_cop. rewrite Hfl.
    destruct (_send_to_ercot _ _ _ _). eauto. }
  destruct Hsub as (submission_result & submitter & posted' & ->).
  rewrite Hfl. eexists _, _. split; [reflexivity|].
  split; [reflexivity|]. simpl.
  split; [exact Hlen|]. split; [reflexivity|].
  split; [apply next_midnight_after|].
  split; [apply next_midnight_hour|].
  repeat split; reflexivity.
Qed.

Lemma generate_cop_first_last (bess : BESSParameters) (start_date : Timestamp)
  (price_forecast : option PriceFrame) (as_commitments : option ASFrame)
  (cop : list CopRow) :
  generate_cop bess start_date 7 price_forecast as_commitments = Ok cop ->
  exists row rest, cop = row :: rest.
Proof.
  intros H. apply generate_cop_length in H. destruct H as [H _].
  destruct cop as [|row rest]; [simpl in H; lia | eauto].
Qed.

(** X22.  [run_daily_cop] posts only a valid plan, and only when asked to:
    either nothing is posted, or [auto_submit] is on, the generated plan has
    a valid report, both credentials are configured, and the one request
    posted carries that plan, formatted, to the configured endpoint.  The
    run never raises IndexError; it raises only what [generate_cop] raises,
    and then nothing is posted.  When it returns without a submission (the
    report is not valid, or [auto_submit] is off) the status is
    NOT_SUBMITTED and the submitter and its history are as before; when it
    submits, the history has grown by one entry holding the returned
    submission result. *)
Theorem run_daily_cop_gate (self : COPAutomationSystem) (now : Timestamp)
  (outcome : HttpOutcome) (posted : list Request)
  (price_forecast : option PriceFrame) (as_commitments : option ASFrame)
  (auto_submit : bool) :
  let gen := generate_cop (sys_bess self) (next_midnight now) 7
               price_forecast as_commitments in
  let out := run_daily_cop self now outcome posted price_forecast
               as_commitments auto_submit in
  (snd out = posted \/
   exists cop key url,
     auto_submit = true /\
     gen = Ok cop /\
     valid (fst (validate (sys_validator self) cop)) = true /\
     api_key (credentials (sys_submitter self)) = Some key /\
     endpoint (credentials (sys_submitter self)) = Some url /\
     snd out = posted ++
               [{| req_endpoint := url; req_api_key := key;
                   req_payload :=
                     _format_for_ercot (credentials (sys_submitter self)) cop |}]) /\
  fst out <> Raises IndexError /\
  (forall e, gen = Raise e ->
             fst out = Raises (GeneratorError e) /\ snd out = posted) /\
  (forall cop, gen = Ok cop ->
     exists results system,
       fst out = Returns (results, system) /\
       (valid (validation results) && auto_submit = false ->
        sub_status (submission results) = NOT_SUBMITTED /\
        sub_message (submission results)
        = (if valid (validation results) then AutoSubmitDisabled
           else ValidationFailed) /\
        sys_submitter system = sys_submitter self /\
        snd out = posted) /\
       (valid (validation results) && auto_submit = true ->
        (sub_status (submission results) = SUCCESS \/
         sub_status (submission results) = SUBMISSION_ERROR) /\
        (sub_status (submission results) = SUCCESS ->
         outcome = Response 200 true) /\
        exists entry,
          submission_history (sys_submitter system)
          = submission_history (sys_submitter self) ++ [entry] /\
          h_result entry = submission results /\
          h_hours entry = summary_hours results)).
Proof.
  intros gen out. subst gen out. unfold run_daily_cop.
  destruct (generate_cop (sys_bess self) (next_midnight now) 7 price_forecast
              as_commitments) as [cop|e] eqn:Hgen.
  2:{ simpl. split; [auto|]. split; [discriminate|].
      split; [| discriminate].
      intros e' H. injection H as <-. auto. }
  destruct (generate_cop_first_last _ _ _ _ _ Hgen) as (row & rest & Hcop).
  destruct (validate (sys_validator self) cop) as [report validator] eqn:Ev.
  cbn [fst].
  assert (Hfl : first_last_hour cop
                = Some (hour_ending (base row),
                        hour_ending (base (last rest row)))).
  { rewrite Hcop. reflexivity. }
  destruct (valid report) eqn:Hv; [destruct auto_submit|].
  - destruct (submit_cop_shape (sys_submitter self) outcome posted row rest)
      as (result & posted' & Hs & Hst & Hok & Hp & _).
    rewrite <- Hcop in Hs, Hp. rewrite Hs, Hfl. cbn [fst snd].
    split.
    { destruct Hp as [Hp | (key & url & Hk & Hu & Hp)]; [left; exact Hp|].
      right. exists cop, key, url.
      split; [reflexivity|]. split; [reflexivity|].
      split; [rewrite Ev; exact Hv|].
      split; [exact Hk|]. split; [exact Hu | exact Hp]. }
    split; [discriminate|]. split; [discriminate|].
    intros cop' H. injection H as <-.
    eexists _, _. split; [reflexivity|]. cbn. rewrite Hv.
    split; [discriminate|]. intros _.
    split; [exact Hok|].
    split; [intros H; apply Hst in H; destruct H as (k & u & _ & _ & H); exact H|].
    eexists. split; [reflexivity|]. split; reflexivity.
  - rewrite Hfl. cbn [fst snd].
    split; [left; reflexivity|]. split; [discriminate|]. split; [discriminate|].
    intros cop' H. injection H as <-.
    eexists _, _. split; [reflexivity|]. cbn. rewrite Hv.
    split; [|discriminate]. intros _. repeat split; reflexivity.
  - rewrite Hfl. cbn [fst snd].
    split; [left; reflexivity|]. split; [discriminate|]. split; [discriminate|].
    intros cop' H. injection H as <-.
    eexists _, _. split; [reflexivity|]. cbn. rewrite Hv.
    split; [|discriminate]. intros _. repeat split; reflexivity.
Qed.

(** ** The properties at concrete inputs *)

Lemma apply_as_commitments_frame_witness :
  exists cop',
    _apply_as_commitments overlay_example_cop overlay_example_as = Ok cop' /\
    Forall2 overlay_frame overlay_example_cop cop'.
Proof.
  eexists. split; [vm_compute; reflexivity|].
  apply (apply_as_commitments_frame overlay_example_cop _ overlay_example_as).
  vm_compute. reflexivity.
Defined.

Lemma apply_as_commitments_repeated_label_witness :
  _apply_as_commitments overlay_example_cop repeated_as = Raise ValueError.
Proof.
  apply (apply_as_commitments_repeated_label overlay_example_cop repeated_as).
  - exists 0%Z. split; [vm_compute; lia | reflexivity].
  - reflexivity.
Defined.

Lemma apply_as_commitments_nothing_to_apply_witness :
  _apply_as_commitments overlay_example_cop foreign_as = Ok overlay_example_cop.
Proof.
  apply (apply_as_commitments_nothing_to_apply overlay_example_cop foreign_as).
  left. intros hour [<-|[]]. reflexivity.
Defined.

Lemma apply_as_commitments_idempotent_witness :
  exists cop',
    _apply_as_commitments overlay_example_cop overlay_example_as = Ok cop' /\
    _apply_as_commitments cop' overlay_example_as = Ok cop'.
Proof.
  apply (apply_as_commitments_idempotent overlay_example_cop overlay_example_as).
  - simpl. repeat constructor; simpl; intuition discriminate.
  - simpl. repeat constructor; simpl; intuition discriminate.
Defined.


Lemma generate_cop_profile_columns_witness :
  exists cop,
    generate_cop bess_small 0%Z 1 None (Some overlay_example_as) = Ok cop /\
    Forall (fun row => profile_columns bess_small row /\
                       generated_status (status (base row))) cop /\
    (Some overlay_example_as = None ->
     Forall (fun row => status (base row) = ON) cop).
Proof.
  eexists. split; [vm_compute; reflexivity|].
  eapply (generate_cop_profile_columns bess_small 0%Z 1 None
            (Some overlay_example_as)).
  vm_compute. reflexivity.
Defined.

Lemma generate_cop_within_limits_witness :
  exists cop,
    generate_cop bess_small 0%Z 1 (Some price_example) None = Ok cop /\
    Forall (within_limits bess_small) cop /\
    forall self,
      v_bess self = bess_small ->
      Forall (fun f => f_type f = SOC_INFEASIBLE_CHARGE \/
                       f_type f = SOC_INFEASIBLE_DISCHARGE)
             (errors (fst (validate self cop))).
Proof.
  eexists. split; [vm_compute; reflexivity|].
  eapply (generate_cop_within_limits bess_small 0%Z 1 (Some price_example) None).
  - simpl. lra.
  - vm_compute. reflexivity.
Defined.

Lemma generate_cop_default_schedule_witness :
  exists cop row,
    generate_cop bess_small 0%Z 1 None (Some overlay_example_as) = Ok cop /\
    nth_error cop 15 = Some row /\
    hour_ending (base row) = (0 + Z.of_nat 15 * hour_us)%Z /\
    mode (base row)
    = fst (scheduled bess_small ((hour_of_day 0 + Z.of_nat 15) mod 24)%Z) /\
    (target_mw (base row)
     = snd (scheduled bess_small ((hour_of_day 0 + Z.of_nat 15) mod 24)%Z) \/
     target_mw (base row) = 0 \/
     target_mw (base row) = lsl bess_small \/
     target_mw (base row) = hsl bess_small).
Proof.
  eexists _, _. split; [vm_compute; reflexivity|].
  split; [vm_compute; reflexivity|].
  eapply (generate_cop_default_schedule bess_small 0%Z 1
            (Some overlay_example_as) _ 15).
  - vm_compute. reflexivity.
  - vm_compute. reflexivity.
Defined.

Lemma optimize_for_prices_rule_witness :
  exists cop,
    _optimize_for_prices bess_small [0%Z; hour_us] price_example = Ok cop /\
    Forall2 (fun h r =>
               hour_ending r = h /\ status r = ON /\
               (mode r, target_mw r)
               = priced bess_small (forecast_price price_example h))
            [0%Z; hour_us] cop /\
    priced bess_small (Some 25) = (hold, 0) /\
    priced bess_small (Some 50) = (hold, 0) /\
    priced bess_small (Some 80) = (discharge, hsl bess_small *! 0.5) /\
    (forall h, ~ In h (map fst (price_rows price_example)) ->
               priced bess_small (forecast_price price_example h) = (hold, 0)) /\
    (has_price price_example = false ->
     forall h, priced bess_small (forecast_price price_example h) = (hold, 0)).
Proof.
  apply (optimize_for_prices_rule bess_small [0%Z; hour_us] price_example).
  - repeat constructor; simpl; intuition discriminate.
  - simpl. repeat constructor; simpl; intuition discriminate.
Defined.

Lemma optimize_for_prices_repeated_label_witness :
  _optimize_for_prices bess_small [0%Z; hour_us] repeated_price
  = Raise ValueError.
Proof.
  apply (optimize_for_prices_repeated_label bess_small [0%Z; hour_us]
           repeated_price).
  - exists 0%Z. split; [simpl; auto | vm_compute; lia].
  - reflexivity.
Defined.

Lemma run_daily_cop_returns_witness :
  let self := COPAutomationSystem_init bess_west credentials_example in
  let now := (100 * day_us + 15 * hour_us)%Z in
  exists cop results system,
    generate_cop (sys_bess self) (next_midnight now) 7 (Some price_example)
      (Some overlay_example_as) = Ok cop /\
    fst (run_daily_cop self now (Response 200 true) [] (Some price_example)
           (Some overlay_example_as) true) = Returns (results, system) /\
    summary_hours results = 168%nat /\
    summary_start_date results = next_midnight now /\
    (now < summary_start_date results <= now + day_us)%Z /\
    hour_of_day (summary_start_date results) = 0%Z /\
    summary_end_date results = (next_midnight now + 167 * hour_us)%Z /\
    validation results = fst (validate (sys_validator self) cop) /\
    cop_data results
    = (if valid (validation results) then Some cop else None) /\
    sys_bess system = sys_bess self.
Proof.
  apply (run_daily_cop_returns
           (COPAutomationSystem_init bess_west credentials_example)
           (100 * day_us + 15 * hour_us)%Z (Response 200 true) []
           (Some price_example) (Some overlay_example_as) true).
  - simpl. repeat constructor; simpl; intuition discriminate.
  - simpl. repeat constructor; simpl; intuition discriminate.
Defined.

(** * Properties of the binary64 model *)

Section Binary64Properties.

Import PrimFloat Binary64 Binary64Vocabulary.
Local Open Scope float_scope.

(** ** The repair and the frames it leaves alone (C2) *)










(** ** The findings of the validator's feasibility check (C3) *)

Lemma binary64_soc_feasibility_pair_spec (eff : float) (i : nat)
  (current next_hour : CopRow) (f : Finding) :
  In f (soc_feasibility_pair eff i current next_hour) <->
  (f = charge_finding i /\
   exceeds_charge (row_max_charge eff current) current next_hour) \/
  (f = discharge_finding i /\
   ~ exceeds_charge (row_max_charge eff current) current next_hour /\
   exceeds_discharge (row_max_discharge current) current next_hour).
Proof.
  unfold soc_feasibility_pair, exceeds_charge, exceeds_discharge.
  destruct (float_gt _ _) eqn:E1; [|destruct (float_lt _ _) eqn:E2]; simpl.
  - split.
    + intros [<-|[]]. left. split; reflexivity.
    + intros [[-> _]|[_ [H _]]]; [left; reflexivity | exfalso; apply H; reflexivity].
  - split.
    + intros [<-|[]]. right. split; [reflexivity|].
      split; [discriminate | reflexivity].
    + intros [[_ H]|[-> _]]; [discriminate H | left; reflexivity].
  - split; [intros []|].
    intros [[_ H]|[_ [_ H]]]; discriminate H.
Qed.

Lemma binary64_soc_feasibility_loop_spec (eff : float) (cop : list CopRow) :
  forall (i0 : nat) (f : Finding),
    In f (soc_feasibility_loop eff i0 cop) <->
    exists k current next_hour,
      nth_error cop k = Some current /\
      nth_error cop (S k) = Some next_hour /\
      In f (soc_feasibility_pair eff (i0 + k) current next_hour).
Proof.
  induction cop as [|c cop IH]; intros i0 f.
  - simpl. split; [intros [] | intros (k & cu & nx & H & _)].
    destruct k; discriminate H.
  - destruct cop as [|n cop].
    + simpl. split; [intros [] | intros (k & cu & nx & _ & H & _)].
      destruct k; discriminate H.
    + change (soc_feasibility_loop eff i0 (c :: n :: cop))
        with (soc_feasibility_pair eff i0 c n
                ++ soc_feasibility_loop eff (S i0) (n :: cop)).
      rewrite in_app_iff, IH. split.
      * intros [H|(k & cu & nx & H1 & H2 & H3)].
        -- exists O, c, n. rewrite Nat.add_0_r. auto.
        -- exists (S k), cu, nx. rewrite Nat.add_succ_r. auto.
      * intros (k & cu & nx & H1 & H2 & H3). destruct k as [|k].
        -- left. simpl in H1, H2. injection H1 as <-. injection H2 as <-.
           rewrite Nat.add_0_r in H3. exact H3.
        -- right. exists k, cu, nx. rewrite Nat.add_succ_r in H3. auto.
Qed.

(** C3, as it holds in the arithmetic of the code.
    [_validate_soc_feasibility] appends to the errors, for the pair of
    hours at positions [i] and [i+1], SOC_INFEASIBLE_CHARGE exactly when the
    test [soc_change > max_charge + 0.01] is true of the floats
    [soc_change = soc_begin[i+1] - soc_begin[i]] and
    [max_charge = min(|lsl| * efficiency, soc_max - soc_begin)], taken from
    the columns of hour [i], and SOC_INFEASIBLE_DISCHARGE exactly when it is
    not and the test [soc_change < -(max_discharge + 0.01)] is true, with
    [max_discharge = min(hsl, soc_begin - soc_min)] from the same columns;
    it appends nothing else, and nothing to the warnings.  The two bounds
    are those of the generator's repair whenever the columns [hsl], [lsl],
    [soc_min], [soc_max] of the hour hold the profile's [hsl], [lsl],
    [min_soc], [max_soc]. *)
Theorem validate_soc_feasibility_flags (self : COPValidator) (cop : list CopRow) :
  let eff := efficiency (v_bess self) in
  let found := soc_feasibility_loop eff 0 cop in
  validation_errors (_validate_soc_feasibility self cop)
  = validation_errors self ++ found /\
  validation_warnings (_validate_soc_feasibility self cop)
  = validation_warnings self /\
  (forall i,
     In (charge_finding i) found <->
     exists current next_hour,
       nth_error cop i = Some current /\ nth_error cop (S i) = Some next_hour /\
       exceeds_charge (row_max_charge eff current) current next_hour) /\
  (forall i,
     In (discharge_finding i) found <->
     exists current next_hour,
       nth_error cop i = Some current /\ nth_error cop (S i) = Some next_hour /\
       ~ exceeds_charge (row_max_charge eff current) current next_hour /\
       exceeds_discharge (row_max_discharge current) current next_hour) /\
  (forall f, In f found ->
     exists i, f = charge_finding i \/ f = discharge_finding i) /\
  (forall current,
     row_max_charge eff current
     = py_min (abs (row_lsl (base current)) * eff)
              (soc_max (base current) - soc_begin (base current)) /\
     row_max_discharge current
     = py_min (row_hsl (base current))
              (soc_begin (base current) - soc_min (base current))) /\
  (forall current,
     row_hsl (base current) = hsl (v_bess self) ->
     row_lsl (base current) = lsl (v_bess self) ->
     soc_min (base current) = min_soc (v_bess self) ->
     soc_max (base current) = max_soc (v_bess self) ->
     row_max_charge eff current
     = max_charge (v_bess self) (soc_begin (base current)) /\
     row_max_discharge current
     = max_discharge (v_bess self) (soc_begin (base current))).
Proof.
  intros eff found. split; [reflexivity|]. split; [reflexivity|].
  split; [|split; [|split; [|split]]].
  - intros i. unfold found. rewrite binary64_soc_feasibility_loop_spec. split.
    + intros (k & cu & nx & H1 & H2 & H3). simpl in H3.
      apply binary64_soc_feasibility_pair_spec in H3.
      destruct H3 as [[He H3]|[He _]]; [|discriminate He].
      injection He as ->. eauto.
    + intros (cu & nx & H1 & H2 & H3). exists i, cu, nx.
      split; [exact H1|]. split; [exact H2|].
      apply binary64_soc_feasibility_pair_spec. left.
      split; [reflexivity | exact H3].
  - intros i. unfold found. rewrite binary64_soc_feasibility_loop_spec. split.
    + intros (k & cu & nx & H1 & H2 & H3). simpl in H3.
      apply binary64_soc_feasibility_pair_spec in H3.
      destruct H3 as [[He _]|[He H3]]; [discriminate He|].
      injection He as ->. eauto.
    + intros (cu & nx & H1 & H2 & H3). exists i, cu, nx.
      split; [exact H1|]. split; [exact H2|].
      apply binary64_soc_feasibility_pair_spec. right.
      split; [reflexivity | exact H3].
  - intros f Hf. unfold found in Hf.
    apply binary64_soc_feasibility_loop_spec in Hf.
    destruct Hf as (k & cu & nx & _ & _ & H3).
    apply binary64_soc_feasibility_pair_spec in H3. simpl in H3.
    destruct H3 as [[-> _]|[-> _]]; eauto.
  - intros current. split; reflexivity.
  - intros current H1 H2 H3 H4.
    unfold row_max_charge, row_max_discharge, max_charge, max_discharge.
    rewrite H1, H2, H3, H4. split; reflexivity.
Qed.

(** C3, as stated, fails: on [reserved_plan] the transition 10 -> 5 is
    within the bounds of the generator's repair (maxDischarge =
    min(10, 10 - 0) = 10), and the validator flags it all the same, because
    it measures against the hour's own [soc_min] (maxDischarge =
    min(10, 10 - 8) = 2). *)
Lemma validate_soc_feasibility_not_profile_bounds :
  exists current next_hour,
    reserved_plan = [current; next_hour] /\
    max_discharge bess_small (soc_begin (base current)) = 10 /\
    row_max_discharge current = 2 /\
    ~ exceeds_charge (max_charge bess_small (soc_begin (base current)))
        current next_hour /\
    ~ exceeds_discharge (max_discharge bess_small (soc_begin (base current)))
        current next_hour /\
    validation_errors
      (_validate_soc_feasibility (COPValidator_init bess_small) reserved_plan)
    = [discharge_finding 0].
Proof.
  eexists _, _. split; [reflexivity|].
  split; [reflexivity|]. split; [reflexivity|].
  split; [|split; [|reflexivity]].
  - unfold exceeds_charge. vm_compute. discriminate.
  - unfold exceeds_discharge. vm_compute. discriminate.
Qed.

(** The tolerance is a float: [2.3 + 0.01] is 2.3099999999999996 in
    binary64, below 2.31, so a charge of 2.31 MWh into a room of 2.3 MWh is
    flagged, which it would not be with the decimal fractions. *)
Lemma tolerance_is_binary64 :
  validation_errors
    (_validate_soc_feasibility (COPValidator_init bess_small) tolerance_plan)
  = [charge_finding 0] /\
  valid (fst (validate (COPValidator_init bess_small) tolerance_plan)) = false.
Proof. split; reflexivity. Qed.

(** ** The report of the validator *)

Lemma binary64_fold_append_errors (c : string -> bool) (x : Finding)
  (l : list string) :
  forall self,
    fold_left (fun self field =>
                 if c field then append_errors [x] self else self) l self
    = {| v_bess := v_bess self;
         validation_errors :=
           validation_errors self
           ++ flat_map (fun field => if c field then [x] else []) l;
         validation_warnings := validation_warnings self |}.
Proof.
  induction l as [|a l IH]; intros self; simpl.
  - rewrite app_nil_r. destruct self; reflexivity.
  - rewrite IH. destruct (c a); simpl; [|reflexivity].
    rewrite <- app_assoc. reflexivity.
Qed.

Lemma binary64_validate_errors_eq (self : COPValidator) (cop : list CopRow) :
  errors (fst (validate self cop))
  = soc_feasibility_loop (efficiency (v_bess self)) 0 cop
    ++ flat_map (soc_bounds_errors (v_bess self)) cop
    ++ flat_map (fun field =>
                   if in_columns field && isnull_any cop field
                   then [{| f_hour := None; f_type := NULL_VALUES;
                            f_severity := ERROR |}]
                   else [])
                required_fields.
Proof.
  unfold validate, fst, errors.
  unfold _validate_timeline_requirements, _validate_data_completeness.
  change (filter (fun f => negb (in_columns f)) required_fields) with (@nil string).
  cbv iota.
  rewrite binary64_fold_append_errors.
  destruct (_ <? _)%nat; simpl; rewrite <- ?app_assoc; reflexivity.
Qed.

Lemma binary64_validate_warnings_eq (self : COPValidator) (cop : list CopRow) :
  warnings (fst (validate self cop))
  = flat_map soc_bounds_warnings cop
    ++ ramp_rate_loop 0 cop
    ++ flat_map as_requirements_row cop
    ++ (if (List.length cop <? 168)%nat then [horizon_finding] else []).
Proof.
  unfold validate, fst, warnings.
  unfold _validate_timeline_requirements, _validate_data_completeness.
  change (filter (fun f => negb (in_columns f)) required_fields) with (@nil string).
  cbv iota.
  rewrite binary64_fold_append_errors.
  destruct (_ <? _)%nat; simpl; rewrite <- ?app_assoc, ?app_nil_r; reflexivity.
Qed.

Lemma binary64_soc_feasibility_loop_nil (eff : float) (cop : list CopRow) :
  soc_feasibility_loop eff 0 cop = [] <->
  forall i current next_hour,
    nth_error cop i = Some current ->
    nth_error cop (S i) = Some next_hour ->
    transition_ok eff current next_hour.
Proof.
  rewrite nil_iff_nothing_in. split.
  - intros H i cu nx H1 H2. split.
    + intros Hc. apply (H (charge_finding i)).
      apply binary64_soc_feasibility_loop_spec. exists i, cu, nx.
      split; [exact H1|]. split; [exact H2|].
      apply binary64_soc_feasibility_pair_spec. left.
      split; [reflexivity | exact Hc].
    + intros Hd.
      assert (Hc : ~ exceeds_charge (row_max_charge eff cu) cu nx).
      { intros Hc. apply (H (charge_finding i)).
        apply binary64_soc_feasibility_loop_spec. exists i, cu, nx.
        split; [exact H1|]. split; [exact H2|].
        apply binary64_soc_feasibility_pair_spec. left.
        split; [reflexivity | exact Hc]. }
      apply (H (discharge_finding i)).
      apply binary64_soc_feasibility_loop_spec. exists i, cu, nx.
      split; [exact H1|]. split; [exact H2|].
      apply binary64_soc_feasibility_pair_spec. right. auto.
  - intros H f Hf. apply binary64_soc_feasibility_loop_spec in Hf.
    destruct Hf as (k & cu & nx & H1 & H2 & H3).
    destruct (H k cu nx H1 H2) as [Hc Hd].
    apply binary64_soc_feasibility_pair_spec in H3.
    destruct H3 as [[_ H3]|[_ [_ H3]]]; contradiction.
Qed.

Lemma binary64_soc_bounds_errors_nil (bess : BESSParameters) (cop : list CopRow) :
  flat_map (soc_bounds_errors bess) cop = [] <-> Forall (within_limits bess) cop.
Proof.
  induction cop as [|row cop IH]; simpl.
  - split; [constructor | reflexivity].
  - rewrite Forall_cons_iff, <- IH. unfold soc_bounds_errors, within_limits.
    destruct (float_lt _ _); [|destruct (float_gt _ _)]; simpl; split;
      try discriminate; try (intros [[H1 H2] _]; discriminate);
      try (intros H; split; [split; reflexivity | exact H]);
      intros [_ H]; exact H.
Qed.

Lemma binary64_no_null_values (cop : list CopRow) :
  flat_map (fun field =>
              if in_columns field && isnull_any cop field
              then [{| f_hour := None; f_type := NULL_VALUES;
                       f_severity := ERROR |}]
              else [])
           required_fields = [] <->
  Forall complete cop.
Proof.
  assert (Hif : forall (b : bool) (x : Finding) (l : list Finding),
             (if b then [x] else []) ++ l = [] <-> b = false /\ l = []).
  { intros [|] x l; simpl; split; try discriminate.
    - intros [H _]; discriminate H.
    - intros H; split; [reflexivity | exact H].
    - intros [_ H]; exact H. }
  unfold required_fields. simpl flat_map.
  change (in_columns "hour_ending") with true.
  change (in_columns "resource_name") with true.
  change (in_columns "status") with true.
  change (in_columns "hsl") with true.
  change (in_columns "lsl") with true.
  change (in_columns "soc_begin") with true.
  change (in_columns "soc_min") with true.
  change (in_columns "soc_max") with true.
  change (in_columns "normal_ramp_up") with true.
  change (in_columns "normal_ramp_down") with true.
  cbn [andb].
  change (isnull_any cop "hour_ending") with false.
  change (isnull_any cop "resource_name") with false.
  change (isnull_any cop "status") with false.
  change (isnull_any cop "hsl")
    with (existsb (fun row => isna (row_hsl (base row))) cop).
  change (isnull_any cop "lsl")
    with (existsb (fun row => isna (row_lsl (base row))) cop).
  change (isnull_any cop "soc_begin")
    with (existsb (fun row => isna (soc_begin (base row))) cop).
  change (isnull_any cop "soc_min")
    with (existsb (fun row => isna (soc_min (base row))) cop).
  change (isnull_any cop "soc_max")
    with (existsb (fun row => isna (soc_max (base row))) cop).
  change (isnull_any cop "normal_ramp_up")
    with (existsb (fun row => isna (normal_ramp_up row)) cop).
  change (isnull_any cop "normal_ramp_down")
    with (existsb (fun row => isna (normal_ramp_down row)) cop).
  cbn [app]. rewrite !Hif.
  induction cop as [|row cop IH].
  - simpl. split; [constructor | repeat split; reflexivity].
  - rewrite Forall_cons_iff, <- IH. unfold complete. cbn [existsb].
    rewrite !Bool.orb_false_iff. tauto.
Qed.

(** X1.  What a valid report means, in the arithmetic of the code: a plan
    is reported valid exactly when neither test of the feasibility check
    fires on any stored transition between adjacent hours, no [soc_begin]
    is below the profile's [min_soc] or above its [max_soc], and no numeric
    cell of a required column is missing.  Nothing else, neither ramp rates,
    nor reserves, nor the horizon, bears on [valid]. *)
Theorem validate_valid_characterised (self : COPValidator) (cop : list CopRow) :
  valid (fst (validate self cop)) = true <->
  (forall i current next_hour,
     nth_error cop i = Some current ->
     nth_error cop (S i) = Some next_hour ->
     transition_ok (efficiency (v_bess self)) current next_hour) /\
  Forall (within_limits (v_bess self)) cop /\
  Forall complete cop.
Proof.
  change (valid (fst (validate self cop)))
    with (List.length (errors (fst (validate self cop))) =? 0)%nat.
  rewrite binary64_validate_errors_eq, Nat.eqb_eq, length_zero_iff_nil.
  rewrite <- binary64_soc_feasibility_loop_nil, <- binary64_soc_bounds_errors_nil,
    <- binary64_no_null_values.
  split.
  - intros H. apply app_eq_nil in H. destruct H as [H1 H].
    apply app_eq_nil in H. tauto.
  - intros (-> & -> & ->). reflexivity.
Qed.

(** ** The ramp check *)

Lemma binary64_ramp_rate_pair_spec (i : nat) (current next_hour : CopRow)
  (f : Finding) :
  In f (ramp_rate_pair i current next_hour) <->
  f = ramp_finding i /\ ramp_exceeded current next_hour.
Proof.
  unfold ramp_rate_pair, ramp_exceeded.
  destruct (ResourceStatus_eqb _ _) eqn:Es; simpl.
  - apply ResourceStatus_eqb_eq in Es.
    destruct (float_gt _ _) eqn:E; simpl; split.
    + intros [<-|[]]. auto.
    + intros [-> _]. left. reflexivity.
    + intros [].
    + intros [_ [_ H]]. discriminate H.
  - split; [intros []|]. intros [_ [H _]].
    apply ResourceStatus_eqb_eq in H. congruence.
Qed.

Lemma binary64_ramp_rate_loop_spec (cop : list CopRow) :
  forall (i0 : nat) (f : Finding),
    In f (ramp_rate_loop i0 cop) <->
    exists k current next_hour,
      nth_error cop k = Some current /\
      nth_error cop (S k) = Some next_hour /\
      In f (ramp_rate_pair (i0 + k) current next_hour).
Proof.
  induction cop as [|c cop IH]; intros i0 f.
  - simpl. split; [intros [] | intros (k & cu & nx & H & _)].
    destruct k; discriminate H.
  - destruct cop as [|n cop].
    + simpl. split; [intros [] | intros (k & cu & nx & _ & H & _)].
      destruct k; discriminate H.
    + change (ramp_rate_loop i0 (c :: n :: cop))
        with (ramp_rate_pair i0 c n ++ ramp_rate_loop (S i0) (n :: cop)).
      rewrite in_app_iff, IH. split.
      * intros [H|(k & cu & nx & H1 & H2 & H3)].
        -- exists O, c, n. rewrite Nat.add_0_r. auto.
        -- exists (S k), cu, nx. rewrite Nat.add_succ_r. auto.
      * intros (k & cu & nx & H1 & H2 & H3). destruct k as [|k].
        -- left. simpl in H1, H2. injection H1 as <-. injection H2 as <-.
           rewrite Nat.add_0_r in H3. exact H3.
        -- right. exists k, cu, nx. rewrite Nat.add_succ_r in H3. auto.
Qed.

Lemma binary64_one_finding (b : bool) (x f : Finding) (P : Prop) :
  (f = x -> P) -> In f (if b then [x] else []) -> P.
Proof.
  intros HP H. destruct b; simpl in H; [|contradiction].
  destruct H as [<-|[]]. apply HP. reflexivity.
Qed.

Lemma binary64_other_warning_types (cop : list CopRow) (f : Finding) :
  In f (flat_map soc_bounds_warnings cop) \/
  In f (flat_map as_requirements_row cop) \/
  In f (if (List.length cop <? 168)%nat then [horizon_finding] else []) ->
  f_type f <> RAMP_RATE_EXCEEDED.
Proof.
  intros [H|[H|H]].
  - apply in_flat_map in H. destruct H as (row & _ & H).
    unfold soc_bounds_warnings in H. apply in_app_iff in H.
    destruct H as [H|H]; revert H; apply binary64_one_finding;
      intros ->; discriminate.
  - apply in_flat_map in H. destruct H as (row & _ & H).
    unfold as_requirements_row in H.
    destruct (ResourceStatus_eqb _ ONRR);
      [|destruct (ResourceStatus_eqb _ ONECRS); [|contradiction]];
      revert H; apply binary64_one_finding; intros ->; discriminate.
  - revert H. apply binary64_one_finding. intros ->. discriminate.
Qed.

Lemma binary64_error_types (self : COPValidator) (cop : list CopRow) (f : Finding) :
  In f (errors (fst (validate self cop))) -> f_severity f = ERROR.
Proof.
  rewrite binary64_validate_errors_eq, !in_app_iff. intros [H|[H|H]].
  - apply binary64_soc_feasibility_loop_spec in H.
    destruct H as (k & cu & nx & _ & _ & H).
    apply binary64_soc_feasibility_pair_spec in H.
    destruct H as [[-> _]|[-> _]]; reflexivity.
  - apply in_flat_map in H. destruct H as (row & _ & H).
    unfold soc_bounds_errors in H.
    destruct (float_lt _ _); [destruct H as [<-|[]]; reflexivity|].
    revert H. apply binary64_one_finding. intros ->. reflexivity.
  - apply in_flat_map in H. destruct H as (field & _ & H).
    revert H. apply binary64_one_finding. intros ->. reflexivity.
Qed.

(** X3.  The ramp check, in the arithmetic of the code: the pair of hours
    at positions [i] and [i+1] is reported RAMP_RATE_EXCEEDED, a warning,
    exactly when the two hours have the same status and the test
    [|target_mw[i+1] - target_mw[i]| >
     max(normal_ramp_up, normal_ramp_down) * 60 * 1.05] is true of the
    floats, the ramp rates being those of hour [i]; a change of status
    between the two hours suppresses the finding whatever the change of
    target; the finding is never among the errors. *)
Theorem validate_ramp_findings (self : COPValidator) (cop : list CopRow) (i : nat) :
  let r := fst (validate self cop) in
  (In (ramp_finding i) (warnings r) <->
   exists current next_hour,
     nth_error cop i = Some current /\ nth_error cop (S i) = Some next_hour /\
     ramp_exceeded current next_hour) /\
  (forall current next_hour,
     nth_error cop i = Some current -> nth_error cop (S i) = Some next_hour ->
     status (base current) <> status (base next_hour) ->
     ~ In (ramp_finding i) (warnings r)) /\
  ~ In (ramp_finding i) (errors r).
Proof.
  intros r. subst r.
  assert (Hiff : In (ramp_finding i) (warnings (fst (validate self cop)))
                 <-> exists current next_hour,
                       nth_error cop i = Some current /\
                       nth_error cop (S i) = Some next_hour /\
                       ramp_exceeded current next_hour).
  { rewrite binary64_validate_warnings_eq, !in_app_iff. split.
    - intros [H|[H|[H|H]]].
      + exfalso. apply (binary64_other_warning_types cop (ramp_finding i)); auto.
      + apply binary64_ramp_rate_loop_spec in H.
        destruct H as (k & cu & nx & H1 & H2 & H).
        apply binary64_ramp_rate_pair_spec in H. destruct H as [He H].
        simpl in He. injection He as ->. eauto.
      + exfalso. apply (binary64_other_warning_types cop (ramp_finding i)); auto.
      + exfalso. apply (binary64_other_warning_types cop (ramp_finding i)); auto.
    - intros (cu & nx & H1 & H2 & H). right; left.
      apply binary64_ramp_rate_loop_spec. exists i, cu, nx.
      split; [exact H1|]. split; [exact H2|].
      apply binary64_ramp_rate_pair_spec. split; [reflexivity | exact H]. }
  split; [exact Hiff|]. split.
  - intros cu nx H1 H2 Hne Hin. apply Hiff in Hin.
    destruct Hin as (cu' & nx' & H1' & H2' & [Hs _]).
    rewrite H1 in H1'. rewrite H2 in H2'.
    injection H1' as <-. injection H2' as <-. contradiction.
  - intros H. apply binary64_error_types in H. discriminate H.
Qed.

(** The threshold is a float: [4.1 * 60 * 1.05] is 258.29999999999995 in
    binary64, so a change of target of 258.3 MW between two hours with ramp
    rates of 4.1 MW/min is reported. *)
Lemma ramp_threshold_is_binary64 :
  In (ramp_finding 0)
     (warnings (fst (validate (COPValidator_init bess_ramp) ramp_plan))).
Proof. vm_compute. auto. Qed.

End Binary64Properties.
